(** * wechat-view: the summarization engine ([internal/summarize/summary.go])

    A shallow embedding of [BuildSummary] and of the functions it calls,
    followed by the properties of the summary that the specification
    states.  Around it are embedded the functions that build the views of
    a summary ([internal/render/day.go]) and the sample of messages of
    package [insight], the envelope handling of [internal/chatlog/client.go]
    and the defaults of [internal/config/config.go], with properties of
    their own.

    Conventions of the embedding.
    - A Go [string] is a sequence of bytes: Rocq's [string].
    - Go's [int] and [int64] are [Z].  The counters of the package are
      bounded by the number of messages, and the only arithmetic done on
      an [int64] timestamp is a comparison and a division by 1000, so no
      operation of the package wraps around.
    - A [float64] is the rational it denotes ([Q]).  An arithmetic
      operation on floats is the exact operation followed by the rounding
      [fl] to a [float64], each operation rounded by itself.  The class
      [Float64] states what the proofs use of [fl]; round-to-nearest-even on
      53 bits ([rne53]) is proved to be an instance.  The exponent range,
      infinities and NaN are not modelled: the values of the package are
      far from overflow and underflow, and every division of the package is
      guarded against a zero divisor.
    - A Go [map] is a [gmap]; ranging over a map visits its entries in an
      order the runtime chooses, which is an explicit parameter
      ([MapOrder]) of every function that ranges over a map.
    - Functions of Go's standard library whose meaning rests on the Unicode
      tables, on the local time zone or on a parser are fields of the
      class [GoLib]; the package-level tables whose literals are not ASCII
      are fields of the class [Tables]. *)

From Stdlib Require Import ZArith QArith Qround Qabs Qpower Lqa String Ascii List Lia Permutation.
From stdpp Require Import gmap strings list fin_maps sorting.
Import ListNotations.
Local Open Scope Z_scope.

(** ** Floating point *)

(** The rounding of a real result to a [float64]: it is within the
    relative error 2^-53 of its argument, and it leaves unchanged every
    number [m * 2^e] whose mantissa [m] fits in 53 bits. *)
Class Float64 : Type := {
  fl : Q -> Q;
  fl_proper : forall x y : Q, (x == y)%Q -> (fl x == fl y)%Q;
  fl_error : forall x : Q, (Qabs (fl x - x) <= Qabs x * (1 # 9007199254740992))%Q;
  fl_exact : forall m e : Z,
    Z.abs m < 2 ^ 53 -> (fl (inject_Z m * 2 ^ e) == inject_Z m * 2 ^ e)%Q
}.

(** The four operations on [float64]. *)
Definition fadd `{Float64} (a b : Q) : Q := fl (a + b).
Definition fsub `{Float64} (a b : Q) : Q := fl (a - b).
Definition fmul `{Float64} (a b : Q) : Q := fl (a * b).
Definition fdiv `{Float64} (a b : Q) : Q := fl (a / b).

Declare Scope float_scope.
Delimit Scope float_scope with float.
Infix "⊕" := fadd (at level 50, left associativity) : float_scope.
Infix "⊖" := fsub (at level 50, left associativity) : float_scope.
Infix "⊗" := fmul (at level 40, left associativity) : float_scope.
Infix "⊘" := fdiv (at level 40, left associativity) : float_scope.

(** A decimal constant of the source, rounded by the compiler.  Constants
    that are [float64] values (0, 0.5, 1, 1.5, 25, 80, 100, ...) are written
    as they are. *)
Definition fconst `{Float64} (q : Q) : Q := fl q.

(** [float64(n)] of an [int]. *)
Definition float64 `{Float64} (n : Z) : Q := fl (inject_Z n).

(** [math.Round]: to the nearest integer, halves away from zero.  The
    result is a [float64], and [int(...)] of it is the same integer. *)
Definition math_Round (q : Q) : Z :=
  if Qle_bool 0 q then Qfloor (q + 0.5) else - Qfloor (- q + 0.5).

Definition math_Abs (q : Q) : Q := Qabs q.

(** The comparison [a < b] of two floats. *)
Definition Qlt_bool (a b : Q) : bool := negb (Qle_bool b a).

(** *** Round-to-nearest-even on 53 bits

    The rounding of binary64, with an exponent range that has no end:
    [rne53 q] is the multiple of [2^e] nearest to [q], halves to the even
    multiple, where [e] is such that [|q| / 2^e] lies in [2^52, 2^53). *)

Local Open Scope Q_scope.

(** For [q > 0], the exponent [k] with [2^k <= q < 2^(k+1)]. *)
Definition ilog2 (q : Q) : Z :=
  let k := (Z.log2 (Qnum q) - Z.log2 (Zpos (Qden q)))%Z in
  if Qle_bool (2 ^ k) q then k else (k - 1)%Z.

(** The integer nearest to [s], halves to the even one. *)
Definition roundEven (s : Q) : Z :=
  let f := Qfloor s in
  let r := s - inject_Z f in
  if Qlt_bool r 0.5 then f
  else if Qlt_bool 0.5 r then (f + 1)%Z
  else if Z.even f then f else (f + 1)%Z.

Definition rne53 (q : Q) : Q :=
  if Qeq_bool q 0 then 0
  else
    let e := (ilog2 (Qabs q) - 52)%Z in
    let m := roundEven (Qabs q / 2 ^ e) in
    (if Qle_bool 0 q then 1 else - (1)) * inject_Z m * 2 ^ e.

Local Open Scope Z_scope.

(** ** Go's [time] package, as far as the summarizer uses it *)

Module time.

(** A [time.Time]: an instant (seconds and nanoseconds since the Unix
    epoch) together with the offset, in seconds east of UTC, of the
    location it is presented in. *)
Record Time : Type := mkTime {
  sec : Z;
  nsec : Z;
  offset : Z
}.

(** January 1, year 1, 00:00:00 UTC in Unix seconds. *)
Definition unixToInternal : Z := 62135596800.

(** The zero value [time.Time{}]. *)
Definition zero : Time := mkTime (- unixToInternal) 0 0.

Definition IsZero (t : Time) : bool :=
  (sec t =? - unixToInternal) && (nsec t =? 0).

Definition After (t u : Time) : bool :=
  (sec u <? sec t) || ((sec t =? sec u) && (nsec u <? nsec t)).

Definition Before (t u : Time) : bool :=
  (sec t <? sec u) || ((sec t =? sec u) && (nsec t <? nsec u)).

(** A [time.Duration] is an [int64] count of nanoseconds; [Sub]
    saturates at the ends of that range. *)
Definition minDuration : Z := - 2 ^ 63.
Definition maxDuration : Z := 2 ^ 63 - 1.

Definition Sub (t u : Time) : Z :=
  let d := (sec t - sec u) * 1000000000 + (nsec t - nsec u) in
  if d <? minDuration then minDuration
  else if maxDuration <? d then maxDuration
  else d.

(** [Duration.Minutes]: the whole minutes plus the rest of the nanoseconds
    divided by [60*1e9]. *)
Definition Minutes `{Float64} (d : Z) : Q :=
  (float64 (Z.quot d 60000000000)
   ⊕ float64 (Z.rem d 60000000000) ⊘ 60000000000)%float.

(** [Time.Hour]: the hour within the day, in the time's location. *)
Definition Hour (t : Time) : Z := ((sec t + offset t) / 3600) mod 24.

End time.

Abbreviation Time := time.Time.

(** ** The standard library functions the package calls *)

(** An argument of [fmt.Sprintf]: the package formats integers and strings. *)
Inductive fmtArg : Type :=
| ArgInt (n : Z)
| ArgStr (s : string).

Class GoLib : Type := {
  (** [strings.TrimSpace], [strings.ToLower], [strings.Fields] and
      [strings.TrimRight s cutset]. *)
  strings_TrimSpace : string -> string;
  strings_ToLower : string -> string;
  strings_Fields : string -> list string;
  strings_TrimRight : string -> string -> string;
  (** [[]rune(s)] (also the sequence a [range] over a string visits) and
      [string(runes)]. *)
  utf8_runes : string -> list Z;
  utf8_string : list Z -> string;
  (** [unicode.IsLetter], [unicode.IsDigit] and [unicode.Is(unicode.Han, _)]. *)
  unicode_IsLetter : Z -> bool;
  unicode_IsDigit : Z -> bool;
  unicode_IsHan : Z -> bool;
  (** The offset of the local time zone at a Unix time, seconds east of
      UTC. *)
  time_localOffset : Z -> Z;
  (** [time.Parse(time.RFC3339, s)], [None] when it returns an error. *)
  time_ParseRFC3339 : string -> option Time;
  (** [t.Format(time.RFC3339)]. *)
  time_FormatRFC3339 : Time -> string;
  (** The [Host] of [url.Parse(u)], [None] when parsing fails. *)
  url_ParseHost : string -> option string;
  (** [fmt.Sprintf format args]. *)
  fmt_Sprintf : string -> list fmtArg -> string;
  (** The lower-case form of the empty string is empty. *)
  strings_ToLower_empty : strings_ToLower "" = ""
}.

(** [time.Unix(ts, 0).Local()]. *)
Definition time_UnixLocal `{GoLib} (ts : Z) : Time :=
  time.mkTime ts 0 (time_localOffset ts).

(** The order in which a [range] over a map visits the entries: some
    rearrangement of them, chosen by the runtime at each run. *)
Record MapOrder : Type := {
  rangeOrder : forall A : Type, list A -> list A;
  rangeOrder_perm : forall (A : Type) (l : list A), Permutation (rangeOrder A l) l
}.

Arguments rangeOrder _ {A} _.

(** *** Strings *)

(** [strings.Contains s substr]: [substr] occurs in [s] as a run of bytes. *)
Fixpoint strings_Contains (s substr : string) : bool :=
  String.prefix substr s
  || match s with
     | EmptyString => false
     | String _ s' => strings_Contains s' substr
     end.

(** [strings.HasPrefix]. *)
Definition strings_HasPrefix (s pre : string) : bool := String.prefix pre s.

(** [strings.ContainsAny s chars], with [chars] given as code points. *)
Definition strings_ContainsAny `{GoLib} (s : string) (chars : list Z) : bool :=
  existsb (fun r => existsb (Z.eqb r) chars) (utf8_runes s).

(** [strings.Join]. *)
Fixpoint strings_Join (elems : list string) (sep : string) : string :=
  match elems with
  | [] => ""
  | [e] => e
  | e :: rest => e +:+ sep +:+ strings_Join rest sep
  end.

(** [len(s)], the number of bytes. *)
Definition len (s : string) : Z := Z.of_nat (String.length s).

(** *** Sorting *)

(** [sort.Slice]: the insertion sort that Go runs on slices of at most
    twelve elements (each element moves left while it is [less] than its
    left neighbour).  On longer slices Go only promises a result ordered
    by [less]; the order it leaves between elements that [less] does not
    separate is unspecified there, and insertion sort is one such result. *)
Section Sort.
Context {A : Type} (less : A -> A -> bool).

(** Insert [x] at the right end of a prefix given in reverse. *)
Fixpoint sinkLeft (x : A) (revPrefix : list A) : list A :=
  match revPrefix with
  | [] => [x]
  | p :: rest => if less x p then p :: sinkLeft x rest else x :: revPrefix
  end.

Definition sort_Slice (arr : list A) : list A :=
  rev (fold_left (fun revPrefix x => sinkLeft x revPrefix) arr []).
End Sort.

(** [sort.Strings]: increasing byte-wise order. *)
Definition sort_Strings (l : list string) : list string :=
  sort_Slice String.ltb l.

(** ** Package [chatlog]: the message records (client.go) *)

Module chatlog.

(** Of [Reference] and [Share], the fields that the summarizer reads. *)
Record Reference : Type := {
  Ref_SenderName : string;
  Ref_Content : string
}.

Record Share : Type := {
  Share_URL : string
}.

(** The fields of [chatlog.Message] that the summarizer reads; a nil
    pointer is [None]. *)
Record Message : Type := {
  Msg_Sender : string;
  Msg_SenderName : string;
  Msg_From : string;
  Msg_Nickname : string;
  Msg_Timestamp : Z;
  Msg_CreateTime : Z;
  Msg_Time : string;
  Msg_Content : string;
  Msg_Text : string;
  Msg_MsgType : Z;
  Msg_Mentions : list string;
  Msg_Emojis : list string;
  Msg_Reference : option Reference;
  Msg_IsQuestion : bool;
  Msg_Share : option Share
}.

End chatlog.
Export chatlog.

(** ** Package [summarize]: records (summary.go, lines 15-88) *)

Record KV : Type := {
  Key : string;
  Count : Z
}.

Record Topic : Type := {
  Topic_Name : string;
  Topic_Keywords : list string;
  Topic_Count : Z;
  Topic_Representative : string
}.

Record GroupVibes : Type := {
  Score : Z;
  Activity : Q;
  Sentiment : Q;
  InfoDensity : Q;
  Controversy : Q;
  Tone : string;
  Reasons : list string
}.

Record ReplyItem : Type := {
  Item_Questioner : string;
  Item_Question : string;
  Item_AskedAt : string;
  Item_Mentions : list string;
  Item_AgeMinutes : Q;
  Item_ResponseMinutes : Q;
  Item_Responders : list string
}.

Record ReplyDebt : Type := {
  Outstanding : list ReplyItem;
  Resolved : list ReplyItem;
  AvgResponseMinutes : Q;
  BestResponseHours : list Z
}.

(** [HourlyHistogram] is a [[24]int]: a list of length 24. *)
Record Summary : Type := {
  TotalMessages : Z;
  UniqueSenders : Z;
  TopSenders : list KV;
  TopLinks : list string;
  HourlyHistogram : list Z;
  Keywords : list KV;
  PeakHour : Z;
  Highlights : list string;
  Topics : list Topic;
  ImageCount : Z;
  Summary_GroupVibes : GroupVibes;
  Summary_ReplyDebt : ReplyDebt
}.

Record vibeTracker : Type := {
  infoDense : Z;
  mentionMsg : Z;
  questionMsg : Z;
  exclaimMsg : Z;
  sentimentPos : Q;
  sentimentNeg : Q
}.

(** A ledger entry.  [Responders] is a [map[string]string]; a nil map and
    an empty one read alike. *)
Record questionStatus : Type := {
  q_Index : Z;
  q_Message : Message;
  q_AskedAt : Time;
  q_Mentions : list string;
  q_NormalizedQuestioner : string;
  q_Resolved : bool;
  q_ResponseMinutes : Q;
  q_ResponseHour : Z;
  q_Responders : gmap string string
}.

(** The zero values [GroupVibes{}] and [ReplyDebt{}]. *)
Definition zeroGroupVibes : GroupVibes :=
  {| Score := 0; Activity := 0; Sentiment := 0; InfoDensity := 0;
     Controversy := 0; Tone := ""; Reasons := [] |}.

Definition zeroReplyDebt : ReplyDebt :=
  {| Outstanding := []; Resolved := []; AvgResponseMinutes := 0;
     BestResponseHours := [] |}.

(** ** Package-level tables (summary.go, lines 786-813)

    [stopwordEN] is written out.  The other tables, the exclamation marks
    tested at line 150 and the texts of the highlights, tones and reasons
    are literals outside ASCII: they are parameters of the embedding, and
    the properties below hold whatever they contain. *)

Class Tables : Type := {
  stopwordCN : gset string;
  positiveLexicons : list string;
  negativeLexicons : list string;
  positiveEmojiSet : gset string;
  negativeEmojiSet : gset string;
  (** [nameReplacer.Replace]. *)
  nameReplacer_Replace : string -> string;
  (** The code points of the second argument of [strings.ContainsAny] at
      line 150. *)
  exclaimChars : list Z;
  (** Format strings and texts of [buildHighlights]. *)
  fmtHeadline : string;
  txtTopSenders : string;
  txtListSep : string;
  txtHotTopics : string;
  fmtLinksWithHost : string;
  fmtLinks : string;
  fmtImages : string;
  (** Tone labels and reasons of [buildGroupVibes]. *)
  toneSteady : string;
  toneHigh : string;
  toneGood : string;
  toneCold : string;
  fmtActivityHigh : string;
  txtActivityLow : string;
  txtSentimentHigh : string;
  txtSentimentLow : string;
  txtInfoDense : string;
  txtControversyHigh : string;
  txtControversyLow : string;
  (** The ellipsis appended by [trimQuestionText]. *)
  txtEllipsis : string
}.

Definition stopwordEN : gset string :=
  list_to_set
    ["the"; "of"; "and"; "to"; "in"; "is"; "for"; "on"; "with"; "this";
     "that"; "are"; "be"; "as"; "by"; "at"; "from"; "or"; "not"; "you";
     "your"].

(** Reading a [map[string]bool] whose entries are all [true]. *)
Definition has (set : gset string) (k : string) : bool := bool_decide (k ∈ set).

(** [m[k]++] on a [map[string]int] or a [map[int]int]. *)
Definition incr `{Countable K} (k : K) (m : gmap K Z) : gmap K Z :=
  <[k := default 0 (m !! k) + 1]> m.

(** [arr[i]++] on the histogram. *)
Definition incrAt (i : Z) (arr : list Z) : list Z :=
  alter Z.succ (Z.to_nat i) arr.

Section Summarize.
Context `{GoLib} `{Tables} `{Float64}.

(** ** Helpers (summary.go, lines 602-784) *)

Definition runeLen (s : string) : Z := Z.of_nat (length (utf8_runes s)).

Definition sprintf (format : string) (a : list fmtArg) : string :=
  strings_TrimSpace (fmt_Sprintf format a).

Definition clamp01 (v : Q) : Q :=
  if Qlt_bool v 0 then 0
  else if Qlt_bool 1 v then 1
  else v.

(** [roundTo v digits] for [digits >= 0]; [math.Pow(10, digits)] is the
    integer power. *)
Definition roundTo (v : Q) (digits : Z) : Q :=
  let digits := if digits <? 0 then 0 else digits in
  let factor := inject_Z (10 ^ digits) in
  (inject_Z (math_Round (v ⊗ factor)) ⊘ factor)%float.

Definition normalizeName (s : string) : string :=
  if String.eqb s "" then ""
  else
    let lower := strings_ToLower (strings_TrimSpace s) in
    let clean := nameReplacer_Replace lower in
    utf8_string
      (List.filter (fun r => unicode_IsLetter r || unicode_IsDigit r
                        || (r =? 95) || unicode_IsHan r)
              (utf8_runes clean)).

Fixpoint uniqueLoop (rest : list string) (seen : gset string) (out : list string)
  : list string :=
  match rest with
  | [] => out
  | item :: rest' =>
      let trim := strings_TrimSpace item in
      if String.eqb trim "" then uniqueLoop rest' seen out
      else
        let key := normalizeName trim in
        if String.eqb key "" then uniqueLoop rest' seen out
        else if has seen key then uniqueLoop rest' seen out
        else uniqueLoop rest' ({[key]} ∪ seen) (out ++ [trim])
  end.

Definition uniqueStrings (input : list string) : list string :=
  uniqueLoop input ∅ [].

Definition senderDisplay (m : Message) : string :=
  if negb (String.eqb (strings_TrimSpace (Msg_SenderName m)) "") then Msg_SenderName m
  else if negb (String.eqb (strings_TrimSpace (Msg_Nickname m)) "") then Msg_Nickname m
  else if negb (String.eqb (strings_TrimSpace (Msg_Sender m)) "") then Msg_Sender m
  else if negb (String.eqb (strings_TrimSpace (Msg_From m)) "") then Msg_From m
  else "".

(** The byte written for a rune by [asciiTokens]: the rune itself when it
    is an ASCII letter or digit, a space otherwise. *)
Definition asciiTokenByte (r : Z) : ascii :=
  if 127 <? r then " "%char
  else if ((65 <=? r) && (r <=? 90)) || ((97 <=? r) && (r <=? 122))
          || ((48 <=? r) && (r <=? 57))
       then ascii_of_nat (Z.to_nat r)
       else " "%char.

Definition asciiTokens (s : string) : list string :=
  strings_Fields (string_of_list_ascii (map asciiTokenByte (utf8_runes s))).

(** The windows [seq[i:i+n]] for [i+n <= len(seq)], as strings. *)
Definition gramsOf (n : nat) (seq : list Z) : list string :=
  map (fun i => utf8_string (take n (drop i seq)))
      (List.seq 0 (length seq + 1 - n)).

(** The closure [flush] of [chineseGrams], returning the new [grams]
    ([seq] is emptied by the caller). *)
Definition flush (grams : list string) (seq : list Z) : list string :=
  if (2 <=? length seq)%nat then grams ++ gramsOf 2 seq ++ gramsOf 3 seq
  else grams.

Fixpoint gramsLoop (rs : list Z) (grams : list string) (seq : list Z)
  : list string :=
  match rs with
  | [] => flush grams seq
  | r :: rs' =>
      if unicode_IsHan r then gramsLoop rs' grams (seq ++ [r])
      else gramsLoop rs' (flush grams seq) []
  end.

Definition chineseGrams (s : string) : list string :=
  gramsLoop (utf8_runes s) [] [].

(** The second loop of [extractURLs]: first occurrences, in order. *)
Fixpoint uniqueURLs (urls : list string) (seen : gset string) (unique : list string)
  : list string :=
  match urls with
  | [] => unique
  | u :: rest =>
      if has seen u then uniqueURLs rest seen unique
      else uniqueURLs rest ({[u]} ∪ seen) (unique ++ [u])
  end.

Definition urlParts (s : string) : list string :=
  flat_map
    (fun part =>
       if strings_HasPrefix part "http://" || strings_HasPrefix part "https://"
       then [strings_TrimRight part ",.;!?)]}"]
       else [])
    (strings_Fields s).

Definition extractURLs (s : string) : list string :=
  let urls := urlParts s in
  if (length urls =? 0)%nat then urls else uniqueURLs urls ∅ [].

(** The entries of a [map[string]int] as [KV]s, in the order of the range. *)
Definition entries (ord : MapOrder) (m : gmap string Z) : list KV :=
  rangeOrder ord (map (fun e => {| Key := fst e; Count := snd e |}) (map_to_list m)).

Definition lessCountThenKey (a b : KV) : bool :=
  if Count a =? Count b then String.ltb (Key a) (Key b)
  else Count b <? Count a.

Definition topK (ord : MapOrder) (m : gmap string Z) (k : nat) : list KV :=
  take k (sort_Slice lessCountThenKey (entries ord m)).

Definition lessCount (a b : KV) : bool := Count b <? Count a.

Definition topKKeys (ord : MapOrder) (m : gmap string Z) (k : nat) : list string :=
  map Key (take k (sort_Slice lessCount (entries ord m))).

(** ** Sentiment signals (summary.go, lines 432-469) *)

(** One of the two lexicon loops: the first token found adds 1 and ends
    the loop. *)
Fixpoint lexiconLoop (lexicon : list string) (text lower : string) (acc : Q) : Q :=
  match lexicon with
  | [] => acc
  | token :: rest =>
      if String.eqb token "" then lexiconLoop rest text lower acc
      else if strings_Contains text token || strings_Contains lower token
           then (acc ⊕ 1)%float
           else lexiconLoop rest text lower acc
  end.

Definition emojiStep (acc : Q * Q) (e : string) : Q * Q :=
  let e := strings_TrimSpace e in
  if String.eqb e "" then acc
  else
    let pos := if has positiveEmojiSet e then (fst acc ⊕ 0.5)%float else fst acc in
    let neg := if has negativeEmojiSet e then (snd acc ⊕ 0.5)%float else snd acc in
    (pos, neg).

Definition sentimentSignals (text : string) (emojis : list string) : Q * Q :=
  if String.eqb text "" && (length emojis =? 0)%nat then (0%Q, 0%Q)
  else
    let lower := strings_ToLower text in
    let pos := lexiconLoop positiveLexicons text lower 0 in
    let neg := lexiconLoop negativeLexicons text lower 0 in
    fold_left emojiStep emojis (pos, neg).

(** ** The question ledger (summary.go, lines 471-547) *)

Definition shouldTrackQuestion (m : Message) (text : string) : bool :=
  if negb (Msg_IsQuestion m) then false
  else if negb (Msg_MsgType m =? 0) && negb (Msg_MsgType m =? 1)
          && negb (Msg_MsgType m =? 49) then false
  else if String.eqb (strings_TrimSpace text) "" then false
  else if runeLen text <? 2 then false
  else true.

(** Lines 499-510: the tests on the reply reference. *)
Definition referenceMatches (msg : Message) (q : questionStatus) (questioner : string)
  : bool :=
  match Msg_Reference msg with
  | None => false
  | Some ref =>
      if String.eqb (normalizeName (Ref_SenderName ref)) questioner then true
      else
        let refContent := strings_TrimSpace (Ref_Content ref) in
        let questionContent := strings_TrimSpace (Msg_Content (q_Message q)) in
        negb (String.eqb refContent "") && negb (String.eqb questionContent "")
        && (strings_Contains questionContent refContent
            || strings_Contains refContent questionContent)
  end.

Definition matchesQuestionResponse (msg : Message) (q : questionStatus) (text : string)
  : bool :=
  let questioner :=
    if String.eqb (q_NormalizedQuestioner q) ""
    then normalizeName (senderDisplay (q_Message q))
    else q_NormalizedQuestioner q in
  if String.eqb questioner "" then false
  else
    let responderName := normalizeName (senderDisplay msg) in
    if String.eqb responderName "" || String.eqb responderName questioner then false
    else if referenceMatches msg q questioner then true
    else if existsb (fun mention => String.eqb (normalizeName mention) questioner)
                    (Msg_Mentions msg) then true
    else if (0 <? length (q_Mentions q))%nat
            && existsb (fun target => String.eqb (normalizeName target) responderName)
                       (q_Mentions q) then true
    else false.

(** [ts] in seconds: values above 10^12 are milliseconds. *)
Definition toSeconds (ts : Z) : Z :=
  if 1000000000000 <? ts then Z.quot ts 1000 else ts.

Definition messageTime (m : Message) : Time :=
  if 0 <? Msg_Timestamp m then time_UnixLocal (toSeconds (Msg_Timestamp m))
  else if 0 <? Msg_CreateTime m then time_UnixLocal (toSeconds (Msg_CreateTime m))
  else if negb (String.eqb (Msg_Time m) "") then
    match time_ParseRFC3339 (Msg_Time m) with
    | Some t => t
    | None => time.zero
    end
  else time.zero.

(** Lines 173-187: what a matching message writes into the entry. *)
Definition markResolved (m : Message) (msgTime : Time) (q : questionStatus)
  : questionStatus :=
  {| q_Index := q_Index q;
     q_Message := q_Message q;
     q_AskedAt := q_AskedAt q;
     q_Mentions := q_Mentions q;
     q_NormalizedQuestioner := q_NormalizedQuestioner q;
     q_Resolved := true;
     q_ResponseMinutes :=
       if negb (time.IsZero msgTime) && negb (time.IsZero (q_AskedAt q))
          && time.After msgTime (q_AskedAt q)
       then time.Minutes (time.Sub msgTime (q_AskedAt q))
       else q_ResponseMinutes q;
     q_ResponseHour := if time.IsZero msgTime then -1 else time.Hour msgTime;
     q_Responders :=
       let display := senderDisplay m in
       if negb (String.eqb display "")
       then <[normalizeName display := display]> (q_Responders q)
       else q_Responders q |}.

(** Lines 162-189: the body of the loop over the ledger, for one entry. *)
Definition resolveStep (idx : Z) (m : Message) (text : string) (msgTime : Time)
    (q : questionStatus) : questionStatus :=
  if q_Resolved q then q
  else if idx <=? q_Index q then q
  else if time.IsZero msgTime
          || (negb (time.IsZero (q_AskedAt q)) && time.Before msgTime (q_AskedAt q))
       then q
  else if matchesQuestionResponse m q text then markResolved m msgTime q
  else q.

(** Lines 193-199: the entry a trackable question opens. *)
Definition newQuestion (idx : Z) (m : Message) (msgTime : Time) : questionStatus :=
  {| q_Index := idx;
     q_Message := m;
     q_AskedAt := msgTime;
     q_Mentions := uniqueStrings (Msg_Mentions m);
     q_NormalizedQuestioner := normalizeName (senderDisplay m);
     q_Resolved := false;
     q_ResponseMinutes := 0;
     q_ResponseHour := 0;
     q_Responders := ∅ |}.

Definition trimQuestionText (m : Message) : string :=
  let text := if String.eqb (Msg_Content m) "" then Msg_Text m else Msg_Content m in
  let text := strings_TrimSpace text in
  let text :=
    match Msg_Reference m with
    | Some ref => if String.eqb text "" then strings_TrimSpace (Ref_Content ref) else text
    | None => text
    end in
  if String.eqb text "" then ""
  else
    let runes := utf8_runes text in
    if (120 <? length runes)%nat then utf8_string (take 120 runes) +:+ txtEllipsis
    else text.

(** ** Reply debt (summary.go, lines 376-430 and 568-600) *)

Definition lessHour (a b : Z * Z) : bool :=
  if snd a =? snd b then fst a <? fst b else snd b <? snd a.

Definition bestHours (ord : MapOrder) (counts : gmap Z Z) (limit : Z) : list Z :=
  if (size counts =? 0)%nat || (limit =? 0) then []
  else
    let arr := List.filter (fun e => negb (fst e <? 0)) (rangeOrder ord (map_to_list counts)) in
    if (length arr =? 0)%nat then []
    else
      let arr := sort_Slice lessHour arr in
      let arr :=
        if (0 <? limit) && (limit <? Z.of_nat (length arr))
        then take (Z.to_nat limit) arr else arr in
      map fst arr.

(** Lines 385-395: the item of an entry, before the branch on [Resolved]. *)
Definition baseItem (q : questionStatus) : ReplyItem :=
  {| Item_Questioner := senderDisplay (q_Message q);
     Item_Question := trimQuestionText (q_Message q);
     Item_AskedAt :=
       if negb (time.IsZero (q_AskedAt q)) then time_FormatRFC3339 (q_AskedAt q)
       else "";
     Item_Mentions := q_Mentions q;
     Item_AgeMinutes := 0;
     Item_ResponseMinutes := 0;
     Item_Responders := [] |}.

(** Lines 397-405: the item appended to [rd.Resolved]. *)
Definition resolvedItem (ord : MapOrder) (q : questionStatus) : ReplyItem :=
  let item := baseItem q in
  {| Item_Questioner := Item_Questioner item;
     Item_Question := Item_Question item;
     Item_AskedAt := Item_AskedAt item;
     Item_Mentions := Item_Mentions item;
     Item_AgeMinutes := Item_AgeMinutes item;
     Item_ResponseMinutes := roundTo (q_ResponseMinutes q) 1;
     Item_Responders :=
       if (0 <? size (q_Responders q))%nat
       then sort_Strings (map snd (rangeOrder ord (map_to_list (q_Responders q))))
       else Item_Responders item |}.

(** Lines 415-422: the item appended to [rd.Outstanding]. *)
Definition outstandingItem (lastTime : Time) (q : questionStatus) : ReplyItem :=
  let item := baseItem q in
  {| Item_Questioner := Item_Questioner item;
     Item_Question := Item_Question item;
     Item_AskedAt := Item_AskedAt item;
     Item_Mentions := Item_Mentions item;
     Item_AgeMinutes :=
       if negb (time.IsZero lastTime) && negb (time.IsZero (q_AskedAt q))
       then
         let age := time.Minutes (time.Sub lastTime (q_AskedAt q)) in
         let age := if Qlt_bool age 0 then 0%Q else age in
         roundTo age 1
       else Item_AgeMinutes item;
     Item_ResponseMinutes := Item_ResponseMinutes item;
     Item_Responders := Item_Responders item |}.

(** The state of the loop of [buildReplyDebt]. *)
Record debtState : Type := {
  rd_Outstanding : list ReplyItem;
  rd_Resolved : list ReplyItem;
  hourCounts : gmap Z Z;
  totalResponse : Q;
  responseCount : Q
}.

Definition debtStep (ord : MapOrder) (lastTime : Time) (st : debtState)
    (q : questionStatus) : debtState :=
  if q_Resolved q then
    let counted := Qlt_bool 0 (q_ResponseMinutes q) in
    {| rd_Outstanding := rd_Outstanding st;
       rd_Resolved := rd_Resolved st ++ [resolvedItem ord q];
       hourCounts :=
         if 0 <=? q_ResponseHour q then incr (q_ResponseHour q) (hourCounts st)
         else hourCounts st;
       totalResponse :=
         if counted then (totalResponse st ⊕ q_ResponseMinutes q)%float
         else totalResponse st;
       responseCount :=
         if counted then (responseCount st ⊕ 1)%float else responseCount st |}
  else
    {| rd_Outstanding := rd_Outstanding st ++ [outstandingItem lastTime q];
       rd_Resolved := rd_Resolved st;
       hourCounts := hourCounts st;
       totalResponse := totalResponse st;
       responseCount := responseCount st |}.

Definition debtInit : debtState :=
  {| rd_Outstanding := []; rd_Resolved := []; hourCounts := ∅;
     totalResponse := 0; responseCount := 0 |}.

Definition buildReplyDebt (ord : MapOrder) (questions : list questionStatus)
    (lastTime : Time) : ReplyDebt :=
  if (length questions =? 0)%nat then zeroReplyDebt
  else
    let st := fold_left (debtStep ord lastTime) questions debtInit in
    {| Outstanding := rd_Outstanding st;
       Resolved := rd_Resolved st;
       AvgResponseMinutes :=
         if Qlt_bool 0 (responseCount st)
         then roundTo (totalResponse st ⊘ responseCount st)%float 1
         else 0;
       BestResponseHours := bestHours ord (hourCounts st) 3 |}.

(** ** Group vibes (summary.go, lines 326-374) *)

(** The four sub-scores and [balanced], before they are rounded for
    display. *)
Definition vibeActivity (sum : Summary) : Q :=
  clamp01 (float64 (TotalMessages sum) ⊘ 80 ⊕ float64 (UniqueSenders sum) ⊘ 25)%float.

Definition vibeSentiment (sum : Summary) (analytics : vibeTracker) : Q :=
  clamp01 (0.5 ⊕ (sentimentPos analytics ⊖ sentimentNeg analytics)
                 ⊘ (float64 (TotalMessages sum) ⊗ 1.5))%float.

Definition vibeInfoDensity (sum : Summary) (analytics : vibeTracker) : Q :=
  clamp01 (float64 (infoDense analytics) ⊘ float64 (TotalMessages sum))%float.

Definition vibeControversy (sum : Summary) (analytics : vibeTracker) : Q :=
  clamp01 (float64 (questionMsg analytics + mentionMsg analytics + exclaimMsg analytics)
           ⊘ (float64 (TotalMessages sum) ⊗ 1))%float.

Definition vibeBalanced (controversy : Q) : Q :=
  clamp01 (1 ⊖ math_Abs (fconst 0.35 ⊖ controversy) ⊘ fconst 0.35)%float.

Definition vibeScore (activity sentiment infoDensity balanced : Q) : Z :=
  math_Round ((activity ⊗ fconst 0.35 ⊕ sentiment ⊗ fconst 0.3
               ⊕ infoDensity ⊗ fconst 0.2 ⊕ balanced ⊗ fconst 0.15) ⊗ 100)%float.

Definition vibeTone (score : Z) : string :=
  if 85 <=? score then toneHigh
  else if 70 <=? score then toneGood
  else if score <=? 40 then toneCold
  else toneSteady.

Definition vibeReasons (sum : Summary) (activity sentiment infoDensity controversy : Q)
  : list string :=
  (if Qle_bool (fconst 0.7) activity
   then [sprintf fmtActivityHigh [ArgInt (TotalMessages sum); ArgInt (UniqueSenders sum)]]
   else if Qle_bool activity (fconst 0.3) then [txtActivityLow] else [])
  ++ (if Qle_bool (fconst 0.6) sentiment then [txtSentimentHigh]
      else if Qle_bool sentiment (fconst 0.4) then [txtSentimentLow] else [])
  ++ (if Qle_bool 0.5 infoDensity then [txtInfoDense] else [])
  ++ (if Qle_bool (fconst 0.55) controversy then [txtControversyHigh]
      else if Qle_bool controversy (fconst 0.2) then [txtControversyLow] else []).

Definition buildGroupVibes (sum : Summary) (analytics : vibeTracker) : GroupVibes :=
  if TotalMessages sum =? 0 then zeroGroupVibes
  else
    let activity := vibeActivity sum in
    let sentiment := vibeSentiment sum analytics in
    let infoDensity := vibeInfoDensity sum analytics in
    let controversy := vibeControversy sum analytics in
    let balanced := vibeBalanced controversy in
    let score := vibeScore activity sentiment infoDensity balanced in
    {| Score := score;
       Activity := roundTo activity 2;
       Sentiment := roundTo sentiment 2;
       InfoDensity := roundTo infoDensity 2;
       Controversy := roundTo controversy 2;
       Tone := vibeTone score;
       Reasons := vibeReasons sum activity sentiment infoDensity controversy |}.

(** ** Highlights (summary.go, lines 293-324) *)

Definition buildHighlights (s : Summary) : list string :=
  [sprintf fmtHeadline
     [ArgInt (TotalMessages s); ArgInt (UniqueSenders s);
      ArgInt (PeakHour s); ArgInt (PeakHour s)]]
  ++ (if (0 <? length (TopSenders s))%nat
      then [txtTopSenders
            +:+ strings_Join
                  (map (fun kv => sprintf "%s(%d)" [ArgStr (Key kv); ArgInt (Count kv)])
                       (take 3 (TopSenders s)))
                  txtListSep]
      else [])
  ++ (if (0 <? length (Topics s))%nat
      then [txtHotTopics
            +:+ strings_Join (map Topic_Name (take 3 (Topics s))) txtListSep]
      else [])
  ++ match TopLinks s with
     | [] => []
     | u :: _ =>
         match url_ParseHost u with
         | Some host =>
             if negb (String.eqb host "")
             then [sprintf fmtLinksWithHost
                     [ArgInt (Z.of_nat (length (TopLinks s))); ArgStr host]]
             else [sprintf fmtLinks [ArgInt (Z.of_nat (length (TopLinks s)))]]
         | None => [sprintf fmtLinks [ArgInt (Z.of_nat (length (TopLinks s)))]]
         end
     end
  ++ (if 0 <? ImageCount s then [sprintf fmtImages [ArgInt (ImageCount s)]] else []).

(** ** [BuildSummary] (summary.go, lines 90-291) *)

(** The variables the loop over the messages updates. *)
Record loopState : Type := {
  histogram : list Z;
  imageCount : Z;
  senderCount : gmap string Z;
  linkCount : gmap string Z;
  tokenCount : gmap string Z;
  messagesText : list string;
  analytics : vibeTracker;
  questions : list questionStatus;
  lastTime : Time
}.

Definition loopInit : loopState :=
  {| histogram := replicate 24 0;
     imageCount := 0;
     senderCount := ∅;
     linkCount := ∅;
     tokenCount := ∅;
     messagesText := [];
     analytics :=
       {| infoDense := 0; mentionMsg := 0; questionMsg := 0; exclaimMsg := 0;
          sentimentPos := 0; sentimentNeg := 0 |};
     questions := [];
     lastTime := time.zero |}.

(** Lines 111-121. *)
Definition histogramTs (m : Message) : Z :=
  if Msg_Timestamp m =? 0 then Msg_CreateTime m else Msg_Timestamp m.

Definition histogramStep (m : Message) (hist : list Z) : list Z :=
  let ts := histogramTs m in
  if 0 <? ts then incrAt (time.Hour (time_UnixLocal (toSeconds ts))) hist
  else hist.

(** Lines 124-127. *)
Definition messageText (m : Message) : string :=
  if String.eqb (Msg_Content m) "" then Msg_Text m else Msg_Content m.

(** Lines 131-134. *)
Definition foundLinks (m : Message) (text : string) : list string :=
  extractURLs text
  ++ match Msg_Share m with
     | Some share => if negb (String.eqb (Share_URL share) "") then [Share_URL share] else []
     | None => []
     end.

(** Lines 141-155. *)
Definition analyticsStep (m : Message) (text : string) (links : list string)
    (a : vibeTracker) : vibeTracker :=
  let signals := sentimentSignals text (Msg_Emojis m) in
  {| infoDense :=
       if (0 <? length links)%nat || (80 <? runeLen text) || (Msg_MsgType m =? 49)
       then infoDense a + 1 else infoDense a;
     mentionMsg :=
       if (0 <? length (Msg_Mentions m))%nat then mentionMsg a + 1 else mentionMsg a;
     questionMsg := if Msg_IsQuestion m then questionMsg a + 1 else questionMsg a;
     exclaimMsg :=
       if strings_ContainsAny text exclaimChars then exclaimMsg a + 1 else exclaimMsg a;
     sentimentPos := (sentimentPos a ⊕ fst signals)%float;
     sentimentNeg := (sentimentNeg a ⊕ snd signals)%float |}.

(** Lines 203-215. *)
Definition asciiTokenStep (counts : gmap string Z) (tok : string) : gmap string Z :=
  let tok := strings_ToLower tok in
  if has stopwordEN tok || (len tok <=? 2) then counts else incr tok counts.

Definition gramStep (counts : gmap string Z) (tok : string) : gmap string Z :=
  if has stopwordCN tok then counts else incr tok counts.

Definition tokenStep (text : string) (counts : gmap string Z) : gmap string Z :=
  fold_left gramStep (chineseGrams text)
    (fold_left asciiTokenStep (asciiTokens text) counts).

(** The body of the loop over the messages, lines 103-216. *)
Definition loopBody (idx : Z) (m : Message) (st : loopState) : loopState :=
  let s := senderDisplay m in
  let text := messageText m in
  let links := foundLinks m text in
  let msgTime := messageTime m in
  let resolved := map (resolveStep idx m text msgTime) (questions st) in
  {| histogram := histogramStep m (histogram st);
     imageCount := if Msg_MsgType m =? 3 then imageCount st + 1 else imageCount st;
     senderCount :=
       if negb (String.eqb s "") then incr s (senderCount st) else senderCount st;
     linkCount := fold_left (fun counts u => incr u counts) links (linkCount st);
     tokenCount := tokenStep text (tokenCount st);
     messagesText :=
       if negb (String.eqb text "") then messagesText st ++ [text] else messagesText st;
     analytics := analyticsStep m text links (analytics st);
     questions :=
       if shouldTrackQuestion m text then resolved ++ [newQuestion idx m msgTime]
       else resolved;
     lastTime :=
       if negb (time.IsZero msgTime) && time.After msgTime (lastTime st)
       then msgTime else lastTime st |}.

(** [for idx, orig := range msgs], from index [idx] on. *)
Fixpoint rangeMsgs (idx : Z) (msgs : list Message) (st : loopState) : loopState :=
  match msgs with
  | [] => st
  | m :: rest => rangeMsgs (idx + 1) rest (loopBody idx m st)
  end.

(** Lines 219-226: the first hour holding the largest count. *)
Fixpoint peakLoop (i : Z) (hist : list Z) (peakHour peakValue : Z) : Z :=
  match hist with
  | [] => peakHour
  | v :: rest =>
      if peakValue <? v then peakLoop (i + 1) rest i v
      else peakLoop (i + 1) rest peakHour peakValue
  end.

(** Lines 247-252 and 268-275: the texts holding [tk], and the longest. *)
Definition matchingIdxs (texts : list string) (tk : string) : list nat :=
  List.filter (fun i => strings_Contains (texts !!! i) tk) (List.seq 0 (length texts)).

Fixpoint longest (texts : list string) (idxs : list nat) (long : Z) (rep : string)
  : string :=
  match idxs with
  | [] => rep
  | i :: rest =>
      let l := runeLen (texts !!! i) in
      if long <? l then longest texts rest l (texts !!! i)
      else longest texts rest long rep
  end.

(** Lines 242-283.  The range over [used] only asks whether some key is in
    a substring relation with [tk]; the answer does not depend on the order
    of the range. *)
Fixpoint topicLoop (texts : list string) (topTokens : list string)
    (topics : list Topic) (used : gset string) : list Topic :=
  match topTokens with
  | [] => topics
  | tk :: rest =>
      if (5 <=? length topics)%nat then topics
      else
        let idxs := matchingIdxs texts tk in
        if (length idxs <? 3)%nat then topicLoop texts rest topics used
        else if existsb (fun k => strings_Contains k tk || strings_Contains tk k)
                        (elements used)
             then topicLoop texts rest topics used
        else
          topicLoop texts rest
            (topics ++ [{| Topic_Name := tk;
                           Topic_Keywords := [tk];
                           Topic_Count := Z.of_nat (length idxs);
                           Topic_Representative := longest texts idxs 0 "" |}])
            ({[tk]} ∪ used)
  end.

Definition BuildSummary (ord : MapOrder) (msgs : list Message) : Summary :=
  let st := rangeMsgs 0 msgs loopInit in
  let keywords := topK ord (tokenCount st) 20 in
  let sum :=
    {| TotalMessages := Z.of_nat (length msgs);
       UniqueSenders := Z.of_nat (size (senderCount st));
       TopSenders := topK ord (senderCount st) 5;
       TopLinks := topKKeys ord (linkCount st) 5;
       HourlyHistogram := histogram st;
       Keywords := keywords;
       PeakHour := peakLoop 0 (histogram st) 0 0;
       Highlights := [];
       Topics := topicLoop (messagesText st) (map Key keywords) [] ∅;
       ImageCount := imageCount st;
       Summary_GroupVibes := zeroGroupVibes;
       Summary_ReplyDebt := zeroReplyDebt |} in
  {| TotalMessages := TotalMessages sum;
     UniqueSenders := UniqueSenders sum;
     TopSenders := TopSenders sum;
     TopLinks := TopLinks sum;
     HourlyHistogram := HourlyHistogram sum;
     Keywords := Keywords sum;
     PeakHour := PeakHour sum;
     Highlights := buildHighlights sum;
     Topics := Topics sum;
     ImageCount := ImageCount sum;
     Summary_GroupVibes := buildGroupVibes sum (analytics st);
     Summary_ReplyDebt := buildReplyDebt ord (questions st) (lastTime st) |}.

End Summarize.

(** ** Package [render]: the views of a summary (render/day.go) *)

Record HourSlot : Type := {
  Slot_Label : string;
  Slot_Count : Z;
  Slot_Percent : Q
}.

Record SenderView : Type := {
  SenderView_Name : string;
  SenderView_Count : Z;
  SenderView_Percent : Q
}.

Record KeywordView : Type := {
  KeywordView_Text : string;
  KeywordView_Count : Z
}.

Module render.
Section Render.
Context `{GoLib} `{Float64}.

(** Lines 203-223.  The first loop leaves the largest count in [max]. *)
Definition maxCount (hist : list Z) : Z :=
  fold_left (fun max v => if max <? v then v else max) hist 0.

Definition buildActivitySeries (hist : list Z) : list HourSlot :=
  let max := maxCount hist in
  imap (fun hour count =>
          {| Slot_Label := fmt_Sprintf "%02d" [ArgInt (Z.of_nat hour)];
             Slot_Count := count;
             Slot_Percent :=
               if 0 <? max then (float64 count ⊘ float64 max ⊗ 100)%float else 0%Q |})
       hist.

(** Lines 225-240. *)
Definition buildSenderViews (items : list KV) (total : Z) : list SenderView :=
  let tot := float64 total in
  map (fun kv =>
         {| SenderView_Name := Key kv;
            SenderView_Count := Count kv;
            SenderView_Percent :=
              if Qlt_bool 0 tot then (float64 (Count kv) ⊘ tot ⊗ 100)%float else 0%Q |})
      items.

(** Lines 340-349. *)
Definition buildKeywordViews (items : list KV) (limit : Z) : list KeywordView :=
  let items :=
    if (0 <? limit) && (limit <? Z.of_nat (length items))
    then take (Z.to_nat limit) items else items in
  map (fun kv => {| KeywordView_Text := Key kv; KeywordView_Count := Count kv |}) items.

(** Lines 308-315. *)
Fixpoint firstNonEmptyStr (vals : list string) : string :=
  match vals with
  | [] => ""
  | v :: rest =>
      if negb (String.eqb (strings_TrimSpace v) "") then v else firstNonEmptyStr rest
  end.

(** Lines 330-338. *)
Definition hostOnly (raw : string) : string :=
  if String.eqb raw "" then ""
  else match url_ParseHost raw with
       | Some host => if negb (String.eqb host "") then host else raw
       | None => raw
       end.

End Render.
End render.

(** ** Package [insight]: the sample of messages sent to the model
    (render/day.go, lines 360-611) *)

(** [t.Format("15:04:05")]. *)
Class ClockFormat : Type := {
  time_FormatClock : Time -> string
}.

Module insight.
Section Insight.
Context `{GoLib} `{ClockFormat}.

(** Lines 597-604. *)
Fixpoint firstNonEmpty (vals : list string) : string :=
  match vals with
  | [] => ""
  | v :: rest =>
      if negb (String.eqb (strings_TrimSpace v) "") then v else firstNonEmpty rest
  end.

(** Lines 564-578. *)
Definition chooseSender (m : Message) : string :=
  if negb (String.eqb (strings_TrimSpace (Msg_SenderName m)) "") then Msg_SenderName m
  else if negb (String.eqb (strings_TrimSpace (Msg_Nickname m)) "") then Msg_Nickname m
  else if negb (String.eqb (strings_TrimSpace (Msg_Sender m)) "") then Msg_Sender m
  else if negb (String.eqb (strings_TrimSpace (Msg_From m)) "") then Msg_From m
  else "匿名".

(** Lines 580-595. *)
Definition displayTime (m : Message) : string :=
  if negb (String.eqb (strings_TrimSpace (Msg_Time m)) "") then Msg_Time m
  else
    let ts := if Msg_Timestamp m =? 0 then Msg_CreateTime m else Msg_Timestamp m in
    if ts <=? 0 then ""
    else
      let ts := if 1000000000000 <? ts then Z.quot ts 1000 else ts in
      time_FormatClock (time_UnixLocal ts).

(** Lines 531-562.  A sample is a [map[string]string] with the keys
    [sender], [time] and [text]. *)
Definition sample (m : Message) (text : string) : gmap string string :=
  <["sender" := chooseSender m]> (<["time" := displayTime m]> (<["text" := text]> ∅)).

Fixpoint sampleLoop (msgs : list Message) (limit maxChars : Z)
    (out : list (gmap string string)) : list (gmap string string) :=
  match msgs with
  | [] => out
  | m :: rest =>
      if limit <=? Z.of_nat (length out) then out
      else
        let text := strings_TrimSpace (firstNonEmpty [Msg_Content m; Msg_Text m]) in
        if String.eqb text "" && negb (Msg_MsgType m =? 3)
        then sampleLoop rest limit maxChars out
        else
          let text := if String.eqb text "" then "[图片消息]" else text in
          let runes := utf8_runes text in
          let text :=
            if maxChars <? Z.of_nat (length runes)
            then utf8_string (take (Z.to_nat maxChars) runes) +:+ "..."
            else text in
          sampleLoop rest limit maxChars (out ++ [sample m text])
  end.

Definition sampleMessages (msgs : list Message) (limit maxChars : Z)
  : list (gmap string string) :=
  let limit := if limit <=? 0 then 60 else limit in
  let maxChars := if maxChars <=? 0 then 260 else maxChars in
  sampleLoop msgs limit maxChars [].

End Insight.
End insight.

(** ** Package [chatlog]: the envelope of a response (client.go) *)

(** A value of type [any] as the functions of the package tell values
    apart: [nil], the types that the JSON decoder builds with [UseNumber]
    (a [json.Number] is the string of its literal), and the numeric types
    that [toInt64] accepts.  A slice or a map inside a value is not nil. *)
#[local] Unset Elimination Schemes.
Inductive any : Type :=
| ANil
| ABool (b : bool)
| AString (s : string)
| ANumber (n : string)
| AFloat64 (f : Q)
| AInt64 (n : Z)
| AInt (n : Z)
| ASlice (l : list any)
| AMap (m : gmap string any).
#[local] Set Elimination Schemes.

Module client.
Section Client.
Context `{GoLib}.

(** Lines 391-405. *)
Fixpoint firstNonEmpty (vals : list any) : any :=
  match vals with
  | [] => ANil
  | v :: rest =>
      match v with
      | ANil => firstNonEmpty rest
      | AString t =>
          if negb (String.eqb (strings_TrimSpace t) "") then v else firstNonEmpty rest
      | _ => v
      end
  end.

(** A value that [firstNonEmpty] passes over: [nil], or a string that is
    empty or white space. *)
Definition passedOver (v : any) : bool :=
  match v with
  | ANil => true
  | AString t => String.eqb (strings_TrimSpace t) ""
  | _ => false
  end.

(** Lines 129-135: the object without the entry at [k], copied entry by
    entry in the order of the range. *)
Definition metaOf (ord : MapOrder) (x : gmap string any) (k : string) : gmap string any :=
  fold_left (fun meta e => if String.eqb (fst e) k then meta else <[fst e := snd e]> meta)
            (rangeOrder ord (map_to_list x)) ∅.

(** Lines 126-138: the loop over the keys of the envelope. *)
Fixpoint envelopeLoop (ord : MapOrder) (x : gmap string any) (keys : list string)
  : option (list any) * option (gmap string any) :=
  match keys with
  | [] => (None, None)
  | k :: rest =>
      match x !! k with
      | Some (ASlice arr) => (Some arr, Some (metaOf ord x k))
      | _ => envelopeLoop ord x rest
      end
  end.

Definition envelopeKeys : list string := ["data"; "list"; "messages"; "items"; "result"].

(** Lines 120-141.  A nil slice or map is [None]. *)
Definition normalizeResponse (ord : MapOrder) (v : any)
  : option (list any) * option (gmap string any) :=
  match v with
  | ASlice x => (Some x, None)
  | AMap x => envelopeLoop ord x envelopeKeys
  | _ => (None, None)
  end.

End Client.
End client.

(** ** Package [config] (config.go) *)

Module config.

Record ChatlogConfig : Type := {
  BaseURL : string;
  Talker : string;
  TalkerName : string;
  TalkerAlias : gmap string string;
  Keyword : string;
  ImageBaseURL : string
}.

Record ReportConfig : Type := {
  DataDir : string;
  SiteDir : string;
  RecentDays : Z;
  MessagePreview : Z
}.

Record LLMConfig : Type := {
  Enabled : bool;
  LLM_BaseURL : string;
  Model : string;
  APIKey : string;
  Temperature : Q;
  TimeoutSeconds : Z;
  MaxMessages : Z;
  MaxChars : Z
}.

Record Config : Type := {
  Chatlog : ChatlogConfig;
  Report : ReportConfig;
  LLM : LLMConfig
}.

(** Lines 67-80.  A nil alias map reads like an empty one. *)
Definition TalkerLabel (c : Config) (id : string) : string :=
  if String.eqb id "" then ""
  else
    let byName :=
      if String.eqb id (Talker (Chatlog c))
         && negb (String.eqb (TalkerName (Chatlog c)) "")
      then TalkerName (Chatlog c) else "" in
    match TalkerAlias (Chatlog c) !! id with
    | Some v => if negb (String.eqb v "") then v else byName
    | None => byName
    end.

(** Lines 83-102. *)
Definition Defaults `{Float64} (c : Config) : Config :=
  {| Chatlog := Chatlog c;
     Report :=
       {| DataDir := DataDir (Report c);
          SiteDir := SiteDir (Report c);
          RecentDays := if RecentDays (Report c) =? 0 then 14 else RecentDays (Report c);
          MessagePreview :=
            if MessagePreview (Report c) =? 0 then 120 else MessagePreview (Report c) |};
     LLM :=
       {| Enabled := Enabled (LLM c);
          LLM_BaseURL := LLM_BaseURL (LLM c);
          Model := Model (LLM c);
          APIKey := APIKey (LLM c);
          Temperature :=
            if Qeq_bool (Temperature (LLM c)) 0 then fconst 0.4 else Temperature (LLM c);
          TimeoutSeconds :=
            if TimeoutSeconds (LLM c) =? 0 then 25 else TimeoutSeconds (LLM c);
          MaxMessages := if MaxMessages (LLM c) =? 0 then 60 else MaxMessages (LLM c);
          MaxChars := if MaxChars (LLM c) =? 0 then 260 else MaxChars (LLM c) |} |}.

End config.

(** ** An instance of the library for ASCII text and UTC

    The examples below run the summarizer on messages whose strings are
    ASCII and whose time strings have the form [YYYY-MM-DDTHH:MM:SSZ], with
    the local time zone set to UTC.  On such input the functions of this
    module compute what Go's library computes. *)

Module AsciiLib.

Definition isSpace (c : ascii) : bool :=
  let n := nat_of_ascii c in
  ((9 <=? n) && (n <=? 13))%nat || (n =? 32)%nat.

Fixpoint trimLeft (s : string) : string :=
  match s with
  | String c s' => if isSpace c then trimLeft s' else s
  | EmptyString => EmptyString
  end.

Definition revString (s : string) : string :=
  string_of_list_ascii (rev (list_ascii_of_string s)).

Definition TrimSpace (s : string) : string :=
  revString (trimLeft (revString (trimLeft s))).

Definition lowerByte (c : ascii) : ascii :=
  let n := nat_of_ascii c in
  if ((65 <=? n) && (n <=? 90))%nat then ascii_of_nat (n + 32) else c.

Definition ToLower (s : string) : string :=
  string_of_list_ascii (map lowerByte (list_ascii_of_string s)).

(** [cur] is the field being read, reversed. *)
Fixpoint fieldsLoop (cs : list ascii) (cur : list ascii) : list string :=
  let close := match cur with [] => [] | _ => [string_of_list_ascii (rev cur)] end in
  match cs with
  | [] => close
  | c :: cs' => if isSpace c then close ++ fieldsLoop cs' [] else fieldsLoop cs' (c :: cur)
  end.

Definition Fields (s : string) : list string := fieldsLoop (list_ascii_of_string s) [].

Fixpoint dropWhileIn (cutset : list ascii) (cs : list ascii) : list ascii :=
  match cs with
  | c :: cs' => if existsb (Ascii.eqb c) cutset then dropWhileIn cutset cs' else cs
  | [] => []
  end.

Definition TrimRight (s cutset : string) : string :=
  string_of_list_ascii
    (rev (dropWhileIn (list_ascii_of_string cutset) (rev (list_ascii_of_string s)))).

Definition runes (s : string) : list Z :=
  map (fun c => Z.of_nat (nat_of_ascii c)) (list_ascii_of_string s).

Definition ofRunes (rs : list Z) : string :=
  string_of_list_ascii (map (fun r => ascii_of_nat (Z.to_nat r)) rs).

Definition IsLetter (r : Z) : bool :=
  ((65 <=? r) && (r <=? 90)) || ((97 <=? r) && (r <=? 122)).

Definition IsDigit (r : Z) : bool := (48 <=? r) && (r <=? 57).

(** Decimal printing, as the verb [%d] does. *)
Definition digitChar (d : Z) : string :=
  String (ascii_of_nat (48 + Z.to_nat d)) EmptyString.

Fixpoint decimalDigits (fuel : nat) (n : Z) : string :=
  match fuel with
  | O => ""
  | S fuel' =>
      if n <? 10 then digitChar n
      else decimalDigits fuel' (n / 10) +:+ digitChar (n mod 10)
  end.

Definition fmt_d (n : Z) : string :=
  if n <? 0 then "-" +:+ decimalDigits (S (Z.to_nat (Z.log2 (- n)))) (- n)
  else decimalDigits (S (Z.to_nat (Z.log2 n))) n.

(** The verb [%02d]: at least two characters, padded with a zero. *)
Definition fmt_02d (n : Z) : string :=
  let s := fmt_d n in
  if (String.length s <? 2)%nat then "0" +:+ s else s.

(** The verbs [%d], [%02d] and [%s]. *)
Fixpoint Sprintf (format : string) (args : list fmtArg) : string :=
  match format with
  | String "%" (String "d" rest) =>
      match args with
      | ArgInt n :: args' => fmt_d n +:+ Sprintf rest args'
      | _ => "%!d" +:+ Sprintf rest (tail args)
      end
  | String "%" (String "s" rest) =>
      match args with
      | ArgStr s :: args' => s +:+ Sprintf rest args'
      | _ => "%!s" +:+ Sprintf rest (tail args)
      end
  | String "%" (String "0" (String "2" (String "d" rest))) =>
      match args with
      | ArgInt n :: args' => fmt_02d n +:+ Sprintf rest args'
      | _ => "%!d" +:+ Sprintf rest (tail args)
      end
  | String c rest => String c (Sprintf rest args)
  | EmptyString => EmptyString
  end.

(** Days from 1970-01-01 to a date of the proleptic Gregorian calendar. *)
Definition daysFromCivil (y m d : Z) : Z :=
  let y := if m <=? 2 then y - 1 else y in
  let era := y / 400 in
  let yoe := y - era * 400 in
  let doy := (153 * (if 2 <? m then m - 3 else m + 9) + 2) / 5 + d - 1 in
  let doe := yoe * 365 + yoe / 4 - yoe / 100 + doy in
  era * 146097 + doe - 719468.

Definition daysIn (y m : Z) : Z :=
  if m =? 2 then
    if ((y mod 4 =? 0) && negb (y mod 100 =? 0)) || (y mod 400 =? 0) then 29 else 28
  else if (m =? 4) || (m =? 6) || (m =? 9) || (m =? 11) then 30
  else 31.

Fixpoint digitsValue (cs : list ascii) (acc : Z) : option Z :=
  match cs with
  | [] => Some acc
  | c :: cs' =>
      let n := Z.of_nat (nat_of_ascii c) in
      if (48 <=? n) && (n <=? 57) then digitsValue cs' (acc * 10 + (n - 48)) else None
  end.

Definition field (s : string) (start n : nat) : option Z :=
  let sub := String.substring start n s in
  if (String.length sub =? n)%nat then digitsValue (list_ascii_of_string sub) 0 else None.

(** [time.Parse(time.RFC3339, s)] on [YYYY-MM-DDTHH:MM:SSZ]. *)
Definition ParseRFC3339 (s : string) : option Time :=
  if negb ((String.length s =? 20)%nat
           && String.eqb (String.substring 4 1 s) "-"
           && String.eqb (String.substring 7 1 s) "-"
           && String.eqb (String.substring 10 1 s) "T"
           && String.eqb (String.substring 13 1 s) ":"
           && String.eqb (String.substring 16 1 s) ":"
           && String.eqb (String.substring 19 1 s) "Z")
  then None
  else
    match field s 0 4, field s 5 2, field s 8 2, field s 11 2, field s 14 2, field s 17 2 with
    | Some y, Some mo, Some d, Some h, Some mi, Some sc =>
        if (1 <=? mo) && (mo <=? 12) && (1 <=? d) && (d <=? daysIn y mo)
           && (h <? 24) && (mi <? 60) && (sc <? 60)
        then Some (time.mkTime (daysFromCivil y mo d * 86400 + h * 3600 + mi * 60 + sc) 0 0)
        else None
    | _, _, _, _, _, _ => None
    end.

(** The date of a day count, the inverse of [daysFromCivil]. *)
Definition civilFromDays (z : Z) : Z * Z * Z :=
  let z := z + 719468 in
  let era := z / 146097 in
  let doe := z - era * 146097 in
  let yoe := (doe - doe / 1460 + doe / 36524 - doe / 146096) / 365 in
  let doy := doe - (365 * yoe + yoe / 4 - yoe / 100) in
  let mp := (5 * doy + 2) / 153 in
  let d := doy - (153 * mp + 2) / 5 + 1 in
  let m := if mp <? 10 then mp + 3 else mp - 9 in
  (if m <=? 2 then yoe + era * 400 + 1 else yoe + era * 400, m, d).

Definition fmt_04d (n : Z) : string :=
  let s := fmt_d n in
  match String.length s with
  | 1%nat => "000" +:+ s
  | 2%nat => "00" +:+ s
  | 3%nat => "0" +:+ s
  | _ => s
  end.

(** [t.Format(time.RFC3339)] of a time in UTC with years 0 to 9999. *)
Definition FormatRFC3339 (t : Time) : string :=
  let days := time.sec t / 86400 in
  let rem := time.sec t mod 86400 in
  let '(y, m, d) := civilFromDays days in
  fmt_04d y +:+ "-" +:+ fmt_02d m +:+ "-" +:+ fmt_02d d +:+ "T"
  +:+ fmt_02d (rem / 3600) +:+ ":" +:+ fmt_02d (rem mod 3600 / 60) +:+ ":"
  +:+ fmt_02d (rem mod 60) +:+ "Z".

(** The host of [scheme://host/path]. *)
Fixpoint afterSlashes (s : string) : option string :=
  match s with
  | String ":" (String "/" (String "/" rest)) => Some rest
  | String _ s' => afterSlashes s'
  | EmptyString => None
  end.

Fixpoint untilPath (s : string) : string :=
  match s with
  | String c s' =>
      if Ascii.eqb c "/" || Ascii.eqb c "?" || Ascii.eqb c "#" then EmptyString
      else String c (untilPath s')
  | EmptyString => EmptyString
  end.

Definition ParseHost (u : string) : option string :=
  match afterSlashes u with
  | Some rest => Some (untilPath rest)
  | None => Some ""
  end.

#[export] Instance lib : GoLib := {|
  strings_TrimSpace := TrimSpace;
  strings_ToLower := ToLower;
  strings_Fields := Fields;
  strings_TrimRight := TrimRight;
  utf8_runes := runes;
  utf8_string := ofRunes;
  unicode_IsLetter := IsLetter;
  unicode_IsDigit := IsDigit;
  unicode_IsHan := fun _ => false;
  time_localOffset := fun _ => 0;
  time_ParseRFC3339 := ParseRFC3339;
  time_FormatRFC3339 := FormatRFC3339;
  url_ParseHost := ParseHost;
  fmt_Sprintf := Sprintf;
  strings_ToLower_empty := eq_refl
|}.

(** The ASCII entries of the tables of the package, and English texts. *)
#[export] Instance tables : Tables := {|
  stopwordCN := ∅;
  positiveLexicons := ["nice"; "great"; "perfect"];
  negativeLexicons := ["bug"; "??"];
  positiveEmojiSet := {["OK"]};
  negativeEmojiSet := ∅;
  nameReplacer_Replace := fun s => s;
  exclaimChars := [33];
  fmtHeadline := "messages %d, senders %d; peak %02d:00-%02d:59";
  txtTopSenders := "Top senders: ";
  txtListSep := ", ";
  txtHotTopics := "Hot topics: ";
  fmtLinksWithHost := "links %d, e.g. %s";
  fmtLinks := "links %d";
  fmtImages := "images %d";
  toneSteady := "steady";
  toneHigh := "buzzing";
  toneGood := "active";
  toneCold := "subdued";
  fmtActivityHigh := "high activity (%d messages, %d senders)";
  txtActivityLow := "low volume";
  txtSentimentHigh := "positive tone";
  txtSentimentLow := "negative content";
  txtInfoDense := "high information density";
  txtControversyHigh := "high controversy";
  txtControversyLow := "calm discussion";
  txtEllipsis := "..."
|}.

(** Two orders a range over a map may take. *)
Definition asListed : MapOrder :=
  {| rangeOrder := fun A l => l;
     rangeOrder_perm := fun A l => Permutation_refl l |}.

Definition reversed : MapOrder :=
  {| rangeOrder := fun A l => rev l;
     rangeOrder_perm := fun A l => Permutation_sym (Permutation_rev l) |}.

(** A message with every field at its zero value. *)
Definition emptyMessage : Message :=
  {| Msg_Sender := ""; Msg_SenderName := ""; Msg_From := ""; Msg_Nickname := "";
     Msg_Timestamp := 0; Msg_CreateTime := 0; Msg_Time := "";
     Msg_Content := ""; Msg_Text := ""; Msg_MsgType := 0;
     Msg_Mentions := []; Msg_Emojis := []; Msg_Reference := None;
     Msg_IsQuestion := false; Msg_Share := None |}.

End AsciiLib.


(** ** Example inputs *)

Module Examples.
Import AsciiLib.

(** A text message of [sender] with the given content and time stamp. *)
Definition textMessage (sender content : string) (ts : Z) : Message :=
  {| Msg_Sender := ""; Msg_SenderName := sender; Msg_From := ""; Msg_Nickname := "";
     Msg_Timestamp := ts; Msg_CreateTime := 0; Msg_Time := "";
     Msg_Content := content; Msg_Text := ""; Msg_MsgType := 1;
     Msg_Mentions := []; Msg_Emojis := []; Msg_Reference := None;
     Msg_IsQuestion := false; Msg_Share := None |}.

(** Alice asks at 2023-11-14T22:13:20Z; Bob answers five minutes later,
    quoting her. *)
Definition alice : Message :=
  {| Msg_Sender := ""; Msg_SenderName := "Alice"; Msg_From := ""; Msg_Nickname := "";
     Msg_Timestamp := 1700000000; Msg_CreateTime := 0; Msg_Time := "";
     Msg_Content := "why is the build failing?"; Msg_Text := ""; Msg_MsgType := 1;
     Msg_Mentions := []; Msg_Emojis := []; Msg_Reference := None;
     Msg_IsQuestion := true; Msg_Share := None |}.

Definition bob : Message :=
  {| Msg_Sender := ""; Msg_SenderName := "Bob"; Msg_From := ""; Msg_Nickname := "";
     Msg_Timestamp := 1700000300; Msg_CreateTime := 0; Msg_Time := "";
     Msg_Content := "a test is flaky"; Msg_Text := ""; Msg_MsgType := 1;
     Msg_Mentions := []; Msg_Emojis := [];
     Msg_Reference :=
       Some {| Ref_SenderName := "Alice"; Ref_Content := "why is the build failing?" |};
     Msg_IsQuestion := false; Msg_Share := None |}.

Definition aliceQuestion : questionStatus := newQuestion 0 alice (messageTime alice).

(** The same exchange in messages that carry no time at all; Alice
    mentions Bob. *)
Definition aliceNoTime : Message :=
  {| Msg_Sender := ""; Msg_SenderName := "Alice"; Msg_From := ""; Msg_Nickname := "";
     Msg_Timestamp := 0; Msg_CreateTime := 0; Msg_Time := "";
     Msg_Content := "@Bob why is the build failing?"; Msg_Text := ""; Msg_MsgType := 1;
     Msg_Mentions := ["Bob"]; Msg_Emojis := []; Msg_Reference := None;
     Msg_IsQuestion := true; Msg_Share := None |}.

Definition bobNoTime : Message :=
  {| Msg_Sender := ""; Msg_SenderName := "Bob"; Msg_From := ""; Msg_Nickname := "";
     Msg_Timestamp := 0; Msg_CreateTime := 0; Msg_Time := "";
     Msg_Content := "a test is flaky"; Msg_Text := ""; Msg_MsgType := 1;
     Msg_Mentions := []; Msg_Emojis := [];
     Msg_Reference :=
       Some {| Ref_SenderName := "Alice";
               Ref_Content := "@Bob why is the build failing?" |};
     Msg_IsQuestion := false; Msg_Share := None |}.

Definition aliceNoTimeQuestion : questionStatus :=
  newQuestion 0 aliceNoTime (messageTime aliceNoTime).

(** A question whose sender fields are all blank, and a reply that quotes
    it. *)
Definition anonymous : Message :=
  {| Msg_Sender := ""; Msg_SenderName := " "; Msg_From := ""; Msg_Nickname := "";
     Msg_Timestamp := 1700000000; Msg_CreateTime := 0; Msg_Time := "";
     Msg_Content := "is the server down?"; Msg_Text := ""; Msg_MsgType := 1;
     Msg_Mentions := []; Msg_Emojis := []; Msg_Reference := None;
     Msg_IsQuestion := true; Msg_Share := None |}.

Definition carol : Message :=
  {| Msg_Sender := ""; Msg_SenderName := "Carol"; Msg_From := ""; Msg_Nickname := "";
     Msg_Timestamp := 1700000060; Msg_CreateTime := 0; Msg_Time := "";
     Msg_Content := "no, it is up"; Msg_Text := ""; Msg_MsgType := 1;
     Msg_Mentions := []; Msg_Emojis := [];
     Msg_Reference :=
       Some {| Ref_SenderName := ""; Ref_Content := "is the server down?" |};
     Msg_IsQuestion := false; Msg_Share := None |}.

(** A message whose only time is the string [Time]. *)
Definition timeOnly : Message :=
  {| Msg_Sender := ""; Msg_SenderName := "Dan"; Msg_From := ""; Msg_Nickname := "";
     Msg_Timestamp := 0; Msg_CreateTime := 0; Msg_Time := "2024-05-01T10:00:00Z";
     Msg_Content := "good morning"; Msg_Text := ""; Msg_MsgType := 1;
     Msg_Mentions := []; Msg_Emojis := []; Msg_Reference := None;
     Msg_IsQuestion := false; Msg_Share := None |}.

(** The scenario of the specification: one URL, twice in one text. *)
Definition sameLinkTwice : Message :=
  textMessage "Erin" "https://a.com/x https://a.com/x" 1700000000.

(** Two URLs, once each. *)
Definition twoLinks : Message :=
  textMessage "Erin" "see https://a.com/x and https://b.org/y" 1700000000.

(** Eight messages, two of them positive and two of them dense, from
    senders without a name: the weighted sum of the sub-scores is 0.285. *)
Definition halfWaySummary : Summary :=
  {| TotalMessages := 8; UniqueSenders := 0; TopSenders := []; TopLinks := [];
     HourlyHistogram := replicate 24 0; Keywords := []; PeakHour := 0;
     Highlights := []; Topics := []; ImageCount := 0;
     Summary_GroupVibes := zeroGroupVibes; Summary_ReplyDebt := zeroReplyDebt |}.

Definition halfWayAnalytics : vibeTracker :=
  {| infoDense := 2; mentionMsg := 0; questionMsg := 0; exclaimMsg := 0;
     sentimentPos := 2; sentimentNeg := 0 |}.

(** Three messages about one subject. *)
Definition deployTalk : list Message :=
  [textMessage "Erin" "deploy failed again" 1700000000;
   textMessage "Frank" "retry the deploy" 1700000100;
   textMessage "Erin" "deploy done, deployment is green" 1700000200].

End Examples.

(** * Properties *)

(** The sum of a list of counters. *)
Definition sumInts (l : list Z) : Z := fold_right Z.add 0 l.

Section Properties.
Context `{GoLib} `{Tables} `{Float64}.

(** A message has a derivable time when [messageTime] does not return the
    zero time. *)
Definition hasTime (m : Message) : bool := negb (time.IsZero (messageTime m)).

(** The number of elements of [l] that satisfy [p]. *)
Definition countIf {A : Type} (p : A -> bool) (l : list A) : Z :=
  Z.of_nat (length (List.filter p l)).

(** The ledger after the messages [msgs] have been processed. *)
Definition ledger (msgs : list Message) : list questionStatus :=
  questions (rangeMsgs 0 msgs loopInit).

(** The indexes, counted from [idx], of the messages that open a ledger
    entry. *)
Fixpoint trackedIndexes (idx : Z) (msgs : list Message) : list Z :=
  match msgs with
  | [] => []
  | m :: rest =>
      (if shouldTrackQuestion m (messageText m) then [idx] else [])
      ++ trackedIndexes (idx + 1) rest
  end.

(** The normalized identity of the sender of a message. *)
Definition identity (m : Message) : string := normalizeName (senderDisplay m).

(** Two identities differ non-trivially: both are known and they differ. *)
Definition differ (a b : string) : bool :=
  negb (String.eqb a "") && negb (String.eqb b "") && negb (String.eqb b a).

(** (a) the reply reference names the questioner. *)
Definition repliesToQuestioner (m : Message) (q : questionStatus) : bool :=
  match Msg_Reference m with
  | Some ref => String.eqb (normalizeName (Ref_SenderName ref)) (q_NormalizedQuestioner q)
  | None => false
  end.

(** (b) as the claim words it: the content of the reply reference and the
    content of the question are non-empty and one contains the other. *)
Definition quotesQuestionVerbatim (m : Message) (q : questionStatus) : bool :=
  match Msg_Reference m with
  | Some ref =>
      let refContent := Ref_Content ref in
      let questionContent := Msg_Content (q_Message q) in
      negb (String.eqb refContent "") && negb (String.eqb questionContent "")
      && (strings_Contains questionContent refContent
          || strings_Contains refContent questionContent)
  | None => false
  end.

(** (b) as the code tests it: the same on the two contents with the
    surrounding white space removed. *)
Definition quotesQuestion (m : Message) (q : questionStatus) : bool :=
  match Msg_Reference m with
  | Some ref =>
      let refContent := strings_TrimSpace (Ref_Content ref) in
      let questionContent := strings_TrimSpace (Msg_Content (q_Message q)) in
      negb (String.eqb refContent "") && negb (String.eqb questionContent "")
      && (strings_Contains questionContent refContent
          || strings_Contains refContent questionContent)
  | None => false
  end.

(** (c) a mention of the message normalizes to the questioner. *)
Definition mentionsQuestioner (m : Message) (q : questionStatus) : bool :=
  existsb (fun mention => String.eqb (normalizeName mention) (q_NormalizedQuestioner q))
          (Msg_Mentions m).

(** (d) a mention of the question normalizes to the sender of the message. *)
Definition mentionedByQuestion (m : Message) (q : questionStatus) : bool :=
  existsb (fun target => String.eqb (normalizeName target) (identity m)) (q_Mentions q).

(** The condition of claim C1 as the specification states it. *)
Definition claimedResolves (m : Message) (q : questionStatus) : bool :=
  negb (time.Before (messageTime m) (q_AskedAt q))
  && differ (q_NormalizedQuestioner q) (identity m)
  && (repliesToQuestioner m q || quotesQuestionVerbatim m q
      || mentionsQuestioner m q || mentionedByQuestion m q).

(** The condition under which the code resolves an open entry: the time of
    the message must be known, and it is compared with the asked-at time
    only when that is known too. *)
Definition resolves (m : Message) (q : questionStatus) : bool :=
  negb (time.IsZero (messageTime m))
  && (time.IsZero (q_AskedAt q) || negb (time.Before (messageTime m) (q_AskedAt q)))
  && differ (q_NormalizedQuestioner q) (identity m)
  && (repliesToQuestioner m q || quotesQuestion m q
      || mentionsQuestioner m q || mentionedByQuestion m q).

(** What holds of every entry of the ledger while message [idx] is
    processed, and of every open entry. *)
Definition entryOk (idx : Z) (q : questionStatus) : Prop :=
  q_Index q < idx
  /\ q_NormalizedQuestioner q = normalizeName (senderDisplay (q_Message q))
  /\ (q_Resolved q = false ->
      q_ResponseMinutes q = 0%Q /\ q_ResponseHour q = 0 /\ q_Responders q = ∅).

(** Some non-empty term of the lexicon occurs in the text, as it is or in
    lower case. *)
Definition lexiconHit (lexicon : list string) (text : string) : bool :=
  existsb (fun token =>
             negb (String.eqb token "")
             && (strings_Contains text token
                 || strings_Contains (strings_ToLower text) token))
          lexicon.

(** The number of emoji tokens that, white space around them removed, are in
    an emoji set. *)
Definition emojiCount (set : gset string) (emojis : list string) : Z :=
  countIf (fun e => negb (String.eqb (strings_TrimSpace e) "")
                    && has set (strings_TrimSpace e))
          emojis.

(** The share URL of a message counts once more for [u] when it is [u]. *)
Definition shareCount (m : Message) (u : string) : Z :=
  match Msg_Share m with
  | Some share =>
      if negb (String.eqb (Share_URL share) "") && String.eqb u (Share_URL share)
      then 1 else 0
  | None => 0
  end.

(** The texts of the messages, without the empty ones: the slice
    [messagesText] at the end of the loop. *)
Definition textsOf (msgs : list Message) : list string :=
  List.filter (fun text => negb (String.eqb text "")) (map messageText msgs).

(** The number of texts that contain [name] as a substring. *)
Definition textsContaining (texts : list string) (name : string) : Z :=
  countIf (fun text => strings_Contains text name) texts.

(** No name of the list is a substring of a name at another place. *)
Definition unrelated (names : list string) : Prop :=
  forall (i j : nat) (a b : string),
    names !! i = Some a -> names !! j = Some b -> i <> j ->
    strings_Contains a b = false.

(** The invariant of the loop that builds the topics. *)
Definition topicsOk (texts : list string) (topics : list Topic) (used : gset string)
  : Prop :=
  (length topics <= 5)%nat
  /\ (forall k, k ∈ used <-> In k (map Topic_Name topics))
  /\ Forall (fun t => 3 <= Topic_Count t
                      /\ Topic_Count t = textsContaining texts (Topic_Name t)) topics
  /\ unrelated (map Topic_Name topics).

(** [less] orders like [<] on a ranking: it is asymmetric, and "not less"
    is transitive. *)
Definition strictWeak {A : Type} (less : A -> A -> bool) : Prop :=
  (forall a b, less a b = true -> less b a = false)
  /\ (forall a b c, less a b = false -> less b c = false -> less a c = false).

(** No element of the list is [less] than an element before it. *)
Definition ascending {A : Type} (less : A -> A -> bool) (l : list A) : Prop :=
  StronglySorted (fun a b => less b a = false) l.

(** [a] ranks before [b] in [topK]: a greater count, or the same count and
    a smaller key. *)
Definition outranks (a b : KV) : Prop :=
  Count b < Count a \/ (Count a = Count b /\ String.ltb (Key a) (Key b) = true).

(** The count of a key in a [map[string]int]: 0 when the key is absent. *)
Definition countOf (m : gmap string Z) (k : string) : Z := default 0 (m !! k).

(** Counting the keys of a list into a [map[string]int]: [m[k]++] for each. *)
Definition tally (ks : list string) (m : gmap string Z) : gmap string Z :=
  fold_left (fun counts k => incr k counts) ks m.

(** The number of different strings in a list. *)
Definition distinct (l : list string) : nat := size (list_to_set l : gset string).

(** The number of times [u] occurs in a list. *)
Definition occurrences (u : string) (l : list string) : Z := countIf (String.eqb u) l.

(** The display names of the messages that have one. *)
Definition sendersOf (msgs : list Message) : list string :=
  List.filter (fun s => negb (String.eqb s "")) (map senderDisplay msgs).

(** The links found in the messages, a link once for each message and
    place (text or share payload) it is found in. *)
Definition linksOf (msgs : list Message) : list string :=
  flat_map (fun m => foundLinks m (messageText m)) msgs.

(** The tokens of a text that are counted: the ASCII tokens in lower case
    that are longer than two bytes and are no English stop word, then the
    grams that are no Chinese stop word. *)
Definition countedTokens (text : string) : list string :=
  List.filter (fun tok => negb (has stopwordEN tok || (len tok <=? 2)))
              (map strings_ToLower (asciiTokens text))
  ++ List.filter (fun tok => negb (has stopwordCN tok)) (chineseGrams text).

Definition tokensOf (msgs : list Message) : list string :=
  flat_map (fun m => countedTokens (messageText m)) msgs.

(** The message is counted in the histogram, in the bucket of hour [h]. *)
Definition countedAt (h : Z) (m : Message) : bool :=
  (0 <? histogramTs m) && (time.Hour (messageTime m) =? h).

(** The entry that a question opens, settled by the messages that follow
    it: resolved by the first of them that meets the condition [resolves],
    open when none does. *)
Definition settle (later : list Message) (q : questionStatus) : questionStatus :=
  match List.find (fun r => resolves r q) later with
  | Some r => markResolved r (messageTime r) q
  | None => q
  end.

(** The ledger as the questions of the input, each settled by the messages
    after it. *)
Fixpoint settledLedger (idx : Z) (msgs : list Message) : list questionStatus :=
  match msgs with
  | [] => []
  | m :: rest =>
      (if shouldTrackQuestion m (messageText m)
       then [settle rest (newQuestion idx m (messageTime m))]
       else [])
      ++ settledLedger (idx + 1) rest
  end.

(** Hour [a] ranks before hour [b] in [bestHours]: more responses, or as
    many and an earlier hour. *)
Definition betterHour (counts : gmap Z Z) (a b : Z) : Prop :=
  default 0 (counts !! b) < default 0 (counts !! a)
  \/ (default 0 (counts !! a) = default 0 (counts !! b) /\ a < b).

(** The representative of a topic: a text that contains the name of the
    topic and has no fewer runes than any text that contains it; or no text
    at all, when every text that contains the name has no rune. *)
Definition representativeOk (texts : list string) (t : Topic) : Prop :=
  (In (Topic_Representative t) texts
   /\ strings_Contains (Topic_Representative t) (Topic_Name t) = true
   /\ forall text, In text texts -> strings_Contains text (Topic_Name t) = true ->
                   runeLen text <= runeLen (Topic_Representative t))
  \/ (Topic_Representative t = ""
      /\ forall text, In text texts -> strings_Contains text (Topic_Name t) = true ->
                      runeLen text = 0).

(** Case analysis on every test of the goal. *)
Ltac break_ifs :=
  repeat match goal with |- context [if ?b then _ else _] => destruct b end.

(** ** The loop over the messages *)

Lemma rangeMsgs_app (pre post : list Message) (idx : Z) (st : loopState) :
  rangeMsgs idx (pre ++ post) st
  = rangeMsgs (idx + Z.of_nat (length pre)) post (rangeMsgs idx pre st).
Proof.
  revert idx st. induction pre as [|m pre IH]; intros idx st; simpl.
  - f_equal. lia.
  - rewrite IH. f_equal. lia.
Qed.

(** ** The hourly histogram *)

Lemma sumInts_incrAt (i : Z) (arr : list Z) :
  0 <= i < Z.of_nat (length arr) ->
  sumInts (incrAt i arr) = sumInts arr + 1.
Proof.
  unfold incrAt. intros Hi.
  assert (Hn : (Z.to_nat i < length arr)%nat) by lia.
  clear Hi. revert Hn. generalize (Z.to_nat i) as n.
  induction arr as [|v arr IH]; intros n Hn; simpl in *; [lia|].
  destruct n as [|n]; simpl.
  - unfold sumInts; simpl. lia.
  - specialize (IH n ltac:(lia)). unfold sumInts in *; simpl. 
    change (list_alter Z.succ n arr) with (alter Z.succ n arr). lia.
Qed.

Lemma length_incrAt (i : Z) (arr : list Z) : length (incrAt i arr) = length arr.
Proof. unfold incrAt. apply length_alter. Qed.

Lemma Hour_range (t : Time) : 0 <= time.Hour t < 24.
Proof. unfold time.Hour. apply Z.mod_pos_bound. lia. Qed.

Lemma histogramStep_spec (m : Message) (hist : list Z) :
  length hist = 24%nat ->
  length (histogramStep m hist) = 24%nat
  /\ sumInts (histogramStep m hist)
     = sumInts hist + (if 0 <? histogramTs m then 1 else 0).
Proof.
  intros Hlen. unfold histogramStep.
  destruct (0 <? histogramTs m).
  - split; [now rewrite length_incrAt|].
    apply sumInts_incrAt. rewrite Hlen.
    pose proof (Hour_range (time_UnixLocal (toSeconds (histogramTs m)))). lia.
  - split; [assumption | lia].
Qed.

Lemma histogram_rangeMsgs (msgs : list Message) (idx : Z) (st : loopState) :
  length (histogram st) = 24%nat ->
  length (histogram (rangeMsgs idx msgs st)) = 24%nat
  /\ sumInts (histogram (rangeMsgs idx msgs st))
     = sumInts (histogram st) + countIf (fun m => 0 <? histogramTs m) msgs.
Proof.
  revert idx st. induction msgs as [|m msgs IH]; intros idx st Hlen; simpl.
  - split; [assumption | unfold countIf; simpl; lia].
  - destruct (histogramStep_spec m (histogram st) Hlen) as [Hl Hs].
    destruct (IH (idx + 1) (loopBody idx m st) Hl) as [IHl IHs].
    split; [exact IHl|]. rewrite IHs. simpl histogram. rewrite Hs.
    unfold countIf. simpl. destruct (0 <? histogramTs m); simpl length; lia.
Qed.

Lemma countIf_le_length {A : Type} (p : A -> bool) (l : list A) :
  countIf p l <= Z.of_nat (length l).
Proof.
  unfold countIf. induction l as [|x l IH]; simpl; [lia|].
  destruct (p x); simpl length; lia.
Qed.

Lemma countIf_le {A : Type} (p q : A -> bool) (l : list A) :
  (forall x, p x = true -> q x = true) -> countIf p l <= countIf q l.
Proof.
  intros Hpq. unfold countIf. induction l as [|x l IH]; simpl; [lia|].
  destruct (p x) eqn:Hp.
  - rewrite (Hpq x Hp). simpl length. lia.
  - destruct (q x); simpl length; lia.
Qed.

Lemma toSeconds_pos (ts : Z) : 0 < ts -> 0 < toSeconds ts.
Proof.
  intros Hts. unfold toSeconds. destruct (1000000000000 <? ts) eqn:Hms; [|assumption].
  apply Z.ltb_lt in Hms. apply Z.quot_str_pos. lia.
Qed.

Lemma UnixLocal_not_zero (ts : Z) : 0 < ts -> time.IsZero (time_UnixLocal ts) = false.
Proof.
  intros Hts. unfold time.IsZero, time_UnixLocal, time.unixToInternal.
  cbn [time.sec time.nsec].
  apply andb_false_intro1, Z.eqb_neq. lia.
Qed.

(** A message counted in the histogram has a derivable time. *)
Lemma histogramTs_hasTime (m : Message) :
  (0 <? histogramTs m) = true -> hasTime m = true.
Proof.
  unfold histogramTs, hasTime, messageTime. intros Hts.
  destruct (Msg_Timestamp m =? 0) eqn:E0.
  - apply Z.eqb_eq in E0. rewrite E0. simpl. rewrite Hts.
    apply Z.ltb_lt in Hts. now rewrite UnixLocal_not_zero by now apply toSeconds_pos.
  - rewrite Hts. apply Z.ltb_lt in Hts.
    now rewrite UnixLocal_not_zero by now apply toSeconds_pos.
Qed.

Lemma countIf_all {A : Type} (p : A -> bool) (l : list A) :
  (forall x, In x l -> p x = true) -> countIf p l = Z.of_nat (length l).
Proof.
  unfold countIf. induction l as [|x l IH]; intros Hall; [reflexivity|].
  cbn [List.filter]. rewrite (Hall x) by now left.
  cbn [length]. rewrite !Nat2Z.inj_succ, IH; [reflexivity|].
  intros y Hy. apply Hall. now right.
Qed.

(** C3 (as amended).  The 24 buckets of the histogram sum to the number of
    messages whose [Timestamp], or [CreateTime] when [Timestamp] is 0, is
    positive.  Each of these messages has a derivable time, so the sum is at
    most the number of messages with a derivable time, which is at most the
    total message count; and the sum is the total message count when every
    message has such a positive time stamp. *)
Theorem histogram_sum (ord : MapOrder) (msgs : list Message) :
  let s := BuildSummary ord msgs in
  length (HourlyHistogram s) = 24%nat
  /\ sumInts (HourlyHistogram s) = countIf (fun m => 0 <? histogramTs m) msgs
  /\ sumInts (HourlyHistogram s) <= countIf hasTime msgs
  /\ countIf hasTime msgs <= TotalMessages s
  /\ ((forall m, In m msgs -> 0 < histogramTs m) ->
      sumInts (HourlyHistogram s) = TotalMessages s).
Proof.
  simpl.
  destruct (histogram_rangeMsgs msgs 0 loopInit eq_refl) as [Hlen Hsum].
  split; [exact Hlen|]. rewrite Hsum. change (sumInts (histogram loopInit)) with 0.
  rewrite Z.add_0_l.
  split; [reflexivity|]. split; [apply countIf_le, histogramTs_hasTime|].
  split; [apply countIf_le_length|].
  intros Hall. apply countIf_all. intros m Hm. now apply Z.ltb_lt, Hall.
Qed.

(** ** The question ledger *)

Lemma normalizeName_empty : normalizeName "" = "".
Proof. reflexivity. Qed.

Lemma questions_loopBody (idx : Z) (m : Message) (st : loopState) :
  questions (loopBody idx m st)
  = map (resolveStep idx m (messageText m) (messageTime m)) (questions st)
    ++ (if shouldTrackQuestion m (messageText m)
        then [newQuestion idx m (messageTime m)] else []).
Proof.
  unfold loopBody. cbn [questions].
  destruct (shouldTrackQuestion m (messageText m)); [reflexivity|].
  now rewrite app_nil_r.
Qed.

Lemma resolveStep_cases (idx : Z) (m : Message) (text : string) (t : Time)
    (q : questionStatus) :
  resolveStep idx m text t q = q \/ resolveStep idx m text t q = markResolved m t q.
Proof.
  unfold resolveStep. break_ifs; auto.
Qed.

Lemma resolveStep_Index (idx : Z) (m : Message) (text : string) (t : Time)
    (q : questionStatus) :
  q_Index (resolveStep idx m text t q) = q_Index q.
Proof. destruct (resolveStep_cases idx m text t q) as [-> | ->]; reflexivity. Qed.

(** An entry that is resolved is left as it is. *)
Lemma resolveStep_resolved (idx : Z) (m : Message) (text : string) (t : Time)
    (q : questionStatus) :
  q_Resolved q = true -> resolveStep idx m text t q = q.
Proof. intros Hr. unfold resolveStep. now rewrite Hr. Qed.

(** An entry that no step changes stays where it is, as it is. *)
Lemma entry_persists (post : list Message) (idx : Z) (st : loopState) (k : nat)
    (q : questionStatus) :
  (forall i m text t, resolveStep i m text t q = q) ->
  questions st !! k = Some q ->
  questions (rangeMsgs idx post st) !! k = Some q.
Proof.
  intros Hfix. revert idx st.
  induction post as [|m post IH]; intros idx st Hk; simpl; [assumption|].
  apply IH. rewrite questions_loopBody.
  rewrite lookup_app_l.
  - rewrite list_lookup_fmap, Hk. simpl. now rewrite Hfix.
  - rewrite length_map. now apply lookup_lt_Some in Hk.
Qed.

Lemma trackedIndexes_rangeMsgs (msgs : list Message) (idx : Z) (st : loopState) :
  map q_Index (questions (rangeMsgs idx msgs st))
  = map q_Index (questions st) ++ trackedIndexes idx msgs.
Proof.
  revert idx st. induction msgs as [|m msgs IH]; intros idx st; simpl.
  - now rewrite app_nil_r.
  - rewrite IH, questions_loopBody, map_app, map_map, <- app_assoc.
    f_equal.
    + apply map_ext. intros q. apply resolveStep_Index.
    + destruct (shouldTrackQuestion m (messageText m)); reflexivity.
Qed.

(** ** Reply debt *)

Lemma debt_fold (ord : MapOrder) (lastT : Time) (qs : list questionStatus)
    (st : debtState) :
  rd_Outstanding (fold_left (debtStep ord lastT) qs st)
  = rd_Outstanding st
    ++ map (outstandingItem lastT) (List.filter (fun q => negb (q_Resolved q)) qs)
  /\ rd_Resolved (fold_left (debtStep ord lastT) qs st)
     = rd_Resolved st ++ map (resolvedItem ord) (List.filter q_Resolved qs).
Proof.
  revert st. induction qs as [|q qs IH]; intros st; simpl.
  - now rewrite !app_nil_r.
  - destruct (IH (debtStep ord lastT st q)) as [IHo IHr]. rewrite IHo, IHr.
    unfold debtStep. destruct (q_Resolved q); simpl.
    + split; [reflexivity | now rewrite <- app_assoc].
    + split; [now rewrite <- app_assoc | reflexivity].
Qed.

Lemma buildReplyDebt_lists (ord : MapOrder) (lastT : Time) (qs : list questionStatus) :
  Outstanding (buildReplyDebt ord qs lastT)
  = map (outstandingItem lastT) (List.filter (fun q => negb (q_Resolved q)) qs)
  /\ Resolved (buildReplyDebt ord qs lastT)
     = map (resolvedItem ord) (List.filter q_Resolved qs).
Proof.
  unfold buildReplyDebt. destruct qs as [|q qs]; [split; reflexivity|].
  cbn [length Nat.eqb Outstanding Resolved].
  destruct (debt_fold ord lastT (q :: qs) debtInit) as [Ho Hr].
  now rewrite Ho, Hr.
Qed.

Lemma filter_partition_length {A : Type} (p : A -> bool) (l : list A) :
  (length (List.filter (fun x => negb (p x)) l) + length (List.filter p l)
   = length l)%nat.
Proof.
  induction l as [|x l IH]; simpl; [reflexivity|].
  destruct (p x); simpl; lia.
Qed.

(** C6.  The ledger holds one entry for each message that opens a question,
    in the order of the messages.  The reply debt lists the items of the
    open entries under [Outstanding] and the items of the resolved entries
    under [Resolved], each in ledger order, so every entry is in exactly one
    of the two lists.  An entry that is resolved after a prefix of the input
    is the same entry, at the same place, after the whole input. *)
Theorem ledger_partition (ord : MapOrder) (pre post : list Message) :
  let st := rangeMsgs 0 (pre ++ post) loopInit in
  let rd := Summary_ReplyDebt (BuildSummary ord (pre ++ post)) in
  map q_Index (ledger (pre ++ post)) = trackedIndexes 0 (pre ++ post)
  /\ Outstanding rd
     = map (outstandingItem (lastTime st))
           (List.filter (fun q => negb (q_Resolved q)) (ledger (pre ++ post)))
  /\ Resolved rd = map (resolvedItem ord) (List.filter q_Resolved (ledger (pre ++ post)))
  /\ (length (Outstanding rd) + length (Resolved rd)
      = length (ledger (pre ++ post)))%nat
  /\ forall (k : nat) (q : questionStatus),
       ledger pre !! k = Some q -> q_Resolved q = true ->
       ledger (pre ++ post) !! k = Some q.
Proof.
  intros st rd.
  destruct (buildReplyDebt_lists ord (lastTime st) (questions st)) as [Ho Hr].
  assert (Hrd : rd = buildReplyDebt ord (questions st) (lastTime st)) by reflexivity.
  rewrite Hrd, Ho, Hr. unfold ledger. fold st.
  split; [|split; [reflexivity|split; [reflexivity|split]]].
  - unfold st. now rewrite trackedIndexes_rangeMsgs.
  - rewrite !length_map. apply filter_partition_length.
  - intros k q Hk Hres. unfold st. rewrite rangeMsgs_app.
    apply entry_persists; [|exact Hk].
    intros i m text t. now apply resolveStep_resolved.
Qed.

(** ** Matching a message with an open entry *)

Lemma matchesQuestionResponse_spec (m : Message) (q : questionStatus) (text : string) :
  q_NormalizedQuestioner q = normalizeName (senderDisplay (q_Message q)) ->
  matchesQuestionResponse m q text
  = differ (q_NormalizedQuestioner q) (identity m)
    && (repliesToQuestioner m q || quotesQuestion m q
        || mentionsQuestioner m q || mentionedByQuestion m q).
Proof.
  intros Hq. unfold matchesQuestionResponse.
  assert (Hquestioner :
    (if String.eqb (q_NormalizedQuestioner q) ""
     then normalizeName (senderDisplay (q_Message q))
     else q_NormalizedQuestioner q) = q_NormalizedQuestioner q).
  { destruct (String.eqb (q_NormalizedQuestioner q) ""); congruence. }
  rewrite Hquestioner.
  unfold differ, repliesToQuestioner, quotesQuestion, mentionsQuestioner,
    mentionedByQuestion, referenceMatches, identity.
  destruct (String.eqb (q_NormalizedQuestioner q) ""); [reflexivity|].
  destruct (String.eqb (normalizeName (senderDisplay m)) ""); [reflexivity|].
  destruct (String.eqb (normalizeName (senderDisplay m)) (q_NormalizedQuestioner q));
    [reflexivity|].
  cbn [negb andb orb].
  destruct (Msg_Reference m) as [ref|].
  - destruct (String.eqb (normalizeName (Ref_SenderName ref)) (q_NormalizedQuestioner q));
      [reflexivity|].
    cbn [orb].
    match goal with |- context [if ?b then true else _] => destruct b end;
      [reflexivity|].
    cbn [orb].
    destruct (existsb _ (Msg_Mentions m)); [reflexivity|]. cbn [orb].
    destruct (q_Mentions q); [reflexivity|].
    cbn [length Nat.ltb Nat.leb andb].
    match goal with |- context [if ?b then true else false] => destruct b end;
      reflexivity.
  - cbn [orb].
    destruct (existsb _ (Msg_Mentions m)); [reflexivity|]. cbn [orb].
    destruct (q_Mentions q); [reflexivity|].
    cbn [length Nat.ltb Nat.leb andb].
    match goal with |- context [if ?b then true else false] => destruct b end;
      reflexivity.
Qed.

Lemma resolveStep_spec (idx : Z) (m : Message) (q : questionStatus) :
  entryOk idx q -> q_Resolved q = false ->
  resolveStep idx m (messageText m) (messageTime m) q
  = if resolves m q then markResolved m (messageTime m) q else q.
Proof.
  intros (Hidx & Hname & _) Hopen. unfold resolveStep, resolves.
  rewrite Hopen, (matchesQuestionResponse_spec m q _ Hname).
  destruct (Z.leb_spec idx (q_Index q)) as [Hle|_]; [lia|].
  destruct (time.IsZero (messageTime m)); [reflexivity|].
  destruct (time.IsZero (q_AskedAt q)); cbn [negb andb orb]; [reflexivity|].
  destruct (time.Before (messageTime m) (q_AskedAt q)); reflexivity.
Qed.

Lemma resolveStep_entryOk (idx : Z) (m : Message) (text : string) (t : Time)
    (q : questionStatus) :
  entryOk idx q -> entryOk (idx + 1) (resolveStep idx m text t q).
Proof.
  intros (Hidx & Hname & Hopen).
  destruct (resolveStep_cases idx m text t q) as [-> | ->].
  - repeat split; try tauto; lia.
  - unfold entryOk. cbn [markResolved q_Index q_NormalizedQuestioner q_Message q_Resolved].
    repeat split; try assumption; try lia; discriminate.
Qed.

Lemma newQuestion_entryOk (idx : Z) (m : Message) (t : Time) :
  entryOk (idx + 1) (newQuestion idx m t).
Proof. unfold entryOk, newQuestion; cbn. repeat split; lia. Qed.

Lemma rangeMsgs_entryOk (msgs : list Message) (idx : Z) (st : loopState) :
  Forall (entryOk idx) (questions st) ->
  Forall (entryOk (idx + Z.of_nat (length msgs))) (questions (rangeMsgs idx msgs st)).
Proof.
  revert idx st. induction msgs as [|m msgs IH]; intros idx st Hok.
  - simpl. now rewrite Z.add_0_r.
  - cbn [rangeMsgs length].
    replace (idx + Z.of_nat (S (length msgs))) with (idx + 1 + Z.of_nat (length msgs)) by lia.
    apply IH. rewrite questions_loopBody. apply Forall_app. split.
    + apply List.Forall_map. eapply List.Forall_impl; [|exact Hok].
      intros q. apply resolveStep_entryOk.
    + destruct (shouldTrackQuestion m (messageText m)); [|constructor].
      constructor; [apply newQuestion_entryOk | constructor].
Qed.

Lemma ledger_entryOk (msgs : list Message) :
  Forall (entryOk (Z.of_nat (length msgs))) (ledger msgs).
Proof. apply (rangeMsgs_entryOk msgs 0 loopInit). constructor. Qed.

Lemma ledger_snoc (pre : list Message) (m : Message) :
  ledger (pre ++ [m])
  = map (resolveStep (Z.of_nat (length pre)) m (messageText m) (messageTime m)) (ledger pre)
    ++ (if shouldTrackQuestion m (messageText m)
        then [newQuestion (Z.of_nat (length pre)) m (messageTime m)] else []).
Proof. unfold ledger. rewrite rangeMsgs_app. cbn [rangeMsgs]. apply questions_loopBody. Qed.

Lemma differ_nonempty (a b : string) : differ a b = true -> b <> "".
Proof.
  unfold differ. intros Hd ->. rewrite String.eqb_refl in Hd.
  now rewrite andb_false_r in Hd.
Qed.

(** C1 (as amended).  While message number [length pre] is processed, every
    open entry of the ledger has a smaller origin index, and the message
    resolves it exactly when [resolves] holds: the time of the message is
    known and, when the asked-at time is known too, not earlier than it; the
    two normalized identities are known and differ; and one of (a) to (d)
    holds, (b) on the contents with the surrounding white space removed.
    The entry is then marked resolved; its latency is the difference of the
    two times in minutes when the asked-at time is known and earlier, and 0
    otherwise; its response hour is the hour of the message; its responders
    are the display name of the sender under its normalized identity. *)
Theorem resolution_step (pre : list Message) (m : Message) (k : nat)
    (q : questionStatus) :
  ledger pre !! k = Some q ->
  q_Resolved q = false ->
  let t := messageTime m in
  let q' := markResolved m t q in
  q_Index q < Z.of_nat (length pre)
  /\ ledger (pre ++ [m]) !! k = Some (if resolves m q then q' else q)
  /\ (resolves m q = true ->
      q_Resolved q' = true
      /\ q_ResponseMinutes q'
         = (if negb (time.IsZero (q_AskedAt q)) && time.After t (q_AskedAt q)
            then time.Minutes (time.Sub t (q_AskedAt q)) else 0%Q)
      /\ q_ResponseHour q' = time.Hour t
      /\ 0 <= q_ResponseHour q' < 24
      /\ q_Responders q' = {[ identity m := senderDisplay m ]}).
Proof.
  intros Hk Hopen t q'.
  assert (Hok : entryOk (Z.of_nat (length pre)) q).
  { pose proof (ledger_entryOk pre) as Hall.
    rewrite Forall_forall in Hall. apply Hall.
    apply list_elem_of_lookup. eauto. }
  split; [apply Hok|]. split.
  - rewrite ledger_snoc, lookup_app_l.
    + rewrite list_lookup_fmap, Hk. cbn. f_equal. now apply resolveStep_spec.
    + rewrite length_map. now apply lookup_lt_Some in Hk.
  - intros Hres. unfold resolves in Hres.
    apply andb_prop in Hres as [Hres _]. apply andb_prop in Hres as [Hres Hdiff].
    apply andb_prop in Hres as [Hknown _]. apply negb_true_iff in Hknown.
    destruct Hok as (_ & _ & Hpristine).
    destruct (Hpristine Hopen) as (Hmin & _ & Hresp).
    subst q' t. unfold markResolved.
    cbn [q_Resolved q_ResponseMinutes q_ResponseHour q_Responders].
    rewrite Hknown, Hmin, Hresp. cbn [negb andb].
    split; [reflexivity|]. split; [reflexivity|]. split; [reflexivity|].
    split; [apply Hour_range|].
    apply differ_nonempty in Hdiff.
    destruct (String.eqb_spec (senderDisplay m) "") as [Hblank|_].
    + exfalso. apply Hdiff. unfold identity. now rewrite Hblank.
    + cbn [negb]. apply insert_empty.
Qed.

(** ** Questions asked under a blank sender name *)

Lemma blank_questioner_never_matches (idx : Z) (m : Message) (t : Time)
    (m' : Message) (text : string) :
  senderDisplay m = "" -> matchesQuestionResponse m' (newQuestion idx m t) text = false.
Proof.
  intros Hblank. unfold matchesQuestionResponse, newQuestion.
  cbn [q_NormalizedQuestioner q_Message]. rewrite Hblank. reflexivity.
Qed.

(** C10.  A message that satisfies the tracking conditions and whose sender
    display name is blank opens a ledger entry.  The normalized questioner
    identity of this entry is empty, no message matches it as a response, the
    entry is in the final ledger as it was opened, unresolved, and its item
    is in [Outstanding]. *)
Theorem blank_sender_question_stays_open (ord : MapOrder) (pre post : list Message)
    (m : Message) :
  shouldTrackQuestion m (messageText m) = true ->
  senderDisplay m = "" ->
  let q := newQuestion (Z.of_nat (length pre)) m (messageTime m) in
  let st := rangeMsgs 0 (pre ++ m :: post) loopInit in
  q_NormalizedQuestioner q = ""
  /\ (forall (m' : Message) (text : string), matchesQuestionResponse m' q text = false)
  /\ ledger (pre ++ m :: post) !! length (ledger pre) = Some q
  /\ q_Resolved q = false
  /\ In (outstandingItem (lastTime st) q)
        (Outstanding (Summary_ReplyDebt (BuildSummary ord (pre ++ m :: post)))).
Proof.
  intros Htrack Hblank q st.
  assert (Hnever : forall m' text, matchesQuestionResponse m' q text = false).
  { intros m' text. now apply blank_questioner_never_matches. }
  assert (Hin : ledger (pre ++ m :: post) !! length (ledger pre) = Some q).
  { unfold ledger. rewrite rangeMsgs_app. cbn [rangeMsgs].
    apply entry_persists.
    - intros i m' text t. unfold resolveStep. rewrite Hnever.
      break_ifs; reflexivity.
    - rewrite questions_loopBody, Htrack, lookup_app_r by now rewrite length_map.
      rewrite length_map, Nat.sub_diag. reflexivity. }
  split; [cbn; now rewrite Hblank|]. split; [exact Hnever|].
  split; [exact Hin|]. split; [reflexivity|].
  change (Summary_ReplyDebt (BuildSummary ord (pre ++ m :: post)))
    with (buildReplyDebt ord (questions st) (lastTime st)).
  destruct (buildReplyDebt_lists ord (lastTime st) (questions st)) as [-> _].
  apply in_map, filter_In. split; [|reflexivity].
  apply list_elem_of_In, list_elem_of_lookup. eexists. exact Hin.
Qed.

(** ** Sentiment signals *)

Lemma contains_empty_text (token : string) :
  token <> "" -> strings_Contains "" token = false.
Proof. destruct token; [congruence | reflexivity]. Qed.

Lemma lexiconHit_empty (lexicon : list string) : lexiconHit lexicon "" = false.
Proof.
  unfold lexiconHit. induction lexicon as [|token lexicon IH]; [reflexivity|].
  cbn [existsb]. rewrite IH, strings_ToLower_empty.
  destruct (String.eqb_spec token "") as [->|Hne]; [reflexivity|].
  now rewrite contains_empty_text.
Qed.

Lemma fl_half (k : Z) :
  (Z.abs k < 2 ^ 53)%Z -> fl (inject_Z k * 0.5) == inject_Z k * 0.5.
Proof.
  intros Hk. assert (Hpow : 2 ^ (-1) == 0.5) by reflexivity.
  rewrite (fl_proper (inject_Z k * 0.5) (inject_Z k * 2 ^ (-1)))
    by (rewrite Hpow; reflexivity).
  rewrite (fl_exact k (-1) Hk), Hpow. reflexivity.
Qed.

Lemma lexiconLoop_spec (lexicon : list string) (text : string) (acc : Q) :
  lexiconLoop lexicon text (strings_ToLower text) acc
  = if lexiconHit lexicon text then (acc ⊕ 1)%float else acc.
Proof.
  unfold lexiconHit. induction lexicon as [|token lexicon IH]; cbn [lexiconLoop existsb].
  - reflexivity.
  - destruct (String.eqb token ""); cbn [negb andb orb]; [exact IH|].
    destruct (strings_Contains text token || strings_Contains (strings_ToLower text) token);
      cbn [orb]; [reflexivity | exact IH].
Qed.

(** The signal of the lexicon is 0 or 1, that is 0 or 2 halves. *)
Lemma lexiconLoop_zero (lexicon : list string) (text : string) :
  let k := if lexiconHit lexicon text then 2%Z else 0%Z in
  lexiconLoop lexicon text (strings_ToLower text) 0 == inject_Z k * 0.5
  /\ lexiconLoop lexicon text (strings_ToLower text) 0
     == (if lexiconHit lexicon text then 1 else 0).
Proof.
  rewrite lexiconLoop_spec. destruct (lexiconHit lexicon text); cbn zeta.
  - unfold fadd. rewrite (fl_proper (0 + 1) (inject_Z 2 * 0.5)) by reflexivity.
    rewrite fl_half by (cbn; lia). split; reflexivity.
  - split; reflexivity.
Qed.

Lemma emojiCount_cons (set : gset string) (e : string) (emojis : list string) :
  emojiCount set (e :: emojis)
  = ((if negb (String.eqb (strings_TrimSpace e) "") && has set (strings_TrimSpace e)
      then 1 else 0) + emojiCount set emojis)%Z.
Proof.
  unfold emojiCount, countIf. cbn [List.filter].
  destruct (negb (String.eqb (strings_TrimSpace e) "") && has set (strings_TrimSpace e));
    cbn [length]; lia.
Qed.

(** One more half on an accumulator that holds [k] halves. *)
Lemma add_half (p : Q) (k : Z) :
  (0 <= k < 2 ^ 53 - 1)%Z -> p == inject_Z k * 0.5 ->
  (p ⊕ 0.5)%float == inject_Z (k + 1) * 0.5
  /\ (p ⊕ 0.5)%float == p + 0.5.
Proof.
  intros Hk Hp. unfold fadd.
  rewrite (fl_proper (p + 0.5) (inject_Z (k + 1) * 0.5))
    by (rewrite Hp, inject_Z_plus; ring).
  rewrite fl_half by lia. split; [reflexivity|].
  rewrite Hp, inject_Z_plus. ring.
Qed.

Lemma emojiLoop_spec (emojis : list string) (p n : Q) (kp kn : Z) :
  p == inject_Z kp * 0.5 -> n == inject_Z kn * 0.5 ->
  (0 <= kp)%Z -> (0 <= kn)%Z ->
  (kp + Z.of_nat (length emojis) < 2 ^ 53 - 1)%Z ->
  (kn + Z.of_nat (length emojis) < 2 ^ 53 - 1)%Z ->
  fst (fold_left emojiStep emojis (p, n))
  == p + 0.5 * inject_Z (emojiCount positiveEmojiSet emojis)
  /\ snd (fold_left emojiStep emojis (p, n))
     == n + 0.5 * inject_Z (emojiCount negativeEmojiSet emojis).
Proof.
  revert p n kp kn. induction emojis as [|e emojis IH];
    intros p n kp kn Hp Hn Hkp Hkn Hbp Hbn.
  - unfold emojiCount, countIf; cbn. split; ring.
  - cbn [fold_left]. rewrite !emojiCount_cons, !inject_Z_plus.
    cbn [length] in Hbp, Hbn. rewrite Nat2Z.inj_succ in Hbp, Hbn.
    unfold emojiStep. cbn [fst snd].
    destruct (String.eqb (strings_TrimSpace e) ""); cbn [negb andb].
    + destruct (IH p n kp kn) as [IHp IHn]; try assumption; try lia.
      rewrite IHp, IHn. split; ring.
    + destruct (add_half p kp ltac:(lia) Hp) as [Hp1 Hp2].
      destruct (add_half n kn ltac:(lia) Hn) as [Hn1 Hn2].
      destruct (has positiveEmojiSet (strings_TrimSpace e)),
        (has negativeEmojiSet (strings_TrimSpace e)).
      * destruct (IH (p ⊕ 0.5)%float (n ⊕ 0.5)%float (kp + 1)%Z (kn + 1)%Z)
          as [IHp IHn]; try assumption; try lia.
        rewrite IHp, IHn, Hp2, Hn2. split; ring.
      * destruct (IH (p ⊕ 0.5)%float n (kp + 1)%Z kn)
          as [IHp IHn]; try assumption; try lia.
        rewrite IHp, IHn, Hp2. split; ring.
      * destruct (IH p (n ⊕ 0.5)%float kp (kn + 1)%Z)
          as [IHp IHn]; try assumption; try lia.
        rewrite IHp, IHn, Hn2. split; ring.
      * destruct (IH p n kp kn) as [IHp IHn]; try assumption; try lia.
        rewrite IHp, IHn. split; ring.
Qed.

(** C9.  The positive signal of a message is 1 when some term of the
    positive lexicon occurs in the text or in its lower-case form and 0
    otherwise, however many terms occur, plus one half for each emoji token
    that is in the positive emoji set; the negative signal is the same with
    the negative lexicon and the negative emoji set.  (An emoji token is
    looked up with the white space around it removed.  The sums are exact
    in [float64] for any number of emoji tokens a message can hold.) *)
Theorem sentimentSignals_spec (text : string) (emojis : list string) :
  (Z.of_nat (length emojis) < 2 ^ 52)%Z ->
  fst (sentimentSignals text emojis)
  == (if lexiconHit positiveLexicons text then 1 else 0)
     + 0.5 * inject_Z (emojiCount positiveEmojiSet emojis)
  /\ snd (sentimentSignals text emojis)
     == (if lexiconHit negativeLexicons text then 1 else 0)
        + 0.5 * inject_Z (emojiCount negativeEmojiSet emojis).
Proof.
  intros Hlen. unfold sentimentSignals.
  destruct (String.eqb text "" && (length emojis =? 0)%nat) eqn:Hempty.
  - apply andb_prop in Hempty as [Htext Hnone].
    apply String.eqb_eq in Htext. apply Nat.eqb_eq in Hnone.
    destruct emojis; [|discriminate Hnone]. subst text.
    cbn [fst snd]. rewrite !lexiconHit_empty.
    unfold emojiCount, countIf; cbn. split; reflexivity.
  - destruct (lexiconLoop_zero positiveLexicons text) as [Hp Hp'].
    destruct (lexiconLoop_zero negativeLexicons text) as [Hn Hn'].
    destruct (emojiLoop_spec emojis _ _ _ _ Hp Hn) as [Hpos Hneg].
    + destruct (lexiconHit positiveLexicons text); lia.
    + destruct (lexiconHit negativeLexicons text); lia.
    + destruct (lexiconHit positiveLexicons text); lia.
    + destruct (lexiconHit negativeLexicons text); lia.
    + rewrite Hpos, Hneg, Hp', Hn'. split; reflexivity.
Qed.

(** ** Sorting and the top entries of a map *)

Lemma sinkLeft_perm {A : Type} (less : A -> A -> bool) (x : A) (l : list A) :
  Permutation (sinkLeft less x l) (x :: l).
Proof.
  induction l as [|p l IH]; cbn [sinkLeft]; [reflexivity|].
  destruct (less x p); [|reflexivity].
  rewrite IH. apply perm_swap.
Qed.

Lemma sort_Slice_perm {A : Type} (less : A -> A -> bool) (arr : list A) :
  Permutation (sort_Slice less arr) arr.
Proof.
  unfold sort_Slice. rewrite <- Permutation_rev.
  assert (Hgen : forall acc,
    Permutation (fold_left (fun revPrefix x => sinkLeft less x revPrefix) arr acc)
                (arr ++ acc)).
  { induction arr as [|x arr IH]; intros acc; cbn [fold_left]; [reflexivity|].
    rewrite IH, sinkLeft_perm. cbn. symmetry. apply Permutation_middle. }
  rewrite Hgen. now rewrite app_nil_r.
Qed.

Lemma entries_keys_NoDup (ord : MapOrder) (m : gmap string Z) :
  NoDup (map Key (entries ord m)).
Proof.
  unfold entries.
  assert (Hperm :
    Permutation
      (map Key (rangeOrder ord
                  (map (fun e => {| Key := fst e; Count := snd e |}) (map_to_list m))))
      (map fst (map_to_list m))).
  { rewrite <- (map_map (fun e => {| Key := fst e; Count := snd e |}) Key).
    apply Permutation_map, rangeOrder_perm. }
  rewrite Hperm. apply (NoDup_fst_map_to_list m).
Qed.

Lemma entries_empty (ord : MapOrder) : entries ord ∅ = [].
Proof.
  unfold entries. rewrite map_to_list_empty. cbn [map].
  apply Permutation_nil. symmetry. apply rangeOrder_perm.
Qed.

Lemma elem_of_map_take {A B : Type} (f : A -> B) (k : nat) (l : list A) (y : B) :
  y ∈ map f (take k l) -> y ∈ map f l.
Proof.
  revert k. induction l as [|x l IH]; intros [|k]; cbn; intros Hy;
    try (now apply not_elem_of_nil in Hy).
  apply elem_of_cons in Hy as [->|Hy]; [left | right; eauto].
Qed.

Lemma NoDup_map_take {A B : Type} (f : A -> B) (k : nat) (l : list A) :
  NoDup (map f l) -> NoDup (map f (take k l)).
Proof.
  revert k. induction l as [|x l IH]; intros [|k]; cbn; intros Hnd;
    try apply NoDup_nil_2.
  apply NoDup_cons in Hnd as [Hnotin Hnd]. apply NoDup_cons. split; [|now apply IH].
  intros Hin. apply Hnotin. eapply elem_of_map_take, Hin.
Qed.

Lemma topKKeys_NoDup (ord : MapOrder) (m : gmap string Z) (k : nat) :
  NoDup (topKKeys ord m k).
Proof.
  unfold topKKeys. apply NoDup_map_take.
  assert (Hperm : Permutation (map Key (sort_Slice lessCount (entries ord m)))
                              (map Key (entries ord m)))
    by apply Permutation_map, sort_Slice_perm.
  rewrite Hperm. apply entries_keys_NoDup.
Qed.

(** ** Links *)

Lemma lookup_incr (u v : string) (m : gmap string Z) :
  default 0 (incr v m !! u)
  = default 0 (m !! u) + (if String.eqb u v then 1 else 0).
Proof.
  unfold incr. destruct (String.eqb_spec u v) as [->|Hne].
  - now rewrite lookup_insert_eq.
  - rewrite lookup_insert_ne by congruence. lia.
Qed.

Lemma lookup_incr_all (links : list string) (u : string) (m : gmap string Z) :
  default 0 (fold_left (fun counts v => incr v counts) links m !! u)
  = default 0 (m !! u) + countIf (String.eqb u) links.
Proof.
  revert m. induction links as [|v links IH]; intros m; cbn [fold_left].
  - unfold countIf; cbn. lia.
  - rewrite IH, lookup_incr. unfold countIf. cbn [List.filter].
    destruct (String.eqb u v); cbn [length]; lia.
Qed.

Lemma uniqueURLs_spec (urls : list string) (seen : gset string) (unique : list string) :
  NoDup unique -> (forall x, x ∈ seen <-> In x unique) ->
  NoDup (uniqueURLs urls seen unique)
  /\ forall x, In x (uniqueURLs urls seen unique) <-> In x unique \/ In x urls.
Proof.
  revert seen unique. induction urls as [|u urls IH]; intros seen unique Hnd Hseen;
    cbn [uniqueURLs].
  - split; [assumption|]. intros x. cbn. tauto.
  - unfold has. destruct (bool_decide_reflect (u ∈ seen)) as [Hin|Hnotin].
    + destruct (IH seen unique Hnd Hseen) as [IHnd IHin]. split; [assumption|].
      intros x. rewrite IHin. cbn. apply Hseen in Hin.
      split; [tauto|]. intros [Hx|[<-|Hx]]; tauto.
    + destruct (IH ({[u]} ∪ seen) (unique ++ [u])) as [IHnd IHin].
      * apply NoDup_app. split; [assumption|]. split.
        -- intros x Hx Hxu. apply list_elem_of_singleton in Hxu. subst x.
           apply Hnotin, Hseen. now apply list_elem_of_In.
        -- apply NoDup_singleton.
      * intros x. rewrite elem_of_union, elem_of_singleton, in_app_iff, Hseen.
        cbn. split; intros [Hx|Hx]; auto. destruct Hx as [Hx|[]]; auto.
      * split; [assumption|]. intros x. rewrite IHin, in_app_iff. cbn. tauto.
Qed.

Lemma extractURLs_spec (s : string) :
  NoDup (extractURLs s) /\ forall u, In u (extractURLs s) <-> In u (urlParts s).
Proof.
  unfold extractURLs. destruct (urlParts s) as [|u urls] eqn:Hparts.
  - cbn. split; [constructor | tauto].
  - cbn [length Nat.eqb].
    destruct (uniqueURLs_spec (u :: urls) ∅ []) as [Hnd Hin].
    + constructor.
    + intros x. cbn. split; [intros Hx; now apply not_elem_of_empty in Hx | tauto].
    + split; [assumption|]. intros x. rewrite Hin. cbn. tauto.
Qed.

Lemma countIf_NoDup (u : string) (l : list string) :
  NoDup l -> 0 <= countIf (String.eqb u) l <= 1.
Proof.
  unfold countIf. induction 1 as [|v l Hnotin Hnd IH]; cbn [List.filter length]; [lia|].
  destruct (String.eqb_spec u v) as [->|Hne]; [|exact IH].
  cbn [length].
  assert (Hnil : List.filter (String.eqb v) l = []).
  { destruct (List.filter (String.eqb v) l) as [|w rest] eqn:Hf; [reflexivity|].
    exfalso. assert (Hw : In w (List.filter (String.eqb v) l)) by (rewrite Hf; now left).
    apply filter_In in Hw as [Hw Heq]. apply String.eqb_eq in Heq. subst w.
    apply Hnotin. now apply list_elem_of_In. }
  rewrite Hnil. cbn. lia.
Qed.

(** C7 (as amended).  The URLs extracted from a text are without
    duplicates: a URL is among them when some part of the text yields it,
    however many parts do.  So a message raises the frequency of a URL by
    one when its text holds the URL, once or several times, by one more when
    its share payload carries the same URL, and by nothing otherwise; and
    [TopLinks] lists no URL twice. *)
Theorem link_counted_once (ord : MapOrder) (msgs : list Message) (idx : Z)
    (m : Message) (st : loopState) (u : string) :
  let urls := extractURLs (messageText m) in
  NoDup urls
  /\ (In u urls <-> In u (urlParts (messageText m)))
  /\ 0 <= countIf (String.eqb u) urls <= 1
  /\ default 0 (linkCount (loopBody idx m st) !! u)
     = default 0 (linkCount st !! u) + countIf (String.eqb u) urls + shareCount m u
  /\ NoDup (TopLinks (BuildSummary ord msgs)).
Proof.
  intros urls. destruct (extractURLs_spec (messageText m)) as [Hnd Hin].
  split; [exact Hnd|]. split; [apply Hin|]. split; [now apply countIf_NoDup|]. split.
  - unfold loopBody. cbn [linkCount]. rewrite lookup_incr_all.
    unfold foundLinks, shareCount, countIf. fold urls.
    rewrite List.filter_app, length_app, Nat2Z.inj_add, Z.add_assoc. f_equal.
    destruct (Msg_Share m) as [share|]; [|reflexivity].
    destruct (String.eqb (Share_URL share) ""); cbn [negb andb]; [reflexivity|].
    cbn [List.filter]. destruct (String.eqb u (Share_URL share)); reflexivity.
  - apply topKKeys_NoDup.
Qed.

(** ** The empty input *)

(** C8 (as amended).  On the empty input the summary has zero counts, no
    top senders, links, keywords or topics, 24 empty buckets, peak hour 0,
    the zero [GroupVibes] and [ReplyDebt], and exactly one highlight: the
    headline, formatted with the zero counts. *)
Theorem empty_summary (ord : MapOrder) :
  BuildSummary ord []
  = {| TotalMessages := 0;
       UniqueSenders := 0;
       TopSenders := [];
       TopLinks := [];
       HourlyHistogram := replicate 24 0;
       Keywords := [];
       PeakHour := 0;
       Highlights :=
         [sprintf fmtHeadline [ArgInt 0; ArgInt 0; ArgInt 0; ArgInt 0]];
       Topics := [];
       ImageCount := 0;
       Summary_GroupVibes := zeroGroupVibes;
       Summary_ReplyDebt := zeroReplyDebt |}.
Proof.
  unfold BuildSummary, topK, topKKeys. cbn [rangeMsgs loopInit senderCount linkCount
    tokenCount histogram imageCount messagesText analytics questions lastTime].
  rewrite !entries_empty. reflexivity.
Qed.

(** ** Topics *)

Lemma lookup_map {A B : Type} (f : A -> B) (l : list A) (i : nat) :
  map f l !! i = option_map f (l !! i).
Proof.
  revert i. induction l as [|x l IH]; intros [|i]; cbn; try reflexivity. apply IH.
Qed.

Lemma messagesText_rangeMsgs (msgs : list Message) (idx : Z) (st : loopState) :
  messagesText (rangeMsgs idx msgs st) = messagesText st ++ textsOf msgs.
Proof.
  revert idx st. induction msgs as [|m msgs IH]; intros idx st; cbn [rangeMsgs].
  - unfold textsOf. cbn. now rewrite app_nil_r.
  - rewrite IH. unfold loopBody, textsOf. cbn [messagesText map List.filter].
    destruct (String.eqb (messageText m) ""); cbn [negb]; [reflexivity|].
    now rewrite <- app_assoc.
Qed.

Lemma matchingIdxs_length (texts : list string) (tk : string) :
  Z.of_nat (length (matchingIdxs texts tk)) = textsContaining texts tk.
Proof.
  unfold matchingIdxs, textsContaining, countIf. f_equal.
  induction texts as [|text texts IH] using rev_ind; [reflexivity|].
  rewrite length_app, Nat.add_1_r, seq_S, !List.filter_app, !length_app.
  cbn [List.filter Nat.add]. rewrite list_lookup_total_middle by reflexivity.
  f_equal.
  - rewrite <- IH. f_equal. apply filter_ext_in. intros i Hi.
    apply in_seq in Hi. rewrite lookup_total_app_l by lia. reflexivity.
  - destruct (strings_Contains text tk); reflexivity.
Qed.

Lemma unrelated_snoc (names : list string) (tk : string) :
  unrelated names ->
  (forall k, In k names ->
             strings_Contains k tk = false /\ strings_Contains tk k = false) ->
  unrelated (names ++ [tk]).
Proof.
  intros Hold Hnew i j a b Hi Hj Hij.
  apply lookup_app_Some in Hi as [Hi|[Hilen Hi]];
    apply lookup_app_Some in Hj as [Hj|[Hjlen Hj]].
  - eapply Hold; eauto.
  - apply list_lookup_singleton_Some in Hj as [_ <-].
    apply Hnew, list_elem_of_In, list_elem_of_lookup. eauto.
  - apply list_lookup_singleton_Some in Hi as [_ <-].
    apply Hnew, list_elem_of_In, list_elem_of_lookup. eauto.
  - apply list_lookup_singleton_Some in Hi as [Hi0 _].
    apply list_lookup_singleton_Some in Hj as [Hj0 _]. lia.
Qed.

Lemma topicLoop_ok (texts : list string) (topTokens : list string)
    (topics : list Topic) (used : gset string) :
  topicsOk texts topics used ->
  exists used', topicsOk texts (topicLoop texts topTokens topics used) used'.
Proof.
  revert topics used. induction topTokens as [|tk rest IH]; intros topics used Hok;
    cbn [topicLoop]; [eauto|].
  destruct (5 <=? length topics)%nat eqn:Hfull; [eauto|].
  apply Nat.leb_gt in Hfull.
  destruct (length (matchingIdxs texts tk) <? 3)%nat eqn:Hweak; [eauto|].
  apply Nat.ltb_ge in Hweak.
  destruct (existsb _ (elements used)) eqn:Hskip; [eauto|].
  apply IH. destruct Hok as (Hlen & Hused & Hcount & Hunrel).
  split; [rewrite length_app; cbn; lia|]. split; [|split].
  - intros k. rewrite elem_of_union, elem_of_singleton, map_app, in_app_iff, Hused.
    cbn. split; intros [Hk|Hk]; auto. destruct Hk as [Hk|[]]; auto.
  - apply Forall_app. split; [assumption|]. constructor; [|constructor].
    cbn [Topic_Count Topic_Name]. rewrite <- matchingIdxs_length. split; lia.
  - rewrite map_app. cbn [map Topic_Name]. apply unrelated_snoc; [assumption|].
    intros k Hk. apply Hused in Hk.
    assert (Hnone : strings_Contains k tk || strings_Contains tk k = false).
    { destruct (strings_Contains k tk || strings_Contains tk k) eqn:Hrel; [|reflexivity].
      rewrite <- Hskip. symmetry. apply existsb_exists. exists k.
      split; [|exact Hrel]. now apply list_elem_of_In, elem_of_elements. }
    now apply orb_false_elim in Hnone.
Qed.

(** C5.  The summary has at most 5 topics; the count of a topic is the
    number of message texts that contain its name as a substring, and it is
    at least 3; no topic name is a substring of the name of another topic. *)
Theorem topics_spec (ord : MapOrder) (msgs : list Message) :
  let topics := Topics (BuildSummary ord msgs) in
  (length topics <= 5)%nat
  /\ Forall (fun t => 3 <= Topic_Count t
                      /\ Topic_Count t = textsContaining (textsOf msgs) (Topic_Name t))
            topics
  /\ forall (i j : nat) (ti tj : Topic),
       topics !! i = Some ti -> topics !! j = Some tj -> i <> j ->
       strings_Contains (Topic_Name ti) (Topic_Name tj) = false.
Proof.
  intros topics. subst topics. unfold BuildSummary. cbn [Topics].
  rewrite messagesText_rangeMsgs. cbn [messagesText loopInit app].
  destruct (topicLoop_ok (textsOf msgs)
              (map Key (topK ord (tokenCount (rangeMsgs 0 msgs loopInit)) 20)) [] ∅)
    as (used' & Hlen & _ & Hcount & Hunrel).
  { split; [cbn; lia|]. split; [|split].
    - intros k. cbn. split; [intros Hk; now apply not_elem_of_empty in Hk | tauto].
    - constructor.
    - intros i j a b Hi. cbn in Hi. discriminate Hi. }
  split; [exact Hlen|]. split; [exact Hcount|].
  intros i j ti tj Hi Hj Hij. apply (Hunrel i j); [| |exact Hij].
  - rewrite lookup_map, Hi. reflexivity.
  - rewrite lookup_map, Hj. reflexivity.
Qed.

(** ** The order of the top entries *)

Lemma ltb_asym (a b : string) : String.ltb a b = true -> String.ltb b a = false.
Proof.
  unfold String.ltb. rewrite (String.compare_antisym a b).
  destruct (String.compare b a); cbn; congruence.
Qed.

Lemma ltb_total (a b : string) :
  String.ltb a b = false -> String.ltb b a = false -> a = b.
Proof.
  unfold String.ltb. intros Hab Hba. apply String.compare_eq_iff.
  rewrite (String.compare_antisym a b) in *.
  destruct (String.compare b a); cbn in *; congruence.
Qed.

Lemma ascii_compare_lt_trans (a b c : ascii) :
  Ascii.compare a b = Lt -> Ascii.compare b c = Lt -> Ascii.compare a c = Lt.
Proof.
  unfold Ascii.compare. rewrite !N.compare_lt_iff. lia.
Qed.

Lemma compare_lt_trans (a b c : string) :
  String.compare a b = Lt -> String.compare b c = Lt -> String.compare a c = Lt.
Proof.
  revert b c. induction a as [|x a IH]; intros [|y b] [|z c]; cbn; try congruence.
  destruct (Ascii.compare x y) eqn:Hxy; try congruence.
  - apply Ascii.compare_eq_iff in Hxy. subst y.
    destruct (Ascii.compare x z); try congruence. apply IH.
  - intros _. destruct (Ascii.compare y z) eqn:Hyz; try congruence.
    + apply Ascii.compare_eq_iff in Hyz. subst z. now rewrite Hxy.
    + intros _. now rewrite (ascii_compare_lt_trans x y z).
Qed.

Lemma ltb_trans (a b c : string) :
  String.ltb a b = true -> String.ltb b c = true -> String.ltb a c = true.
Proof.
  unfold String.ltb. intros Hab Hbc.
  destruct (String.compare a b) eqn:Eab; try discriminate.
  destruct (String.compare b c) eqn:Ebc; try discriminate.
  now rewrite (compare_lt_trans a b c).
Qed.

Lemma ltb_irrefl (a : string) : String.ltb a a = false.
Proof.
  destruct (String.ltb a a) eqn:E; [|reflexivity]. now rewrite (ltb_asym a a E) in E.
Qed.

Lemma ltb_negtrans (a b c : string) :
  String.ltb a b = false -> String.ltb b c = false -> String.ltb a c = false.
Proof.
  intros Hab Hbc. destruct (String.ltb a c) eqn:Hac; [|reflexivity].
  destruct (String.ltb b a) eqn:Hba.
  - destruct (String.ltb c b) eqn:Hcb.
    + rewrite (ltb_asym c a) in Hac; [discriminate|]. eapply ltb_trans; eauto.
    + rewrite (ltb_total b c Hbc Hcb) in Hab. congruence.
  - rewrite (ltb_total a b Hab Hba) in Hac. congruence.
Qed.

Lemma strictWeak_ltb : strictWeak String.ltb.
Proof. split; [apply ltb_asym | apply ltb_negtrans]. Qed.

Lemma lessCountThenKey_true (a b : KV) :
  lessCountThenKey a b = true <-> outranks a b.
Proof.
  unfold lessCountThenKey, outranks.
  destruct (Z.eqb_spec (Count a) (Count b)) as [Heq|Hne].
  - split; [intros Hlt; right; now split|]. intros [Hlt|[_ Hlt]]; [lia | exact Hlt].
  - rewrite Z.ltb_lt. split; [now left|]. intros [Hlt|[Heq _]]; [exact Hlt | contradiction].
Qed.

Lemma strictWeak_lessCountThenKey : strictWeak lessCountThenKey.
Proof.
  split.
  - intros a b Hab. unfold lessCountThenKey in *.
    destruct (Z.eqb_spec (Count a) (Count b)) as [Heq|Hne].
    + rewrite Heq, Z.eqb_refl. now apply ltb_asym.
    + apply Z.ltb_lt in Hab. destruct (Z.eqb_spec (Count b) (Count a)); [lia|].
      apply Z.ltb_ge. lia.
  - intros a b c Hab Hbc. unfold lessCountThenKey in *.
    destruct (Z.eqb_spec (Count a) (Count b)) as [Eab|Nab];
      destruct (Z.eqb_spec (Count b) (Count c)) as [Ebc|Nbc];
      destruct (Z.eqb_spec (Count a) (Count c)) as [Eac|Nac];
      rewrite ?Z.ltb_ge in *; try lia.
    eapply ltb_negtrans; eauto.
Qed.

Lemma lessCountThenKey_total (a b : KV) :
  lessCountThenKey a b = false -> lessCountThenKey b a = false -> a = b.
Proof.
  unfold lessCountThenKey. destruct a as [ka ca], b as [kb cb]. cbn.
  destruct (Z.eqb_spec ca cb) as [Heq|Hne].
  - subst cb. rewrite Z.eqb_refl. intros Hab Hba. f_equal. now apply ltb_total.
  - destruct (Z.eqb_spec cb ca); [congruence|]. rewrite !Z.ltb_ge. lia.
Qed.

Lemma strictWeak_lessCount : strictWeak lessCount.
Proof.
  unfold lessCount. split.
  - intros a b. rewrite Z.ltb_lt, Z.ltb_ge. lia.
  - intros a b c. rewrite !Z.ltb_ge. lia.
Qed.

Lemma sinkLeft_sorted {A : Type} (less : A -> A -> bool) (x : A) (l : list A) :
  strictWeak less ->
  StronglySorted (fun a b => less a b = false) l ->
  StronglySorted (fun a b => less a b = false) (sinkLeft less x l).
Proof.
  intros [Hasym Hneg] Hl. induction Hl as [|p l Hl IH Hp]; cbn [sinkLeft].
  - repeat constructor.
  - destruct (less x p) eqn:Hxp.
    + constructor; [exact IH|].
      apply List.Forall_forall. intros y Hy.
      apply (Permutation_in _ (sinkLeft_perm less x l)) in Hy. destruct Hy as [<-|Hy].
      * now apply Hasym.
      * revert y Hy. now apply List.Forall_forall.
    + constructor; [now constructor|]. constructor; [exact Hxp|].
      eapply List.Forall_impl; [|exact Hp]. cbn. intros y Hy. eapply Hneg; eauto.
Qed.

Lemma StronglySorted_rev {A : Type} (R : A -> A -> Prop) (l : list A) :
  StronglySorted R l -> StronglySorted (fun a b => R b a) (rev l).
Proof.
  induction 1 as [|x l Hl IH Hx]; cbn [rev]; [constructor|].
  apply StronglySorted_app_2; [|exact IH|repeat constructor].
  intros a b Ha Hb. apply list_elem_of_singleton in Hb. subst b.
  apply list_elem_of_In, in_rev in Ha. revert a Ha. now apply List.Forall_forall.
Qed.

Lemma sort_Slice_ascending {A : Type} (less : A -> A -> bool) (arr : list A) :
  strictWeak less -> ascending less (sort_Slice less arr).
Proof.
  intros Hsw. unfold ascending, sort_Slice.
  apply (StronglySorted_rev (fun a b => less a b = false)).
  assert (Hgen : forall acc,
    StronglySorted (fun a b => less a b = false) acc ->
    StronglySorted (fun a b => less a b = false)
      (fold_left (fun revPrefix x => sinkLeft less x revPrefix) arr acc)).
  { induction arr as [|x arr IH]; intros acc Hacc; cbn [fold_left]; [exact Hacc|].
    apply IH. now apply sinkLeft_sorted. }
  apply Hgen. constructor.
Qed.

Lemma entries_In (ord : MapOrder) (m : gmap string Z) (kv : KV) :
  In kv (entries ord m) <-> m !! Key kv = Some (Count kv).
Proof.
  unfold entries. split.
  - intros Hin. apply (Permutation_in _ (rangeOrder_perm ord _ _)) in Hin.
    apply in_map_iff in Hin as ([key c] & <- & Hin). cbn.
    now apply list_elem_of_In, elem_of_map_to_list in Hin.
  - intros Hm. apply (Permutation_in _ (Permutation_sym (rangeOrder_perm ord _ _))).
    apply in_map_iff. exists (Key kv, Count kv). split; [now destruct kv|].
    now apply list_elem_of_In, elem_of_map_to_list.
Qed.

Lemma entries_length (ord : MapOrder) (m : gmap string Z) :
  length (entries ord m) = size m.
Proof.
  unfold entries. rewrite (Permutation_length (rangeOrder_perm ord _ _)), length_map.
  apply length_map_to_list.
Qed.

Lemma same_key_same_entry (ord : MapOrder) (m : gmap string Z) (a b : KV) :
  In a (entries ord m) -> In b (entries ord m) -> Key a = Key b -> a = b.
Proof.
  intros Ha Hb Hkey. apply entries_In in Ha, Hb. rewrite Hkey, Hb in Ha.
  destruct a, b. cbn in *. congruence.
Qed.

Lemma sorted_lookup {A : Type} (R : A -> A -> Prop) (l : list A) (i j : nat) (a b : A) :
  StronglySorted R l -> l !! i = Some a -> l !! j = Some b -> (i < j)%nat -> R a b.
Proof.
  intros Hs Hi Hj Hij. rewrite <- (take_drop j l) in Hs.
  eapply StronglySorted_app_1_elem_of; [exact Hs| |].
  - apply list_elem_of_lookup. exists i. now rewrite lookup_take_lt.
  - apply list_elem_of_lookup. exists 0%nat. now rewrite lookup_drop, Nat.add_0_r.
Qed.

(** The first [k] entries of a map, sorted by [less]: what the order of the
    sort gives, whatever the order of the range. *)
Lemma take_sorted_entries (less : KV -> KV -> bool) (ord : MapOrder)
    (m : gmap string Z) (k : nat) :
  strictWeak less ->
  let top := take k (sort_Slice less (entries ord m)) in
  length top = Nat.min k (size m)
  /\ NoDup (map Key top)
  /\ (forall kv, In kv top -> m !! Key kv = Some (Count kv))
  /\ (forall i j a b, top !! i = Some a -> top !! j = Some b -> (i < j)%nat ->
        less b a = false /\ Key a <> Key b)
  /\ (forall a key c, In a top -> m !! key = Some c -> ~ In key (map Key top) ->
        less {| Key := key; Count := c |} a = false).
Proof.
  intros Hsw top. subst top.
  pose proof (sort_Slice_perm less (entries ord m)) as Hperm.
  pose proof (sort_Slice_ascending less (entries ord m) Hsw) as Hsorted.
  set (l := sort_Slice less (entries ord m)) in *.
  assert (Hnd : NoDup (map Key l)).
  { rewrite (Permutation_map Key Hperm). apply entries_keys_NoDup. }
  split; [|split; [|split; [|split]]].
  - rewrite length_take, (Permutation_length Hperm), entries_length. reflexivity.
  - now apply NoDup_map_take.
  - intros kv Hin. apply (entries_In ord). apply (Permutation_in _ Hperm).
    rewrite <- (take_drop k l). apply in_or_app. now left.
  - intros i j a b Hi Hj Hij.
    apply lookup_take_Some in Hi as [Hi _]. apply lookup_take_Some in Hj as [Hj _].
    split; [exact (sorted_lookup _ l i j a b Hsorted Hi Hj Hij)|].
    intros Hkey. apply (NoDup_lookup _ i j (Key a)) in Hnd; [lia| |].
    + now rewrite lookup_map, Hi.
    + now rewrite lookup_map, Hj, Hkey.
  - intros a key c Ha Hm Hnotin.
    assert (Hx : In {| Key := key; Count := c |} l).
    { apply (Permutation_in _ (Permutation_sym Hperm)). now apply entries_In. }
    rewrite <- (take_drop k l) in Hx, Hsorted. apply in_app_or in Hx as [Hx|Hx].
    + exfalso. apply Hnotin. apply in_map_iff. now exists {| Key := key; Count := c |}.
    + apply (StronglySorted_app_1_elem_of _ _ _ a _ Hsorted); now apply list_elem_of_In.
Qed.

(** X1.  [topK m k] holds [min k (size m)] entries of the map, each with the
    count the map gives its key.  They are ranked: an entry comes before
    another when its count is greater, or the counts are equal and its key
    is smaller; and every entry of the map that is left out is outranked by
    every entry that is kept. *)
Theorem topK_ranked (ord : MapOrder) (m : gmap string Z) (k : nat) :
  let top := topK ord m k in
  length top = Nat.min k (size m)
  /\ (forall kv, In kv top -> m !! Key kv = Some (Count kv))
  /\ (forall i j a b, top !! i = Some a -> top !! j = Some b -> (i < j)%nat ->
        outranks a b)
  /\ (forall a key c, In a top -> m !! key = Some c -> ~ In key (map Key top) ->
        outranks a {| Key := key; Count := c |}).
Proof.
  intros top.
  destruct (take_sorted_entries lessCountThenKey ord m k strictWeak_lessCountThenKey)
    as (Hlen & _ & Hin & Hord & Htop).
  fold (topK ord m k) in Hlen, Hin, Hord, Htop. fold top in Hlen, Hin, Hord, Htop.
  split; [exact Hlen|]. split; [exact Hin|]. split.
  - intros i j a b Hi Hj Hij. destruct (Hord i j a b Hi Hj Hij) as [Hba Hkey].
    apply lessCountThenKey_true. destruct (lessCountThenKey a b) eqn:Hab; [reflexivity|].
    exfalso. apply Hkey. now rewrite (lessCountThenKey_total a b Hab Hba).
  - intros a key c Ha Hm Hnotin. pose proof (Htop a key c Ha Hm Hnotin) as Hxa.
    apply lessCountThenKey_true.
    destruct (lessCountThenKey a {| Key := key; Count := c |}) eqn:Hax; [reflexivity|].
    exfalso. apply Hnotin. apply in_map_iff. exists a. split; [|exact Ha].
    now rewrite (lessCountThenKey_total _ _ Hax Hxa).
Qed.

(** X2.  The result of [topK] does not depend on the order in which the
    range visits the map: the comparison of [topK] separates any two
    entries, so the sorted slice is the same for every order. *)
Theorem topK_order_independent (ord1 ord2 : MapOrder) (m : gmap string Z) (k : nat) :
  topK ord1 m k = topK ord2 m k.
Proof.
  unfold topK. f_equal.
  apply (StronglySorted_unique_strong (fun a b => lessCountThenKey b a = false)).
  - intros a b _ _ Hba Hab. now apply lessCountThenKey_total.
  - apply sort_Slice_ascending, strictWeak_lessCountThenKey.
  - apply sort_Slice_ascending, strictWeak_lessCountThenKey.
  - rewrite !sort_Slice_perm. unfold entries. now rewrite !rangeOrder_perm.
Qed.

(** [topKKeys m k] holds [min k (size m)] keys of the map, in
    non-increasing order of their counts, and no key that is left out has a
    greater count than a key that is kept. *)
Lemma topKKeys_order (ord : MapOrder) (m : gmap string Z) (k : nat) :
  let top := topKKeys ord m k in
  length top = Nat.min k (size m)
  /\ (forall u, In u top -> is_Some (m !! u))
  /\ (forall i j a b, top !! i = Some a -> top !! j = Some b -> (i < j)%nat ->
        countOf m b <= countOf m a)
  /\ (forall a u, In a top -> is_Some (m !! u) -> ~ In u top ->
        countOf m u <= countOf m a).
Proof.
  intros top.
  destruct (take_sorted_entries lessCount ord m k strictWeak_lessCount)
    as (Hlen & _ & Hin & Hord & Htop).
  subst top. unfold topKKeys, countOf.
  set (l := take k (sort_Slice lessCount (entries ord m))) in *.
  split; [now rewrite length_map|]. split; [|split].
  - intros u Hu. apply in_map_iff in Hu as (kv & <- & Hkv). rewrite (Hin kv Hkv). eauto.
  - intros i j a b Hi Hj Hij. rewrite lookup_map in Hi, Hj.
    destruct (l !! i) as [x|] eqn:Hx; [|discriminate].
    destruct (l !! j) as [y|] eqn:Hy; [|discriminate].
    cbn in Hi, Hj. injection Hi as <-. injection Hj as <-.
    destruct (Hord i j x y Hx Hy Hij) as [Hyx _].
    assert (Hxin : In x l) by (apply list_elem_of_In, list_elem_of_lookup; eauto).
    assert (Hyin : In y l) by (apply list_elem_of_In, list_elem_of_lookup; eauto).
    rewrite (Hin x Hxin), (Hin y Hyin). cbn.
    unfold lessCount in Hyx. now apply Z.ltb_ge in Hyx.
  - intros a u Ha [c Hu] Hnotin. apply in_map_iff in Ha as (x & <- & Hx).
    pose proof (Htop x u c Hx Hu Hnotin) as Hux.
    rewrite (Hin x Hx), Hu. cbn. unfold lessCount in Hux. cbn in Hux.
    now apply Z.ltb_ge in Hux.
Qed.

(** ** The three frequency maps *)

Lemma tally_app (ks ks' : list string) (m : gmap string Z) :
  tally (ks ++ ks') m = tally ks' (tally ks m).
Proof. unfold tally. apply fold_left_app. Qed.

Lemma tally_count (ks : list string) (m : gmap string Z) (u : string) :
  countOf (tally ks m) u = countOf m u + occurrences u ks.
Proof. apply lookup_incr_all. Qed.

Lemma tally_dom (ks : list string) (m : gmap string Z) (u : string) :
  is_Some (tally ks m !! u) <-> is_Some (m !! u) \/ In u ks.
Proof.
  revert m. induction ks as [|k ks IH]; intros m; cbn [tally fold_left In].
  - tauto.
  - fold (tally ks (incr k m)). rewrite IH. unfold incr.
    destruct (decide (k = u)) as [->|Hne].
    + rewrite lookup_insert_eq. split; [auto|]. intros _. left. eauto.
    + rewrite lookup_insert_ne by exact Hne. tauto.
Qed.

Lemma occurrences_pos (u : string) (ks : list string) :
  In u ks -> 1 <= occurrences u ks.
Proof.
  unfold occurrences, countIf. intros Hin.
  assert (Hf : In u (List.filter (String.eqb u) ks))
    by (apply filter_In; split; [exact Hin | apply String.eqb_refl]).
  destruct (List.filter (String.eqb u) ks); [destruct Hf | cbn [length]; lia].
Qed.

Lemma tally_lookup (ks : list string) (u : string) (c : Z) :
  tally ks ∅ !! u = Some c -> In u ks /\ c = occurrences u ks /\ 1 <= c.
Proof.
  intros Hu.
  assert (Hin : In u ks).
  { destruct (proj1 (tally_dom ks ∅ u)) as [[x Hx]|Hin]; [eauto| |exact Hin].
    now rewrite lookup_empty in Hx. }
  pose proof (tally_count ks ∅ u) as Hc. unfold countOf in Hc.
  rewrite Hu, lookup_empty in Hc. cbn in Hc.
  split; [exact Hin|]. split; [lia|]. pose proof (occurrences_pos u ks Hin). lia.
Qed.

Lemma tally_size (ks : list string) : size (tally ks ∅) = distinct ks.
Proof.
  unfold distinct. rewrite <- (size_dom (D := gset string)). f_equal.
  apply set_eq. intros u. rewrite elem_of_dom, elem_of_list_to_set, tally_dom.
  rewrite lookup_empty, list_elem_of_In. split; [intros [[x Hx]|Hin]|]; auto.
  discriminate Hx.
Qed.

Lemma distinct_le_length (l : list string) : (distinct l <= length l)%nat.
Proof.
  unfold distinct. induction l as [|x l IH]; cbn [list_to_set length].
  - now rewrite size_empty.
  - rewrite size_union_alt, size_singleton.
    assert (Hsub : (size ((list_to_set l : gset string) ∖ {[x]})
                    <= size (list_to_set l : gset string))%nat)
      by (apply subseteq_size, subseteq_difference_l; reflexivity).
    lia.
Qed.

Lemma senderCount_rangeMsgs (msgs : list Message) (idx : Z) (st : loopState) :
  senderCount (rangeMsgs idx msgs st) = tally (sendersOf msgs) (senderCount st).
Proof.
  revert idx st. induction msgs as [|m msgs IH]; intros idx st; cbn [rangeMsgs];
    [reflexivity|].
  rewrite IH. unfold loopBody, sendersOf. cbn [senderCount map List.filter].
  destruct (String.eqb (senderDisplay m) ""); reflexivity.
Qed.

Lemma linkCount_rangeMsgs (msgs : list Message) (idx : Z) (st : loopState) :
  linkCount (rangeMsgs idx msgs st) = tally (linksOf msgs) (linkCount st).
Proof.
  revert idx st. induction msgs as [|m msgs IH]; intros idx st; cbn [rangeMsgs];
    [reflexivity|].
  rewrite IH. unfold loopBody, linksOf. cbn [linkCount flat_map].
  now rewrite tally_app.
Qed.

Lemma tokenStep_tally (text : string) (counts : gmap string Z) :
  tokenStep text counts = tally (countedTokens text) counts.
Proof.
  unfold tokenStep, countedTokens. rewrite tally_app.
  assert (Hascii : forall toks c,
    fold_left asciiTokenStep toks c
    = tally (List.filter (fun tok => negb (has stopwordEN tok || (len tok <=? 2)))
                         (map strings_ToLower toks)) c).
  { induction toks as [|tok toks IHt]; intros c; cbn [fold_left map List.filter];
      [reflexivity|].
    rewrite IHt. unfold asciiTokenStep.
    destruct (has stopwordEN (strings_ToLower tok) || (len (strings_ToLower tok) <=? 2));
      reflexivity. }
  assert (Hgram : forall toks c,
    fold_left gramStep toks c
    = tally (List.filter (fun tok => negb (has stopwordCN tok)) toks) c).
  { induction toks as [|tok toks IHt]; intros c; cbn [fold_left List.filter];
      [reflexivity|].
    rewrite IHt. unfold gramStep. destruct (has stopwordCN tok); reflexivity. }
  now rewrite Hascii, Hgram.
Qed.

Lemma tokenCount_rangeMsgs (msgs : list Message) (idx : Z) (st : loopState) :
  tokenCount (rangeMsgs idx msgs st) = tally (tokensOf msgs) (tokenCount st).
Proof.
  revert idx st. induction msgs as [|m msgs IH]; intros idx st; cbn [rangeMsgs];
    [reflexivity|].
  rewrite IH. unfold loopBody, tokensOf. cbn [tokenCount flat_map].
  now rewrite tally_app, tokenStep_tally.
Qed.

Lemma length_sendersOf (msgs : list Message) :
  (length (sendersOf msgs) <= length msgs)%nat.
Proof.
  unfold sendersOf. etransitivity; [apply List.filter_length_le|].
  now rewrite length_map.
Qed.

Lemma occurrences_sendersOf (name : string) (msgs : list Message) :
  name <> "" ->
  occurrences name (sendersOf msgs)
  = countIf (fun m => String.eqb name (senderDisplay m)) msgs.
Proof.
  intros Hname. unfold occurrences, countIf, sendersOf. f_equal.
  induction msgs as [|m msgs IH]; cbn [map List.filter]; [reflexivity|].
  destruct (String.eqb_spec (senderDisplay m) "") as [Hempty|Hsome]; cbn [negb].
  - rewrite Hempty. destruct (String.eqb_spec name ""); [contradiction | exact IH].
  - cbn [List.filter]. destruct (String.eqb name (senderDisplay m)); cbn [length];
      now rewrite IH.
Qed.

(** X3.  [TopLinks] holds the links found in the messages, or five of them
    when more than five different links were found.  They are listed in
    non-increasing order of the number of times they were found, and no link
    that is left out was found more often than a link that is listed. *)
Theorem topLinks_spec (ord : MapOrder) (msgs : list Message) :
  let top := TopLinks (BuildSummary ord msgs) in
  length top = Nat.min 5 (distinct (linksOf msgs))
  /\ (forall u, In u top -> In u (linksOf msgs))
  /\ (forall i j a b, top !! i = Some a -> top !! j = Some b -> (i < j)%nat ->
        occurrences b (linksOf msgs) <= occurrences a (linksOf msgs))
  /\ (forall a u, In a top -> ~ In u top ->
        occurrences u (linksOf msgs) <= occurrences a (linksOf msgs)).
Proof.
  intros top. subst top. unfold BuildSummary. cbn [TopLinks].
  rewrite linkCount_rangeMsgs. cbn [linkCount loopInit].
  destruct (topKKeys_order ord (tally (linksOf msgs) ∅) 5) as (Hlen & Hin & Hord & Htop).
  assert (Hcount : forall u, countOf (tally (linksOf msgs) ∅) u = occurrences u (linksOf msgs)).
  { intros u. rewrite tally_count. unfold countOf. now rewrite lookup_empty. }
  split; [now rewrite Hlen, tally_size|]. split; [|split].
  - intros u Hu. apply Hin in Hu as [c Hc]. now apply tally_lookup in Hc.
  - intros i j a b Hi Hj Hij. rewrite <- !Hcount. eapply Hord; eauto.
  - intros a u Ha Hu. destruct (tally (linksOf msgs) ∅ !! u) as [c|] eqn:Hc.
    + rewrite <- !Hcount. apply Htop; eauto.
    + rewrite <- (Hcount u). unfold countOf at 1. rewrite Hc. cbn.
      apply Hin in Ha as [ca Hca]. apply tally_lookup in Hca as (_ & <- & Hpos). lia.
Qed.

(** X4.  [UniqueSenders] is the number of different non-empty display
    names of the messages, so it is at most the number of messages.
    [TopSenders] holds these names, or five of them when there are more, and
    the count of a name is the number of messages it is the display name
    of. *)
Theorem senders_spec (ord : MapOrder) (msgs : list Message) :
  let s := BuildSummary ord msgs in
  UniqueSenders s = Z.of_nat (distinct (sendersOf msgs))
  /\ UniqueSenders s <= TotalMessages s
  /\ length (TopSenders s) = Nat.min 5 (distinct (sendersOf msgs))
  /\ forall kv, In kv (TopSenders s) ->
       Key kv <> ""
       /\ Count kv = countIf (fun m => String.eqb (Key kv) (senderDisplay m)) msgs
       /\ 1 <= Count kv.
Proof.
  intros s. subst s. unfold BuildSummary.
  cbn [UniqueSenders TotalMessages TopSenders].
  rewrite senderCount_rangeMsgs. cbn [senderCount loopInit]. rewrite tally_size.
  destruct (take_sorted_entries lessCountThenKey ord (tally (sendersOf msgs) ∅) 5
              strictWeak_lessCountThenKey) as (Hlen & _ & Hin & _).
  fold (topK ord (tally (sendersOf msgs) ∅) 5) in Hlen, Hin.
  split; [reflexivity|]. split; [|split].
  - pose proof (distinct_le_length (sendersOf msgs)).
    pose proof (length_sendersOf msgs). lia.
  - now rewrite Hlen, tally_size.
  - intros kv Hkv. apply Hin, tally_lookup in Hkv as (Hname & Hcount & Hpos).
    assert (Hne : Key kv <> "").
    { unfold sendersOf in Hname. apply filter_In in Hname as [_ Hne].
      intros Hempty. rewrite Hempty in Hne. discriminate Hne. }
    split; [exact Hne|]. split; [|exact Hpos].
    now rewrite Hcount, occurrences_sendersOf.
Qed.

(** X5.  [Keywords] holds the counted tokens of the message texts, or
    twenty of them when there are more, and the count of a keyword is the
    number of times it occurs among the counted tokens. *)
Theorem keywords_spec (ord : MapOrder) (msgs : list Message) :
  let s := BuildSummary ord msgs in
  length (Keywords s) = Nat.min 20 (distinct (tokensOf msgs))
  /\ forall kv, In kv (Keywords s) ->
       In (Key kv) (tokensOf msgs)
       /\ Count kv = occurrences (Key kv) (tokensOf msgs)
       /\ 1 <= Count kv.
Proof.
  intros s. subst s. unfold BuildSummary. cbn [Keywords].
  rewrite tokenCount_rangeMsgs. cbn [tokenCount loopInit].
  destruct (take_sorted_entries lessCountThenKey ord (tally (tokensOf msgs) ∅) 20
              strictWeak_lessCountThenKey) as (Hlen & _ & Hin & _).
  fold (topK ord (tally (tokensOf msgs) ∅) 20) in Hlen, Hin.
  split; [now rewrite Hlen, tally_size|].
  intros kv Hkv. now apply Hin, tally_lookup in Hkv.
Qed.

(** X6.  [ImageCount] is the number of messages whose [MsgType] is 3. *)
Theorem imageCount_spec (ord : MapOrder) (msgs : list Message) :
  ImageCount (BuildSummary ord msgs) = countIf (fun m => Msg_MsgType m =? 3) msgs.
Proof.
  unfold BuildSummary. cbn [ImageCount].
  assert (Hgen : forall idx st,
    imageCount (rangeMsgs idx msgs st)
    = imageCount st + countIf (fun m => Msg_MsgType m =? 3) msgs).
  { induction msgs as [|m msgs IH]; intros idx st; cbn [rangeMsgs].
    - unfold countIf. cbn. lia.
    - rewrite IH. unfold loopBody, countIf. cbn [imageCount List.filter].
      destruct (Msg_MsgType m =? 3); cbn [length]; lia. }
  rewrite Hgen. cbn. lia.
Qed.

(** ** The buckets of the histogram and the peak hour *)

(** The time stamp that the histogram reads is the one [messageTime] reads. *)
Lemma messageTime_histogramTs (m : Message) :
  (0 <? histogramTs m) = true ->
  messageTime m = time_UnixLocal (toSeconds (histogramTs m)).
Proof.
  unfold histogramTs, messageTime. destruct (Z.eqb_spec (Msg_Timestamp m) 0) as [E0|N0].
  - rewrite E0. cbn. now intros ->.
  - now intros ->.
Qed.

Lemma incrAt_lookup (i : Z) (arr : list Z) (n : nat) :
  0 <= i ->
  incrAt i arr !! n
  = if Z.of_nat n =? i then Z.succ <$> arr !! n else arr !! n.
Proof.
  intros Hi. unfold incrAt. destruct (Z.eqb_spec (Z.of_nat n) i) as [<-|Hne].
  - rewrite Nat2Z.id, list_lookup_alter. now destruct (decide (n = n)).
  - rewrite list_lookup_alter. destruct (decide (Z.to_nat i = n)); [lia | reflexivity].
Qed.

Lemma histogram_lookup (msgs : list Message) (idx : Z) (st : loopState) (h : nat) (c : Z) :
  histogram st !! h = Some c ->
  histogram (rangeMsgs idx msgs st) !! h
  = Some (c + countIf (countedAt (Z.of_nat h)) msgs).
Proof.
  revert idx st c. induction msgs as [|m msgs IH]; intros idx st c Hc; cbn [rangeMsgs].
  - rewrite Hc. unfold countIf. cbn. f_equal. lia.
  - unfold countIf, countedAt. cbn [List.filter].
    destruct (0 <? histogramTs m) eqn:Hts; cbn [andb].
    + rewrite (messageTime_histogramTs m Hts).
      pose proof (Hour_range (time_UnixLocal (toSeconds (histogramTs m)))) as Hrange.
      assert (Hstep : histogram (loopBody idx m st) !! h
                = if Z.of_nat h =? time.Hour (time_UnixLocal (toSeconds (histogramTs m)))
                  then Some (c + 1) else Some c).
      { unfold loopBody, histogramStep. cbn [histogram]. rewrite Hts.
        rewrite incrAt_lookup by lia. rewrite Hc. reflexivity. }
      rewrite (Z.eqb_sym (time.Hour _)).
      destruct (Z.of_nat h =? time.Hour (time_UnixLocal (toSeconds (histogramTs m))));
        rewrite (IH _ _ _ Hstep); unfold countIf, countedAt; cbn [length]; f_equal; lia.
    + erewrite IH.
      2:{ unfold loopBody, histogramStep. cbn [histogram]. rewrite Hts. exact Hc. }
      reflexivity.
Qed.

Lemma histogram_table (ord : MapOrder) (msgs : list Message) :
  HourlyHistogram (BuildSummary ord msgs)
  = map (fun h => countIf (countedAt (Z.of_nat h)) msgs) (List.seq 0 24).
Proof.
  unfold BuildSummary. cbn [HourlyHistogram]. apply list_eq. intros h.
  rewrite lookup_map. destruct (Nat.lt_ge_cases h 24) as [Hlt|Hge].
  - rewrite (histogram_lookup msgs 0 loopInit h 0).
    + rewrite lookup_seq_lt by exact Hlt. reflexivity.
    + cbn [histogram loopInit]. now apply lookup_replicate_2.
  - rewrite lookup_seq_ge by exact Hge. cbn.
    apply lookup_ge_None.
    destruct (histogram_rangeMsgs msgs 0 loopInit eq_refl) as [Hlen _]. lia.
Qed.

(** X7.  Bucket [h] of the histogram is the number of messages whose
    [Timestamp], or [CreateTime] when [Timestamp] is 0, is positive and
    whose time falls in hour [h] of the local day. *)
Theorem histogram_buckets (ord : MapOrder) (msgs : list Message) :
  let s := BuildSummary ord msgs in
  HourlyHistogram s = map (fun h => countIf (countedAt (Z.of_nat h)) msgs) (List.seq 0 24)
  /\ forall h m, countedAt h m = true -> 0 <= h < 24 /\ hasTime m = true.
Proof.
  split; [apply histogram_table|].
  intros h m Hm. unfold countedAt in Hm. apply andb_prop in Hm as [Hts Hh].
  apply Z.eqb_eq in Hh. subst h. split; [apply Hour_range | now apply histogramTs_hasTime].
Qed.

Lemma peakLoop_spec (rest pre : list Z) (ph pv : Z) :
  Forall (fun v => 0 <= v) rest ->
  0 <= pv ->
  Forall (fun v => v <= pv) pre ->
  (forall n v, pre !! n = Some v -> Z.of_nat n < ph -> v < pv) ->
  (pre = [] /\ ph = 0 /\ pv = 0) \/ (0 <= ph /\ pre !! Z.to_nat ph = Some pv) ->
  rest <> [] \/ pre <> [] ->
  exists c,
    0 <= peakLoop (Z.of_nat (length pre)) rest ph pv
    /\ (pre ++ rest) !! Z.to_nat (peakLoop (Z.of_nat (length pre)) rest ph pv) = Some c
    /\ Forall (fun v => v <= c) (pre ++ rest)
    /\ (forall n v, (pre ++ rest) !! n = Some v ->
          Z.of_nat n < peakLoop (Z.of_nat (length pre)) rest ph pv -> v < c).
Proof.
  revert pre ph pv. induction rest as [|x rest IH];
    intros pre ph pv Hrest Hpv Hle Hbefore Hat Hne; cbn [peakLoop].
  - rewrite app_nil_r. destruct Hat as [(Hnil & _ & _)|[Hph Hat]].
    + destruct Hne as [Hne|Hne]; contradiction.
    + exists pv. auto.
  - apply Forall_cons in Hrest as [Hx Hrest].
    assert (Hlen : Z.of_nat (length pre) + 1 = Z.of_nat (length (pre ++ [x])))
      by (rewrite length_app; cbn; lia).
    rewrite Hlen. replace (pre ++ x :: rest) with ((pre ++ [x]) ++ rest)
      by now rewrite <- app_assoc.
    destruct (Z.ltb_spec pv x) as [Hlt|Hge].
    + apply IH; [exact Hrest | lia | | | | right; now destruct pre].
      * apply Forall_app. split; [|repeat constructor; lia].
        eapply List.Forall_impl; [|exact Hle]. cbn. intros; lia.
      * intros n v Hn Hnlt. apply lookup_app_Some in Hn as [Hn|[Hnlen _]]; [|lia].
        assert (v <= pv); [|lia].
        eapply (proj1 (List.Forall_forall _ pre) Hle), list_elem_of_In, list_elem_of_lookup_2, Hn.
      * right. split; [lia|]. rewrite Nat2Z.id.
        rewrite lookup_app_r by lia. now rewrite Nat.sub_diag.
    + apply IH; [exact Hrest | exact Hpv | | | | right; now destruct pre].
      * apply Forall_app. split; [exact Hle | repeat constructor; lia].
      * intros n v Hn Hnlt. apply lookup_app_Some in Hn as [Hn|[Hnlen Hn]];
          [eapply Hbefore; eauto|].
        destruct Hat as [(-> & -> & ->)|[Hph Hat]]; [lia|].
        apply lookup_lt_Some in Hat. lia.
      * right. destruct Hat as [(-> & -> & ->)|[Hph Hat]].
        -- split; [lia|]. assert (x = 0) as -> by lia. reflexivity.
        -- split; [exact Hph|]. now apply lookup_app_l_Some.
Qed.

(** X8.  [PeakHour] is an hour of the day whose bucket is the largest of
    the histogram, and it is the first such hour: every earlier bucket is
    strictly smaller. *)
Theorem peakHour_spec (ord : MapOrder) (msgs : list Message) :
  let s := BuildSummary ord msgs in
  exists c,
    0 <= PeakHour s < 24
    /\ HourlyHistogram s !! Z.to_nat (PeakHour s) = Some c
    /\ (forall h v, HourlyHistogram s !! h = Some v -> v <= c)
    /\ (forall h v, HourlyHistogram s !! h = Some v -> Z.of_nat h < PeakHour s -> v < c).
Proof.
  intros s.
  assert (Hhist : HourlyHistogram s
                  = map (fun h => countIf (countedAt (Z.of_nat h)) msgs) (List.seq 0 24))
    by apply (histogram_table ord msgs).
  destruct (peakLoop_spec (HourlyHistogram s) [] 0 0) as (c & Hpos & Hc & Hmax & Hfirst).
  - rewrite Hhist. apply List.Forall_map, List.Forall_forall. intros h _.
    unfold countIf. lia.
  - lia.
  - constructor.
  - intros n v Hn. discriminate Hn.
  - now left.
  - left. rewrite Hhist. discriminate.
  - change (Z.of_nat (length (@nil Z))) with 0 in *. cbn [app] in *.
    change (PeakHour s) with (peakLoop 0 (HourlyHistogram s) 0 0).
    exists c. split; [|split; [exact Hc|split; [|exact Hfirst]]].
    + split; [exact Hpos|]. apply lookup_lt_Some in Hc.
      assert (Hlen : length (HourlyHistogram s) = 24%nat)
        by now rewrite Hhist, length_map, length_seq.
      rewrite Hlen in Hc. lia.
    + intros h v Hv.
      eapply (proj1 (List.Forall_forall _ _) Hmax), list_elem_of_In, list_elem_of_lookup_2, Hv.
Qed.

(** ** The ledger as a whole *)

Lemma resolves_markResolved (r m : Message) (t : Time) (q : questionStatus) :
  resolves r (markResolved m t q) = resolves r q.
Proof. reflexivity. Qed.

Lemma settle_step (idx : Z) (m : Message) (rest : list Message) (q : questionStatus) :
  entryOk idx q ->
  (if q_Resolved (resolveStep idx m (messageText m) (messageTime m) q)
   then resolveStep idx m (messageText m) (messageTime m) q
   else settle rest (resolveStep idx m (messageText m) (messageTime m) q))
  = if q_Resolved q then q else settle (m :: rest) q.
Proof.
  intros Hok. destruct (q_Resolved q) eqn:Hres.
  - rewrite (resolveStep_resolved idx m _ _ q Hres). now rewrite Hres.
  - rewrite (resolveStep_spec idx m q Hok Hres). unfold settle. cbn [List.find].
    destruct (resolves m q) eqn:Hm; [reflexivity|]. now rewrite Hres.
Qed.

Lemma rangeMsgs_settled (msgs : list Message) (idx : Z) (st : loopState) :
  Forall (entryOk idx) (questions st) ->
  questions (rangeMsgs idx msgs st)
  = map (fun q => if q_Resolved q then q else settle msgs q) (questions st)
    ++ settledLedger idx msgs.
Proof.
  revert idx st. induction msgs as [|m rest IH]; intros idx st Hok;
    cbn [rangeMsgs settledLedger].
  - rewrite app_nil_r. symmetry. erewrite map_ext; [apply map_id|].
    intros q. unfold settle. cbn. now destruct (q_Resolved q).
  - rewrite IH.
    2:{ pose proof (rangeMsgs_entryOk [m] idx st Hok) as Hstep.
        cbn [rangeMsgs length] in Hstep. exact Hstep. }
    rewrite questions_loopBody, map_app, map_map, <- app_assoc. f_equal.
    + apply map_ext_in. intros q Hq. apply settle_step.
      revert q Hq. now apply List.Forall_forall.
    + destruct (shouldTrackQuestion m (messageText m)); reflexivity.
Qed.

(** X9.  The ledger holds, in the order of the messages, one entry for each
    message that opens a question; the entry is resolved by the first later
    message that meets the resolve condition, with the responder, the hour
    and the latency of that message, and it is open when no later message
    meets the condition. *)
Theorem ledger_first_resolver (msgs : list Message) :
  ledger msgs = settledLedger 0 msgs.
Proof.
  unfold ledger. rewrite rangeMsgs_settled by constructor. reflexivity.
Qed.

Lemma identity_display (r : Message) : identity r <> "" -> senderDisplay r <> "".
Proof. unfold identity. intros Hid Hd. apply Hid. rewrite Hd. apply normalizeName_empty. Qed.

Lemma differ_spec (a b : string) : differ a b = true -> a <> "" /\ b <> "" /\ b <> a.
Proof.
  unfold differ. intros Hd. apply andb_prop in Hd as [Hd Hba]. apply andb_prop in Hd as [Ha Hb].
  rewrite negb_true_iff in Ha, Hb, Hba. now rewrite !String.eqb_neq in *.
Qed.

(** What the entries of the settled ledger record. *)
Lemma settledLedger_entries (msgs : list Message) (idx : Z) (q : questionStatus) :
  In q (settledLedger idx msgs) ->
  q_NormalizedQuestioner q = normalizeName (senderDisplay (q_Message q))
  /\ In (q_Message q) msgs
  /\ q_AskedAt q = messageTime (q_Message q)
  /\ ((q_Resolved q = false /\ q_Responders q = ∅ /\ q_ResponseMinutes q = 0%Q)
      \/ (q_Resolved q = true
          /\ exists r, In r msgs /\ resolves r q = true
               /\ q_Responders q = {[identity r := senderDisplay r]}
               /\ q_ResponseHour q = time.Hour (messageTime r)
               /\ q_ResponseMinutes q
                  = if negb (time.IsZero (q_AskedAt q))
                       && time.After (messageTime r) (q_AskedAt q)
                    then time.Minutes (time.Sub (messageTime r) (q_AskedAt q))
                    else 0%Q)).
Proof.
  revert idx. induction msgs as [|m rest IH]; intros idx Hq; cbn [settledLedger] in Hq;
    [destruct Hq|].
  apply in_app_or in Hq as [Hq|Hq].
  - destruct (shouldTrackQuestion m (messageText m)); [|destruct Hq].
    destruct Hq as [<-|[]]. unfold settle.
    destruct (List.find _ rest) as [r|] eqn:Hfind.
    + apply find_some in Hfind as [Hr Hres].
      split; [reflexivity|]. split; [now left|]. split; [reflexivity|].
      right. split; [reflexivity|]. exists r.
      split; [now right|]. split; [exact Hres|].
      assert (Hparts := Hres). unfold resolves in Hparts.
      apply andb_prop in Hparts as [Hparts _]. apply andb_prop in Hparts as [Hparts Hdiff].
      apply andb_prop in Hparts as [Htime _]. apply negb_true_iff in Htime.
      apply differ_spec in Hdiff as (_ & Hid & _). apply identity_display in Hid.
      cbn [markResolved q_Responders q_ResponseHour q_ResponseMinutes q_AskedAt newQuestion].
      rewrite Htime. cbn [negb andb].
      apply String.eqb_neq in Hid. rewrite Hid. cbn [negb].
      split; [now rewrite insert_empty|]. split; reflexivity.
    + split; [reflexivity|]. split; [now left|]. split; [reflexivity|].
      left. split; [reflexivity|]. split; reflexivity.
  - destruct (IH (idx + 1) Hq) as (Hn & Hm & Ht & Hcases).
    split; [exact Hn|]. split; [now right|]. split; [exact Ht|].
    destruct Hcases as [Hopen|(Hres & r & Hr & Hrest)]; [now left|].
    right. split; [exact Hres|]. exists r. split; [now right | exact Hrest].
Qed.

Lemma rangeOrder_singleton (ord : MapOrder) {A : Type} (x : A) : rangeOrder ord [x] = [x].
Proof. apply Permutation_length_1_inv. symmetry. apply rangeOrder_perm. Qed.

(** X10.  An item under [Outstanding] names no responder.  An item under
    [Resolved] names exactly one: the display name, which is not empty, of a
    message of the input whose sender has another identity than the
    questioner. *)
Theorem responders_spec (ord : MapOrder) (msgs : list Message) :
  let rd := Summary_ReplyDebt (BuildSummary ord msgs) in
  Forall (fun item => Item_Responders item = []) (Outstanding rd)
  /\ Forall (fun item =>
               exists r, In r msgs /\ senderDisplay r <> ""
                 /\ Item_Responders item = [senderDisplay r]
                 /\ identity r <> normalizeName (Item_Questioner item))
            (Resolved rd).
Proof.
  intros rd. subst rd. unfold BuildSummary. cbn [Summary_ReplyDebt].
  destruct (buildReplyDebt_lists ord (lastTime (rangeMsgs 0 msgs loopInit))
              (questions (rangeMsgs 0 msgs loopInit))) as [Ho Hr].
  rewrite Ho, Hr. rewrite rangeMsgs_settled by constructor.
  cbn [questions loopInit map app].
  split; apply List.Forall_map, List.Forall_forall; intros q Hq;
    apply filter_In in Hq as [Hq Hres].
  - reflexivity.
  - destruct (settledLedger_entries msgs 0 q Hq) as (Hn & _ & _ & Hcases).
    destruct Hcases as [(Hopen & _)|(_ & r & Hr' & Hmatch & Hresp & _)]; [congruence|].
    unfold resolves in Hmatch.
    apply andb_prop in Hmatch as [Hmatch _]. apply andb_prop in Hmatch as [_ Hdiff].
    apply differ_spec in Hdiff as (_ & Hid & Hne).
    exists r. split; [exact Hr'|]. split; [now apply identity_display|]. split.
    + unfold resolvedItem. cbn [Item_Responders]. rewrite Hresp.
      rewrite map_size_singleton, map_to_list_singleton, rangeOrder_singleton.
      reflexivity.
    + cbn [resolvedItem baseItem Item_Questioner]. now rewrite <- Hn.
Qed.

(** ** The latest message time *)

Lemma After_irrefl (t : Time) : time.After t t = false.
Proof.
  unfold time.After. rewrite !Z.ltb_irrefl, andb_false_r. reflexivity.
Qed.

Lemma After_negtrans (a b c : Time) :
  time.After a b = false -> time.After b c = false -> time.After a c = false.
Proof.
  unfold time.After. intros Hab Hbc.
  apply orb_false_elim in Hab as [Hab1 Hab2]. apply orb_false_elim in Hbc as [Hbc1 Hbc2].
  apply Z.ltb_ge in Hab1, Hbc1. apply orb_false_intro.
  - apply Z.ltb_ge. lia.
  - destruct (Z.eqb_spec (time.sec a) (time.sec c)) as [Hac|Hac]; [|reflexivity].
    cbn [andb]. apply Z.ltb_ge.
    assert (Eab : time.sec a = time.sec b) by lia.
    assert (Ebc : time.sec b = time.sec c) by lia.
    rewrite Eab, Z.eqb_refl in Hab2. rewrite Ebc, Z.eqb_refl in Hbc2.
    cbn [andb] in Hab2, Hbc2. apply Z.ltb_ge in Hab2, Hbc2. lia.
Qed.

Lemma After_asym (a b : Time) : time.After a b = true -> time.After b a = false.
Proof.
  unfold time.After. intros Hab. apply orb_prop in Hab as [Hab|Hab].
  - apply Z.ltb_lt in Hab. apply orb_false_intro; [apply Z.ltb_ge; lia|].
    destruct (Z.eqb_spec (time.sec b) (time.sec a)); [lia | reflexivity].
  - apply andb_prop in Hab as [Hsec Hnsec]. apply Z.eqb_eq in Hsec. apply Z.ltb_lt in Hnsec.
    rewrite Hsec, Z.ltb_irrefl, Z.eqb_refl. cbn. apply Z.ltb_ge. lia.
Qed.

Lemma lastTime_rangeMsgs (msgs seen : list Message) (idx : Z) (st : loopState) :
  (forall m, In m seen -> hasTime m = true ->
             time.After (messageTime m) (lastTime st) = false) ->
  (lastTime st = time.zero
   \/ exists m, In m seen /\ hasTime m = true /\ lastTime st = messageTime m) ->
  (forall m, In m (seen ++ msgs) -> hasTime m = true ->
             time.After (messageTime m) (lastTime (rangeMsgs idx msgs st)) = false)
  /\ (lastTime (rangeMsgs idx msgs st) = time.zero
      \/ exists m, In m (seen ++ msgs) /\ hasTime m = true
           /\ lastTime (rangeMsgs idx msgs st) = messageTime m).
Proof.
  revert seen idx st. induction msgs as [|x msgs IH]; intros seen idx st Hmax Hwho;
    cbn [rangeMsgs].
  - now rewrite app_nil_r.
  - replace (seen ++ x :: msgs) with ((seen ++ [x]) ++ msgs) by now rewrite <- app_assoc.
    apply IH; unfold loopBody; cbn [lastTime]; fold (hasTime x).
    + intros m Hm Ht. apply in_app_or in Hm as [Hm|[<-|[]]].
      * destruct (hasTime x && time.After (messageTime x) (lastTime st)) eqn:Hnew;
          [|now apply Hmax].
        apply andb_prop in Hnew as [_ Hnew].
        eapply After_negtrans; [now apply Hmax | now apply After_asym].
      * rewrite Ht. cbn [andb].
        destruct (time.After (messageTime x) (lastTime st)) eqn:Hnew;
          [apply After_irrefl | exact Hnew].
    + destruct (hasTime x && time.After (messageTime x) (lastTime st)) eqn:Hnew.
      * apply andb_prop in Hnew as [Ht _]. right. exists x.
        split; [apply in_or_app; right; now left | now split].
      * destruct Hwho as [Hzero|(m & Hm & Ht & Hlast)]; [now left|].
        right. exists m. split; [apply in_or_app; now left | now split].
Qed.

(** X11.  The time that the ages of the open questions are measured to is
    the zero time, or the time of a message of the input that has one; and
    no message of the input has a later time. *)
Theorem lastTime_spec (msgs : list Message) :
  let last := lastTime (rangeMsgs 0 msgs loopInit) in
  (forall m, In m msgs -> hasTime m = true -> time.After (messageTime m) last = false)
  /\ (last = time.zero
      \/ exists m, In m msgs /\ hasTime m = true /\ last = messageTime m).
Proof.
  apply (lastTime_rangeMsgs msgs [] 0 loopInit).
  - intros m [].
  - now left.
Qed.

(** ** The best response hours *)

Lemma strictWeak_lessHour : strictWeak lessHour.
Proof.
  unfold lessHour. split.
  - intros a b. destruct (Z.eqb_spec (snd a) (snd b)) as [Heq|Hne].
    + rewrite Heq, Z.eqb_refl, Z.ltb_lt, Z.ltb_ge. lia.
    + destruct (Z.eqb_spec (snd b) (snd a)); [congruence|]. rewrite Z.ltb_lt, Z.ltb_ge. lia.
  - intros a b c.
    destruct (Z.eqb_spec (snd a) (snd b)); destruct (Z.eqb_spec (snd b) (snd c));
      destruct (Z.eqb_spec (snd a) (snd c)); rewrite !Z.ltb_ge; lia.
Qed.

Lemma lessHour_total (a b : Z * Z) :
  lessHour a b = false -> lessHour b a = false -> a = b.
Proof.
  unfold lessHour. destruct a as [ha ca], b as [hb cb]. cbn.
  destruct (Z.eqb_spec ca cb) as [Heq|Hne].
  - subst cb. rewrite Z.eqb_refl, !Z.ltb_ge. intros. f_equal. lia.
  - destruct (Z.eqb_spec cb ca); [congruence|]. rewrite !Z.ltb_ge. lia.
Qed.

(** The slice that [bestHours] sorts: the entries of the map at the hours
    that are not negative. *)
Lemma hourEntries_spec (ord : MapOrder) (counts : gmap Z Z) :
  let arr := List.filter (fun e => negb (fst e <? 0)) (rangeOrder ord (map_to_list counts)) in
  NoDup (map fst arr)
  /\ forall h c, In (h, c) arr <-> counts !! h = Some c /\ 0 <= h.
Proof.
  intros arr. split.
  - assert (Hnd : NoDup (map fst (rangeOrder ord (map_to_list counts)))).
    { rewrite (Permutation_map fst (rangeOrder_perm ord _ _)).
      apply NoDup_fst_map_to_list. }
    subst arr. revert Hnd. generalize (rangeOrder ord (map_to_list counts)).
    induction l as [|e l IH]; cbn [map List.filter]; intros Hnd; [constructor|].
    apply NoDup_cons in Hnd as [Hnotin Hnd].
    destruct (negb (fst e <? 0)); [|now apply IH].
    cbn [map]. apply NoDup_cons. split; [|now apply IH].
    intros Hin. apply Hnotin. apply list_elem_of_In in Hin. apply list_elem_of_In.
    apply in_map_iff in Hin as (x & Hx & Hin). apply filter_In in Hin as [Hin _].
    apply in_map_iff. now exists x.
  - intros h c. subst arr. rewrite filter_In. cbn [fst].
    rewrite negb_true_iff, Z.ltb_ge. split; intros [Hin Hh]; (split; [|exact Hh]).
    + apply (Permutation_in _ (rangeOrder_perm ord _ _)) in Hin.
      now apply list_elem_of_In, elem_of_map_to_list in Hin.
    + apply (Permutation_in _ (Permutation_sym (rangeOrder_perm ord _ _))).
      now apply list_elem_of_In, elem_of_map_to_list.
Qed.

Lemma bestHours_unfold (ord : MapOrder) (counts : gmap Z Z) (limit : Z) :
  limit <> 0 ->
  let arr := sort_Slice lessHour
               (List.filter (fun e => negb (fst e <? 0))
                            (rangeOrder ord (map_to_list counts))) in
  bestHours ord counts limit
  = map fst (take (if 0 <? limit then Z.to_nat limit else length arr) arr).
Proof.
  intros Hlimit arr. unfold bestHours.
  destruct (Z.eqb_spec limit 0) as [|_]; [contradiction|]. rewrite orb_false_r.
  assert (Hlen : length arr
                 = length (List.filter (fun e => negb (fst e <? 0))
                                       (rangeOrder ord (map_to_list counts))))
    by apply Permutation_length, sort_Slice_perm.
  destruct (size counts =? 0)%nat eqn:Hsize.
  - apply Nat.eqb_eq, map_size_empty_inv in Hsize. subst counts.
    assert (Hnil : rangeOrder ord (map_to_list (∅ : gmap Z Z)) = []).
    { apply Permutation_nil. symmetry. rewrite map_to_list_empty. apply rangeOrder_perm. }
    subst arr. rewrite Hnil. cbn. now destruct (0 <? limit), (Z.to_nat limit).
  - fold arr. rewrite <- Hlen.
    destruct (length arr =? 0)%nat eqn:Hempty.
    + apply Nat.eqb_eq in Hempty. destruct arr; [|discriminate].
      now rewrite take_nil.
    + destruct (Z.ltb_spec 0 limit) as [Hpos|Hneg]; cbn [andb].
      * destruct (Z.ltb_spec limit (Z.of_nat (length arr))) as [Hlt|Hge]; [reflexivity|].
        rewrite take_ge by lia. reflexivity.
      * now rewrite firstn_all.
Qed.

(** X13.  [bestHours] lists hours of the map that are not negative, at most
    [limit] of them when [limit] is positive, each once and ranked: an hour
    comes before another when it has more responses, or as many and is the
    earlier hour.  The list does not depend on the order in which the range
    visits the map. *)
Theorem bestHours_ranked (ord : MapOrder) (counts : gmap Z Z) (limit : Z) :
  let best := bestHours ord counts limit in
  (0 <= limit -> Z.of_nat (length best) <= limit)
  /\ (forall h, In h best -> 0 <= h /\ is_Some (counts !! h))
  /\ (forall i j a b, best !! i = Some a -> best !! j = Some b -> (i < j)%nat ->
        betterHour counts a b)
  /\ forall ord' : MapOrder, bestHours ord' counts limit = best.
Proof.
  intros best. subst best.
  destruct (Z.eq_dec limit 0) as [->|Hlimit].
  { unfold bestHours. rewrite orb_true_r. cbn.
    split; [lia|]. split; [intros h []|]. split; [intros i j a b Hi; discriminate Hi|].
    reflexivity. }
  rewrite bestHours_unfold by exact Hlimit.
  destruct (hourEntries_spec ord counts) as [Hnd Hin].
  pose proof (sort_Slice_perm lessHour
    (List.filter (fun e => negb (fst e <? 0)) (rangeOrder ord (map_to_list counts))))
    as Hperm.
  pose proof (sort_Slice_ascending lessHour
    (List.filter (fun e => negb (fst e <? 0)) (rangeOrder ord (map_to_list counts)))
    strictWeak_lessHour) as Hsorted.
  set (arr := sort_Slice lessHour _) in *.
  set (n := if 0 <? limit then Z.to_nat limit else length arr).
  assert (Hkey : forall e, In e (take n arr) -> counts !! fst e = Some (snd e) /\ 0 <= fst e).
  { intros [h c] He. apply Hin. apply (Permutation_in _ Hperm).
    rewrite <- (take_drop n arr). apply in_or_app. now left. }
  split; [|split; [|split]].
  - intros Hpos. rewrite length_map, length_take. subst n.
    destruct (Z.ltb_spec 0 limit); lia.
  - intros h Hh. apply in_map_iff in Hh as (e & <- & He).
    destruct (Hkey e He) as [Hc Hpos]. split; [exact Hpos | eauto].
  - intros i j a b Hi Hj Hij. rewrite lookup_map in Hi, Hj.
    destruct (take n arr !! i) as [x|] eqn:Hx; [|discriminate].
    destruct (take n arr !! j) as [y|] eqn:Hy; [|discriminate].
    cbn in Hi, Hj. injection Hi as <-. injection Hj as <-.
    assert (Hxin : In x (take n arr)) by (apply list_elem_of_In, list_elem_of_lookup; eauto).
    assert (Hyin : In y (take n arr)) by (apply list_elem_of_In, list_elem_of_lookup; eauto).
    destruct (Hkey x Hxin) as [Hcx _]. destruct (Hkey y Hyin) as [Hcy _].
    apply lookup_take_Some in Hx as [Hx _]. apply lookup_take_Some in Hy as [Hy _].
    pose proof (sorted_lookup _ arr i j x y Hsorted Hx Hy Hij) as Hyx.
    assert (Hxy : lessHour x y = true).
    { destruct (lessHour x y) eqn:Hxy; [reflexivity|]. exfalso.
      pose proof (lessHour_total x y Hxy Hyx) as Heq. subst y.
      assert (Hnd' : NoDup arr).
      { rewrite Hperm. eapply NoDup_fmap_1. exact Hnd. }
      apply (NoDup_lookup _ i j x) in Hnd'; [lia | exact Hx | exact Hy]. }
    unfold betterHour. rewrite Hcx, Hcy. cbn. unfold lessHour in Hxy.
    destruct (Z.eqb_spec (snd x) (snd y)) as [Heq|Hne].
    + apply Z.ltb_lt in Hxy. right. now split.
    + apply Z.ltb_lt in Hxy. now left.
  - intros ord'. rewrite bestHours_unfold by exact Hlimit. fold arr.
    set (arr' := sort_Slice lessHour _).
    assert (Harr : arr' = arr).
    { apply (StronglySorted_unique_strong (fun a b => lessHour b a = false)).
      - intros a b _ _ Hba Hab. now apply lessHour_total.
      - apply sort_Slice_ascending, strictWeak_lessHour.
      - exact Hsorted.
      - subst arr' arr. rewrite !sort_Slice_perm.
        apply NoDup_Permutation.
        + eapply NoDup_fmap_1. exact (proj1 (hourEntries_spec ord' counts)).
        + eapply NoDup_fmap_1. exact Hnd.
        + intros [h c]. rewrite !list_elem_of_In.
          rewrite (proj2 (hourEntries_spec ord' counts) h c). now rewrite Hin. }
    now rewrite Harr.
Qed.

(** ** Mentions without duplicates *)

Lemma uniqueLoop_spec (rest : list string) (seen : gset string) (out : list string)
    (input : list string) :
  NoDup (map normalizeName out) ->
  (forall k, k ∈ seen <-> In k (map normalizeName out)) ->
  (forall s, In s out ->
     s <> "" /\ normalizeName s <> ""
     /\ exists item, In item input /\ s = strings_TrimSpace item) ->
  (forall item, In item rest -> In item input) ->
  let res := uniqueLoop rest seen out in
  NoDup (map normalizeName res)
  /\ (forall s, In s res ->
        s <> "" /\ normalizeName s <> ""
        /\ exists item, In item input /\ s = strings_TrimSpace item)
  /\ (forall s, In s out -> In s res)
  /\ (forall item, In item rest ->
        strings_TrimSpace item <> "" ->
        normalizeName (strings_TrimSpace item) <> "" ->
        In (normalizeName (strings_TrimSpace item)) (map normalizeName res)).
Proof.
  revert seen out. induction rest as [|item rest IH]; intros seen out Hnd Hseen Hout Hsub;
    cbn [uniqueLoop].
  - split; [exact Hnd|]. split; [exact Hout|]. split; [auto|]. intros item [].
  - assert (Hsub' : forall i, In i rest -> In i input) by (intros i Hi; apply Hsub; now right).
    assert (Hskip :
      (strings_TrimSpace item = "" \/ normalizeName (strings_TrimSpace item) = ""
       \/ In (normalizeName (strings_TrimSpace item)) (map normalizeName out)) ->
      let res := uniqueLoop rest seen out in
      NoDup (map normalizeName res)
      /\ (forall s, In s res ->
            s <> "" /\ normalizeName s <> ""
            /\ exists item, In item input /\ s = strings_TrimSpace item)
      /\ (forall s, In s out -> In s res)
      /\ (forall i, In i (item :: rest) ->
            strings_TrimSpace i <> "" ->
            normalizeName (strings_TrimSpace i) <> "" ->
            In (normalizeName (strings_TrimSpace i)) (map normalizeName res))).
    { intros Hwhy. destruct (IH seen out Hnd Hseen Hout Hsub') as (R1 & R2 & R3 & R4).
      split; [exact R1|]. split; [exact R2|]. split; [exact R3|].
      intros i [<-|Hi] Ht Hk; [|now apply R4].
      destruct Hwhy as [Hwhy|[Hwhy|Hwhy]]; [contradiction | contradiction |].
      apply in_map_iff in Hwhy as (s & Hs & Hin). apply in_map_iff. exists s.
      split; [exact Hs | now apply R3]. }
    destruct (String.eqb_spec (strings_TrimSpace item) "") as [Ht|Ht]; [apply Hskip; auto|].
    destruct (String.eqb_spec (normalizeName (strings_TrimSpace item)) "") as [Hk|Hk];
      [apply Hskip; auto|].
    unfold has. destruct (bool_decide_reflect (normalizeName (strings_TrimSpace item) ∈ seen))
      as [Hin|Hnotin]; [apply Hskip; right; right; now apply Hseen|].
    destruct (IH ({[normalizeName (strings_TrimSpace item)]} ∪ seen)
                 (out ++ [strings_TrimSpace item])) as (R1 & R2 & R3 & R4).
    + rewrite map_app. apply NoDup_app. split; [exact Hnd|]. split; [|apply NoDup_singleton].
      intros k Hk1 Hk2. cbn in Hk2. apply list_elem_of_singleton in Hk2. subst k.
      apply Hnotin, Hseen. now apply list_elem_of_In.
    + intros k. rewrite elem_of_union, elem_of_singleton, map_app, in_app_iff, Hseen.
      cbn. split; intros [Hk'|Hk']; auto. destruct Hk' as [Hk'|[]]; auto.
    + intros s Hs. apply in_app_or in Hs as [Hs|[<-|[]]]; [now apply Hout|].
      split; [exact Ht|]. split; [exact Hk|]. exists item. split; [apply Hsub; now left | reflexivity].
    + exact Hsub'.
    + split; [exact R1|]. split; [exact R2|]. split.
      * intros s Hs. apply R3, in_or_app. now left.
      * intros i [<-|Hi] Hti Hki; [|now apply R4].
        apply in_map_iff. exists (strings_TrimSpace item). split; [reflexivity|].
        apply R3, in_or_app. right. now left.
Qed.

(** X14.  [uniqueStrings] keeps names of the input with the white space
    around them removed, none of them empty or without a normalized form,
    and no two of them with the same normalized form; every name of the
    input that has a normalized form is represented by a name with that
    form. *)
Theorem uniqueStrings_spec (input : list string) :
  let out := uniqueStrings input in
  NoDup (map normalizeName out)
  /\ (forall s, In s out ->
        s <> "" /\ normalizeName s <> ""
        /\ exists item, In item input /\ s = strings_TrimSpace item)
  /\ (forall item, In item input ->
        strings_TrimSpace item <> "" ->
        normalizeName (strings_TrimSpace item) <> "" ->
        In (normalizeName (strings_TrimSpace item)) (map normalizeName out)).
Proof.
  intros out. subst out. unfold uniqueStrings.
  destruct (uniqueLoop_spec input ∅ [] input) as (R1 & R2 & _ & R4).
  - constructor.
  - intros k. cbn. split; [intros Hk; now apply not_elem_of_empty in Hk | tauto].
  - intros s [].
  - auto.
  - split; [exact R1|]. split; [exact R2 | exact R4].
Qed.

(** ** The grams of a text *)

Lemma gramsOf_windows (n : nat) (seq : list Z) (g : string) :
  In g (gramsOf n seq) ->
  exists pre w post, seq = pre ++ w ++ post /\ g = utf8_string w /\ length w = n.
Proof.
  unfold gramsOf. intros Hg. apply in_map_iff in Hg as (i & <- & Hi).
  apply in_seq in Hi. exists (take i seq), (take n (drop i seq)), (drop n (drop i seq)).
  split; [now rewrite !take_drop|]. split; [reflexivity|].
  rewrite length_take, length_drop. lia.
Qed.

Lemma gramsLoop_windows (rs : list Z) (grams : list string) (seq done all : list Z)
    (P : string -> Prop) :
  all = done ++ seq ++ rs ->
  forallb unicode_IsHan seq = true ->
  (forall pre w post, all = pre ++ w ++ post -> forallb unicode_IsHan w = true ->
                      length w = 2%nat \/ length w = 3%nat -> P (utf8_string w)) ->
  Forall P grams ->
  Forall P (gramsLoop rs grams seq).
Proof.
  intros Hall Hhan HP. revert grams seq done Hall Hhan.
  assert (Hflush : forall grams seq done rest,
    all = done ++ seq ++ rest -> forallb unicode_IsHan seq = true ->
    Forall P grams -> Forall P (flush grams seq)).
  { intros grams seq done rest Hall Hhan Hgrams. unfold flush.
    destruct (2 <=? length seq)%nat; [|exact Hgrams].
    apply Forall_app. split; [exact Hgrams|].
    apply List.Forall_forall. intros g Hg.
    assert (Hw : exists n, (n = 2 \/ n = 3)%nat /\ In g (gramsOf n seq)).
    { apply in_app_or in Hg as [Hg|Hg]; [exists 2%nat | exists 3%nat]; auto. }
    destruct Hw as (n & Hn & Hw).
    apply gramsOf_windows in Hw as (pre & w & post & Hseq & -> & Hlen).
    apply (HP (done ++ pre) w (post ++ rest)).
    - rewrite Hall, Hseq. now rewrite <- !app_assoc.
    - rewrite Hseq, !forallb_app in Hhan.
      apply andb_prop in Hhan as [_ Hhan]. now apply andb_prop in Hhan as [Hhan _].
    - lia. }
  induction rs as [|r rs IH]; intros grams seq done Hall Hhan Hgrams; cbn [gramsLoop].
  - eapply Hflush; eauto.
  - destruct (unicode_IsHan r) eqn:Hr.
    + apply (IH grams (seq ++ [r]) done); [now rewrite <- app_assoc | | exact Hgrams].
      rewrite forallb_app, Hhan. cbn. now rewrite Hr.
    + apply (IH (flush grams seq) [] (done ++ seq ++ [r]));
        [now rewrite <- !app_assoc | reflexivity | eapply Hflush; eauto].
Qed.

(** X15.  Every gram that [chineseGrams] draws from a text is the string of
    two or three Han runes that follow one another in the text. *)
Theorem chineseGrams_windows (s : string) :
  Forall (fun g => exists pre w post,
                     utf8_runes s = pre ++ w ++ post
                     /\ g = utf8_string w
                     /\ (length w = 2%nat \/ length w = 3%nat)
                     /\ forallb unicode_IsHan w = true)
         (chineseGrams s).
Proof.
  unfold chineseGrams.
  apply (gramsLoop_windows (utf8_runes s) [] [] [] (utf8_runes s)); try reflexivity.
  - intros pre w post Hall Hhan Hlen. now exists pre, w, post.
  - constructor.
Qed.

(** ** The representative of a topic *)

Lemma matchingIdxs_In (texts : list string) (tk : string) (i : nat) :
  In i (matchingIdxs texts tk)
  <-> exists text, texts !! i = Some text /\ strings_Contains text tk = true.
Proof.
  unfold matchingIdxs. rewrite filter_In, in_seq. split.
  - intros [[_ Hi] Hc]. destruct (lookup_lt_is_Some_2 texts i) as [text Ht]; [lia|].
    exists text. split; [exact Ht|]. now rewrite (list_lookup_total_correct _ _ _ Ht) in Hc.
  - intros (text & Ht & Hc). split.
    + apply lookup_lt_Some in Ht. lia.
    + now rewrite (list_lookup_total_correct _ _ _ Ht).
Qed.

Lemma longest_spec (texts : list string) (idxs : list nat) (long : Z) (rep : string) :
  let res := longest texts idxs long rep in
  (res = rep /\ forall i, In i idxs -> runeLen (texts !!! i) <= long)
  \/ (exists i, In i idxs /\ res = texts !!! i
        /\ long < runeLen res
        /\ forall j, In j idxs -> runeLen (texts !!! j) <= runeLen res).
Proof.
  revert long rep. induction idxs as [|i idxs IH]; intros long rep; cbn [longest].
  - left. split; [reflexivity | intros i []].
  - destruct (Z.ltb_spec long (runeLen (texts !!! i))) as [Hlt|Hge].
    + right. destruct (IH (runeLen (texts !!! i)) (texts !!! i))
        as [[Hres Hall]|(k & Hk & Hres & Hlong & Hall)].
      * exists i. split; [now left|]. split; [exact Hres|]. rewrite Hres.
        split; [exact Hlt|]. intros j [<-|Hj]; [lia | now apply Hall].
      * exists k. split; [now right|]. split; [exact Hres|]. split; [lia|].
        intros j [<-|Hj]; [lia | now apply Hall].
    + destruct (IH long rep) as [[Hres Hall]|(k & Hk & Hres & Hlong & Hall)].
      * left. split; [exact Hres|]. intros j [<-|Hj]; [exact Hge | now apply Hall].
      * right. exists k. split; [now right|]. split; [exact Hres|]. split; [exact Hlong|].
        intros j [<-|Hj]; [lia | now apply Hall].
Qed.

Lemma topicLoop_representative (texts : list string) (topTokens : list string)
    (topics : list Topic) (used : gset string) (keywords : list string) :
  (forall tk, In tk topTokens -> In tk keywords) ->
  Forall (fun t => Topic_Keywords t = [Topic_Name t] /\ In (Topic_Name t) keywords
                   /\ representativeOk texts t) topics ->
  Forall (fun t => Topic_Keywords t = [Topic_Name t] /\ In (Topic_Name t) keywords
                   /\ representativeOk texts t)
         (topicLoop texts topTokens topics used).
Proof.
  revert topics used. induction topTokens as [|tk rest IH]; intros topics used Hsub Hok;
    cbn [topicLoop]; [exact Hok|].
  assert (Hsub' : forall k, In k rest -> In k keywords) by (intros k Hk; apply Hsub; now right).
  destruct (5 <=? length topics)%nat; [exact Hok|].
  destruct (length (matchingIdxs texts tk) <? 3)%nat; [now apply IH|].
  destruct (existsb _ (elements used)); [now apply IH|].
  apply IH; [exact Hsub'|]. apply Forall_app. split; [exact Hok|].
  constructor; [|constructor]. split; [reflexivity|]. split; [apply Hsub; now left|].
  unfold representativeOk. cbn [Topic_Representative Topic_Name].
  assert (Hmatch : forall text, In text texts -> strings_Contains text tk = true ->
            exists i, In i (matchingIdxs texts tk) /\ texts !!! i = text).
  { intros text Hin Hc. apply list_elem_of_In, list_elem_of_lookup in Hin as [i Hi].
    exists i. split; [apply matchingIdxs_In; eauto | now apply list_lookup_total_correct]. }
  destruct (longest_spec texts (matchingIdxs texts tk) 0 "")
    as [[Hres Hall]|(i & Hi & Hres & _ & Hall)].
  - right. split; [exact Hres|]. intros text Hin Hc.
    destruct (Hmatch text Hin Hc) as (i & Hi & <-).
    pose proof (Hall i Hi). unfold runeLen in *. lia.
  - left. apply matchingIdxs_In in Hi as (text & Ht & Hc).
    rewrite (list_lookup_total_correct _ _ _ Ht) in Hres. rewrite Hres.
    split; [eapply list_elem_of_In, list_elem_of_lookup_2; eauto|].
    split; [exact Hc|]. intros text' Hin' Hc'.
    destruct (Hmatch text' Hin' Hc') as (j & Hj & <-). rewrite <- Hres. now apply Hall.
Qed.

(** X16.  The name of a topic is one of the keywords of the summary, and it
    is the only keyword of the topic.  The representative of the topic is a
    message text that contains the name and has no fewer runes than any
    message text that contains it. *)
Theorem topic_representative (ord : MapOrder) (msgs : list Message) :
  let s := BuildSummary ord msgs in
  Forall (fun t => Topic_Keywords t = [Topic_Name t]
                   /\ In (Topic_Name t) (map Key (Keywords s))
                   /\ representativeOk (textsOf msgs) t)
         (Topics s).
Proof.
  intros s. subst s. unfold BuildSummary. cbn [Topics Keywords].
  rewrite messagesText_rangeMsgs. cbn [messagesText loopInit app].
  apply topicLoop_representative; [auto | constructor].
Qed.

(** ** What the ledger and the best hours are drawn from *)

Lemma settledLedger_questions (msgs : list Message) (idx : Z) (q : questionStatus) :
  In q (settledLedger idx msgs) ->
  idx <= q_Index q
  /\ msgs !! Z.to_nat (q_Index q - idx) = Some (q_Message q)
  /\ shouldTrackQuestion (q_Message q) (messageText (q_Message q)) = true.
Proof.
  revert idx. induction msgs as [|m rest IH]; intros idx Hq; cbn [settledLedger] in Hq;
    [destruct Hq|].
  apply in_app_or in Hq as [Hq|Hq].
  - destruct (shouldTrackQuestion m (messageText m)) eqn:Htrack; [|destruct Hq].
    destruct Hq as [<-|[]]. unfold settle.
    destruct (List.find _ rest); cbn [q_Message q_Index markResolved newQuestion];
      (split; [lia|]); rewrite Z.sub_diag; (split; [reflexivity | exact Htrack]).
  - destruct (IH (idx + 1) Hq) as (Hidx & Hat & Htrack).
    split; [lia|]. split; [|exact Htrack].
    replace (Z.to_nat (q_Index q - idx)) with (S (Z.to_nat (q_Index q - (idx + 1)))) by lia.
    exact Hat.
Qed.

(** X25.  Every entry of the ledger stands for the message of the input at
    the index that the entry records; that message is flagged as a
    question, has the message type 0, 1 or 49, and has a text of at least
    two runes that is not white space only. *)
Theorem ledger_questions_only (msgs : list Message) :
  Forall (fun q =>
            0 <= q_Index q
            /\ msgs !! Z.to_nat (q_Index q) = Some (q_Message q)
            /\ Msg_IsQuestion (q_Message q) = true
            /\ (Msg_MsgType (q_Message q) = 0 \/ Msg_MsgType (q_Message q) = 1
                \/ Msg_MsgType (q_Message q) = 49)
            /\ strings_TrimSpace (messageText (q_Message q)) <> ""
            /\ 2 <= runeLen (messageText (q_Message q)))
         (ledger msgs).
Proof.
  unfold ledger. rewrite rangeMsgs_settled by constructor. cbn [questions loopInit map app].
  apply List.Forall_forall. intros q Hq.
  destruct (settledLedger_questions msgs 0 q Hq) as (Hidx & Hat & Htrack).
  rewrite Z.sub_0_r in Hat.
  split; [exact Hidx|]. split; [exact Hat|]. unfold shouldTrackQuestion in Htrack.
  destruct (Msg_IsQuestion (q_Message q)); [|discriminate]. cbn [negb] in Htrack.
  split; [reflexivity|].
  destruct (Z.eqb_spec (Msg_MsgType (q_Message q)) 0) as [Et0|Nt0];
    destruct (Z.eqb_spec (Msg_MsgType (q_Message q)) 1) as [Et1|Nt1];
    destruct (Z.eqb_spec (Msg_MsgType (q_Message q)) 49) as [Et49|Nt49];
    cbn [negb andb] in Htrack; try discriminate;
    (split; [tauto|]);
    (destruct (String.eqb_spec (strings_TrimSpace (messageText (q_Message q))) "")
       as [|Htext]; [discriminate|]);
    (split; [exact Htext|]);
    (destruct (Z.ltb_spec (runeLen (messageText (q_Message q))) 2); [discriminate | lia]).
Qed.

Lemma hourCounts_fold (ord : MapOrder) (lastT : Time) (qs : list questionStatus)
    (st : debtState) (h : Z) :
  is_Some (hourCounts (fold_left (debtStep ord lastT) qs st) !! h) ->
  is_Some (hourCounts st !! h)
  \/ exists q, In q qs /\ q_Resolved q = true /\ q_ResponseHour q = h.
Proof.
  revert st. induction qs as [|q qs IH]; intros st Hh; cbn [fold_left] in Hh; [now left|].
  apply IH in Hh as [Hh|(q' & Hq' & Hres)]; [|right; exists q'; split; [now right | exact Hres]].
  unfold debtStep in Hh. destruct (q_Resolved q) eqn:Hres; cbn [hourCounts] in Hh;
    [|now left].
  destruct (0 <=? q_ResponseHour q); [|now left].
  unfold incr in Hh. destruct (decide (q_ResponseHour q = h)) as [Heq|Hne].
  - right. exists q. split; [now left | now split].
  - rewrite lookup_insert_ne in Hh by exact Hne. now left.
Qed.

Lemma bestHours_members (ord : MapOrder) (counts : gmap Z Z) (limit : Z) :
  (0 < limit -> Z.of_nat (length (bestHours ord counts limit)) <= limit)
  /\ forall h, In h (bestHours ord counts limit) -> 0 <= h /\ is_Some (counts !! h).
Proof.
  destruct (Z.eq_dec limit 0) as [->|Hlimit].
  { unfold bestHours. rewrite orb_true_r. split; [lia | intros h []]. }
  rewrite bestHours_unfold by exact Hlimit.
  destruct (hourEntries_spec ord counts) as [_ Hin].
  pose proof (sort_Slice_perm lessHour
    (List.filter (fun e => negb (fst e <? 0)) (rangeOrder ord (map_to_list counts))))
    as Hperm.
  set (arr := sort_Slice lessHour _) in *.
  split.
  - intros Hpos. rewrite length_map, length_take.
    destruct (Z.ltb_spec 0 limit); lia.
  - intros h Hh. apply in_map_iff in Hh as ([h' c] & <- & He).
    assert (Harr : In (h', c) arr).
    { rewrite <- (take_drop (if 0 <? limit then Z.to_nat limit else length arr) arr).
      apply in_or_app. now left. }
    apply (Permutation_in _ Hperm), Hin in Harr as [Hc Hpos]. cbn. eauto.
Qed.

(** X26.  The reply debt names at most three best response hours; each is
    an hour of the day, and it is the hour at which some question of the
    ledger was resolved. *)
Theorem bestResponseHours_spec (ord : MapOrder) (msgs : list Message) :
  let rd := Summary_ReplyDebt (BuildSummary ord msgs) in
  (length (BestResponseHours rd) <= 3)%nat
  /\ Forall (fun h => 0 <= h < 24
                      /\ exists q, In q (ledger msgs) /\ q_Resolved q = true
                                   /\ q_ResponseHour q = h)
            (BestResponseHours rd).
Proof.
  intros rd. subst rd. unfold BuildSummary. cbn [Summary_ReplyDebt].
  fold (ledger msgs). unfold buildReplyDebt.
  destruct (length (ledger msgs) =? 0)%nat; [split; [cbn; lia | constructor]|].
  cbn [BestResponseHours].
  destruct (bestHours_members ord
              (hourCounts (fold_left (debtStep ord (lastTime (rangeMsgs 0 msgs loopInit)))
                                     (ledger msgs) debtInit)) 3) as [Hlen Hin].
  split; [specialize (Hlen ltac:(lia)); lia|].
  apply List.Forall_forall. intros h Hh. apply Hin in Hh as [_ Hsome].
  apply hourCounts_fold in Hsome as [Hsome|(q & Hq & Hres & Hhour)].
  { cbn in Hsome. rewrite lookup_empty in Hsome. now destruct Hsome. }
  assert (Hq' := Hq). unfold ledger in Hq'. rewrite rangeMsgs_settled in Hq' by constructor.
  cbn [questions loopInit map app] in Hq'.
  destruct (settledLedger_entries msgs 0 q Hq') as (_ & _ & _ & Hcases).
  destruct Hcases as [(Hopen & _)|(_ & r & _ & _ & _ & Hr & _)]; [congruence|].
  split; [rewrite <- Hhour, Hr; apply Hour_range|]. exists q. now split.
Qed.

(** ** Group vibes *)

Local Open Scope Q_scope.

Lemma Qlt_bool_false (a b : Q) : Qlt_bool a b = false -> b <= a.
Proof.
  unfold Qlt_bool. intros Hlt. apply negb_false_iff in Hlt.
  now apply Qle_bool_iff.
Qed.

Lemma clamp01_range (v : Q) : 0 <= clamp01 v <= 1.
Proof.
  unfold clamp01. destruct (Qlt_bool v 0) eqn:Hneg; [split; discriminate|].
  destruct (Qlt_bool 1 v) eqn:Hbig; [split; discriminate|].
  split; now apply Qlt_bool_false.
Qed.

Lemma math_Round_comp (q q' : Q) : q == q' -> math_Round q = math_Round q'.
Proof.
  intros Heq. unfold math_Round.
  rewrite (Qleb_comp 0 0 (Qeq_refl 0) q q' Heq).
  destruct (Qle_bool 0 q').
  - apply Qfloor_comp. now rewrite Heq.
  - f_equal. apply Qfloor_comp. now rewrite Heq.
Qed.

(** Rounding a value between 0 and 100.4 gives an integer between 0 and
    100. *)
Lemma math_Round_percent (q : Q) : 0 <= q <= 100.4 -> (0 <= math_Round q <= 100)%Z.
Proof.
  intros [Hlo Hhi]. unfold math_Round.
  apply Qle_bool_iff in Hlo as Hlo'. rewrite Hlo'. split.
  - change 0%Z with (Qfloor 0). apply Qfloor_resp_le. lra.
  - change 100%Z with (Qfloor 100.9). apply Qfloor_resp_le. lra.
Qed.

(** The rounding of a value in [0, b] is in [0, 1.0001 b]. *)
Lemma fl_range (x b : Q) : 0 <= x <= b -> 0 <= fl x <= b * 1.0001.
Proof.
  intros [Hlo Hhi]. pose proof (fl_error x) as Herr.
  rewrite (Qabs_pos x Hlo) in Herr.
  apply Qabs_Qle_condition in Herr. lra.
Qed.

Lemma fl_one : fl 1 == 1.
Proof.
  rewrite (fl_proper 1 (inject_Z 1 * 2 ^ 0)) by reflexivity.
  rewrite fl_exact by (cbn; lia). reflexivity.
Qed.

Lemma Qmult_range (a c b : Q) : 0 <= a <= 1 -> 0 <= c <= b -> 0 <= a * c <= b.
Proof. intros [Ha0 Ha1] [Hc0 Hcb]. split; nra. Qed.

Lemma roundTo_2_range (v : Q) : 0 <= v <= 1 -> 0 <= roundTo v 2 <= 1.
Proof.
  intros Hv. unfold roundTo. cbn [Z.ltb Z.compare].
  change (inject_Z (10 ^ 2)) with 100%Q. unfold fmul, fdiv.
  destruct (fl_range (v * 100) 100) as [Hx0 Hx1]; [lra|].
  destruct (math_Round_percent (fl (v * 100))) as [Hlo Hhi]; [lra|].
  set (k := math_Round (fl (v * 100))) in *.
  destruct (Z.eq_dec k 100%Z) as [Hk|Hk].
  - rewrite Hk. rewrite (fl_proper (inject_Z 100 / 100) 1) by reflexivity.
    rewrite fl_one. split; discriminate.
  - assert (Hk0 : 0 <= inject_Z k).
    { change 0%Q with (inject_Z 0). rewrite <- Zle_Qle. lia. }
    assert (Hk99 : inject_Z k <= 99).
    { change 99%Q with (inject_Z 99). rewrite <- Zle_Qle. lia. }
    destruct (fl_range (inject_Z k / 100) 0.99) as [Hr0 Hr1]; [|lra].
    split.
    + apply Qle_shift_div_l; [reflexivity | lra].
    + apply Qle_shift_div_r; [reflexivity | lra].
Qed.

(** The weighted sum of four sub-scores, times 100, rounds to an integer
    between 0 and 100. *)
Lemma vibeScore_range (activity sentiment infoDensity balanced : Q) :
  0 <= activity <= 1 -> 0 <= sentiment <= 1 ->
  0 <= infoDensity <= 1 -> 0 <= balanced <= 1 ->
  (0 <= vibeScore activity sentiment infoDensity balanced <= 100)%Z.
Proof.
  intros Ha Hs Hi Hb. unfold vibeScore, fmul, fadd, fconst.
  destruct (fl_range 0.35 0.35) as [Hc1 Hc1']; [lra|].
  destruct (fl_range 0.3 0.3) as [Hc2 Hc2']; [lra|].
  destruct (fl_range 0.2 0.2) as [Hc3 Hc3']; [lra|].
  destruct (fl_range 0.15 0.15) as [Hc4 Hc4']; [lra|].
  pose proof (Qmult_range activity (fl 0.35) _ Ha (conj Hc1 Hc1')) as Hp1.
  pose proof (Qmult_range sentiment (fl 0.3) _ Hs (conj Hc2 Hc2')) as Hp2.
  pose proof (Qmult_range infoDensity (fl 0.2) _ Hi (conj Hc3 Hc3')) as Hp3.
  pose proof (Qmult_range balanced (fl 0.15) _ Hb (conj Hc4 Hc4')) as Hp4.
  pose proof (fl_range _ _ Hp1) as Ht1. pose proof (fl_range _ _ Hp2) as Ht2.
  pose proof (fl_range _ _ Hp3) as Ht3. pose proof (fl_range _ _ Hp4) as Ht4.
  set (t1 := fl (activity * fl 0.35)) in *. set (t2 := fl (sentiment * fl 0.3)) in *.
  set (t3 := fl (infoDensity * fl 0.2)) in *. set (t4 := fl (balanced * fl 0.15)) in *.
  destruct (fl_range (t1 + t2) 0.6502) as [Hs1 Hs1']; [lra|].
  set (s1 := fl (t1 + t2)) in *.
  destruct (fl_range (s1 + t3) 0.8504) as [Hs2 Hs2']; [lra|].
  set (s2 := fl (s1 + t3)) in *.
  destruct (fl_range (s2 + t4) 1.0006) as [Hs3 Hs3']; [lra|].
  set (s3 := fl (s2 + t4)) in *.
  destruct (fl_range (s3 * 100) 100.1) as [Hx Hx']; [lra|].
  apply math_Round_percent. lra.
Qed.

(** A weight may be written on either side, and with a final zero. *)
Lemma weight_comm (x c c' : Q) : c == c' -> fl (x * fl c) == fl (fl c' * x).
Proof.
  intros Hc. apply fl_proper. rewrite Qmult_comm.
  apply Qmult_comp; [now apply fl_proper | reflexivity].
Qed.

(** C4.  For a non-empty input, with [T] the number of messages: the four
    sub-scores activity, sentiment, information density and controversy are
    clamped values in [0,1], and so are the values the record shows, which
    are the sub-scores rounded to two decimals; the score is the nearest
    integer to 100 * (0.35 activity + 0.30 sentiment + 0.20 infoDensity
    + 0.15 balanced), with balanced = clamp (1 - |0.35 - controversy| / 0.35),
    all in [float64] arithmetic; and the score is between 0 and 100. *)
Theorem groupVibes_bounds (ord : MapOrder) (msgs : list Message) :
  msgs <> [] ->
  let st := rangeMsgs 0 msgs loopInit in
  let gv := Summary_GroupVibes (BuildSummary ord msgs) in
  let T := float64 (Z.of_nat (length msgs)) in
  let U := float64 (Z.of_nat (size (senderCount st))) in
  let a := analytics st in
  let activity := clamp01 (T ⊘ 80 ⊕ U ⊘ 25)%float in
  let sentiment :=
    clamp01 (0.5 ⊕ (sentimentPos a ⊖ sentimentNeg a) ⊘ (T ⊗ 1.5))%float in
  let infoDensity := clamp01 (float64 (infoDense a) ⊘ T)%float in
  let controversy :=
    clamp01 (float64 (questionMsg a + mentionMsg a + exclaimMsg a) ⊘ (T ⊗ 1))%float in
  let balanced := clamp01 (1 ⊖ Qabs (fconst 0.35 ⊖ controversy) ⊘ fconst 0.35)%float in
  (0 <= activity <= 1 /\ 0 <= sentiment <= 1
   /\ 0 <= infoDensity <= 1 /\ 0 <= controversy <= 1)
  /\ (Activity gv = roundTo activity 2 /\ Sentiment gv = roundTo sentiment 2
      /\ InfoDensity gv = roundTo infoDensity 2
      /\ Controversy gv = roundTo controversy 2)
  /\ (0 <= Activity gv <= 1 /\ 0 <= Sentiment gv <= 1
      /\ 0 <= InfoDensity gv <= 1 /\ 0 <= Controversy gv <= 1)
  /\ Score gv
     = math_Round (100 ⊗ (fconst 0.35 ⊗ activity ⊕ fconst 0.30 ⊗ sentiment
                          ⊕ fconst 0.20 ⊗ infoDensity ⊕ fconst 0.15 ⊗ balanced))%float
  /\ (0 <= Score gv <= 100)%Z.
Proof.
  intros Hne st gv T U a activity sentiment infoDensity controversy balanced.
  pose proof (clamp01_range (T ⊘ 80 ⊕ U ⊘ 25)%float) as Ha.
  pose proof (clamp01_range
                (0.5 ⊕ (sentimentPos a ⊖ sentimentNeg a) ⊘ (T ⊗ 1.5))%float) as Hs.
  pose proof (clamp01_range (float64 (infoDense a) ⊘ T)%float) as Hi.
  pose proof (clamp01_range
                (float64 (questionMsg a + mentionMsg a + exclaimMsg a)
                 ⊘ (T ⊗ 1))%float) as Hc.
  pose proof (clamp01_range
                (1 ⊖ Qabs (fconst 0.35 ⊖ controversy) ⊘ fconst 0.35)%float) as Hb.
  fold activity in Ha. fold sentiment in Hs. fold infoDensity in Hi.
  fold controversy in Hc. fold balanced in Hb.
  assert (Hgv : gv = {| Score := vibeScore activity sentiment infoDensity balanced;
                        Activity := roundTo activity 2;
                        Sentiment := roundTo sentiment 2;
                        InfoDensity := roundTo infoDensity 2;
                        Controversy := roundTo controversy 2;
                        Tone := Tone gv;
                        Reasons := Reasons gv |}).
  { subst gv. unfold BuildSummary. cbn [Summary_GroupVibes]. unfold buildGroupVibes.
    cbn [TotalMessages].
    destruct (Z.eqb_spec (Z.of_nat (length msgs)) 0) as [Hlen|_].
    - destruct msgs; [congruence | discriminate Hlen].
    - reflexivity. }
  rewrite Hgv. cbn [Score Activity Sentiment InfoDensity Controversy].
  split; [tauto|]. split; [tauto|].
  split; [repeat split; now apply roundTo_2_range|].
  split; [|now apply vibeScore_range].
  unfold vibeScore, fmul, fadd, fconst.
  apply math_Round_comp, fl_proper.
  rewrite (Qmult_comm 100). apply Qmult_comp; [|reflexivity].
  apply fl_proper. apply Qplus_comp; [|now apply weight_comm].
  apply fl_proper. apply Qplus_comp; [|now apply weight_comm].
  apply fl_proper. apply Qplus_comp; now apply weight_comm.
Qed.

(** ** Ages and latencies *)

Lemma Qlt_bool_true (a b : Q) : Qlt_bool a b = true -> a < b.
Proof.
  unfold Qlt_bool. intros Hlt. apply negb_true_iff in Hlt.
  apply Qnot_le_lt. intros Hle. apply Qle_bool_iff in Hle. congruence.
Qed.

Lemma fl_nonneg (x : Q) : 0 <= x -> 0 <= fl x.
Proof. intros Hx. destruct (fl_range x x) as [Hlo _]; [split; [exact Hx | apply Qle_refl] | exact Hlo]. Qed.

Lemma math_Round_nonneg (q : Q) : 0 <= q -> (0 <= math_Round q)%Z.
Proof.
  intros Hq. unfold math_Round.
  assert (Hle : Qle_bool 0 q = true) by now apply Qle_bool_iff.
  rewrite Hle. change 0%Z with (Qfloor 0). apply Qfloor_resp_le. lra.
Qed.

Lemma roundTo_nonneg (v : Q) (digits : Z) : 0 <= v -> 0 <= roundTo v digits.
Proof.
  intros Hv. unfold roundTo, fmul, fdiv.
  set (d := if (digits <? 0)%Z then 0%Z else digits).
  assert (Hd : (0 <= d)%Z) by (subst d; destruct (Z.ltb_spec digits 0); lia).
  assert (Hfactor : 0 < inject_Z (10 ^ d)).
  { change 0 with (inject_Z 0). rewrite <- Zlt_Qlt. now apply Z.pow_pos_nonneg. }
  generalize dependent (inject_Z (10 ^ d)). intros factor Hfactor.
  apply fl_nonneg. apply Qle_shift_div_l; [exact Hfactor|]. rewrite Qmult_0_l.
  change 0 with (inject_Z 0). rewrite <- Zle_Qle. apply math_Round_nonneg.
  apply fl_nonneg. apply Qmult_le_0_compat; [exact Hv | now apply Qlt_le_weak].
Qed.

Lemma debt_fold_totals (ord : MapOrder) (lastT : Time) (qs : list questionStatus)
    (st : debtState) :
  0 <= totalResponse st -> 0 <= responseCount st ->
  0 <= totalResponse (fold_left (debtStep ord lastT) qs st)
  /\ 0 <= responseCount (fold_left (debtStep ord lastT) qs st).
Proof.
  revert st. induction qs as [|q qs IH]; intros st Ht Hc; cbn [fold_left]; [now split|].
  apply IH; unfold debtStep; destruct (q_Resolved q); cbn [totalResponse responseCount];
    try assumption.
  - destruct (Qlt_bool 0 (q_ResponseMinutes q)) eqn:Hpos; [|assumption].
    apply Qlt_bool_true in Hpos. unfold fadd. apply fl_nonneg. lra.
  - destruct (Qlt_bool 0 (q_ResponseMinutes q)); [|assumption].
    unfold fadd. apply fl_nonneg. lra.
Qed.

(** X12.  In the reply debt of any ledger, the age of an open question is
    not negative, whatever the times of the messages are, and neither is the
    average response time. *)
Theorem buildReplyDebt_nonneg (ord : MapOrder) (qs : list questionStatus) (lastT : Time) :
  let rd := buildReplyDebt ord qs lastT in
  Forall (fun item => 0 <= Item_AgeMinutes item) (Outstanding rd)
  /\ 0 <= AvgResponseMinutes rd.
Proof.
  intros rd. subst rd. destruct (buildReplyDebt_lists ord lastT qs) as [Ho _].
  rewrite Ho. split.
  - apply List.Forall_map, List.Forall_forall. intros q _.
    unfold outstandingItem. cbn [Item_AgeMinutes baseItem].
    destruct (negb (time.IsZero lastT) && negb (time.IsZero (q_AskedAt q)));
      [|apply Qle_refl].
    apply roundTo_nonneg.
    destruct (Qlt_bool (time.Minutes (time.Sub lastT (q_AskedAt q))) 0) eqn:Hneg;
      [apply Qle_refl | now apply Qlt_bool_false].
  - unfold buildReplyDebt. destruct (length qs =? 0)%nat; [apply Qle_refl|].
    cbn [AvgResponseMinutes].
    destruct (debt_fold_totals ord lastT qs debtInit) as [Ht Hc];
      [apply Qle_refl | apply Qle_refl |].
    destruct (Qlt_bool 0 (responseCount _)) eqn:Hpos; [|apply Qle_refl].
    apply Qlt_bool_true in Hpos. apply roundTo_nonneg. unfold fdiv. apply fl_nonneg.
    apply Qle_shift_div_l; [exact Hpos|]. now rewrite Qmult_0_l.
Qed.

Local Open Scope Z_scope.

End Properties.


(** * Properties of the views, of the sample and of the envelope *)

Section Views.
Context `{GoLib} `{Tables} `{Float64} `{ClockFormat}.

(** X17.  [firstNonEmpty] on strings returns the first argument that is not
    empty or white space, as it is, and the empty string when there is
    none; [firstNonEmptyStr] is the same function. *)
Theorem firstNonEmpty_first (vals : list string) :
  let v := insight.firstNonEmpty vals in
  render.firstNonEmptyStr vals = v
  /\ ((v = "" /\ Forall (fun s => strings_TrimSpace s = "") vals)
      \/ (exists pre post,
            vals = pre ++ v :: post
            /\ Forall (fun s => strings_TrimSpace s = "") pre
            /\ strings_TrimSpace v <> "")).
Proof.
  induction vals as [|x vals [IHeq IH]]; cbn [insight.firstNonEmpty render.firstNonEmptyStr].
  - split; [reflexivity|]. left. split; [reflexivity | constructor].
  - destruct (String.eqb_spec (strings_TrimSpace x) "") as [Hblank|Hsome]; cbn [negb].
    + split; [exact IHeq|]. destruct IH as [[Hv Hall]|(pre & post & Hvals & Hpre & Hv)].
      * left. split; [exact Hv | now constructor].
      * right. exists (x :: pre), post. split; [cbn; now f_equal|]. split; [now constructor | exact Hv].
    + split; [reflexivity|]. right. exists [], vals. split; [reflexivity|].
      split; [constructor | exact Hsome].
Qed.

(** X18.  The sender that a sample names is the display name that the
    summary uses for the message; when the message has no display name, it
    is the anonymous label. *)
Theorem chooseSender_senderDisplay (m : Message) :
  (insight.chooseSender m = senderDisplay m
   /\ strings_TrimSpace (senderDisplay m) <> "")
  \/ (insight.chooseSender m = "匿名" /\ senderDisplay m = "").
Proof.
  unfold insight.chooseSender, senderDisplay.
  destruct (String.eqb_spec (strings_TrimSpace (Msg_SenderName m)) ""); cbn [negb]; [|now left].
  destruct (String.eqb_spec (strings_TrimSpace (Msg_Nickname m)) ""); cbn [negb]; [|now left].
  destruct (String.eqb_spec (strings_TrimSpace (Msg_Sender m)) ""); cbn [negb]; [|now left].
  destruct (String.eqb_spec (strings_TrimSpace (Msg_From m)) ""); cbn [negb]; [|now left].
  now right.
Qed.

Lemma append_nonempty (a b : string) : b <> "" -> (a +:+ b)%string <> "".
Proof. destruct a; cbn; [auto | discriminate]. Qed.

Lemma sampleLoop_spec (msgs all : list Message) (limit maxChars : Z)
    (out : list (gmap string string)) :
  (forall m, In m msgs -> In m all) ->
  0 < limit ->
  Z.of_nat (length out) <= limit ->
  Forall (fun s => exists m text, In m all /\ s = insight.sample m text /\ text <> "") out ->
  let res := insight.sampleLoop msgs limit maxChars out in
  Z.of_nat (length res) <= limit
  /\ (length res <= length out + length msgs)%nat
  /\ Forall (fun s => exists m text, In m all /\ s = insight.sample m text /\ text <> "") res.
Proof.
  revert out. induction msgs as [|m rest IH]; intros out Hsub Hlimit Hlen Hout;
    cbn [insight.sampleLoop].
  - split; [exact Hlen|]. split; [cbn; lia | exact Hout].
  - assert (Hsub' : forall x, In x rest -> In x all) by (intros x Hx; apply Hsub; now right).
    destruct (Z.leb_spec limit (Z.of_nat (length out))) as [Hfull|Hroom].
    + split; [exact Hlen|]. split; [cbn; lia | exact Hout].
    + set (text := strings_TrimSpace (insight.firstNonEmpty [Msg_Content m; Msg_Text m])).
      destruct (String.eqb text "" && negb (Msg_MsgType m =? 3)) eqn:Hskip.
      * destruct (IH out Hsub' Hlimit Hlen Hout) as (R1 & R2 & R3).
        split; [exact R1|]. split; [cbn [length]; lia | exact R3].
      * set (shown := if String.eqb text "" then "[图片消息]" else text).
        assert (Hshown : shown <> "").
        { subst shown. destruct (String.eqb_spec text ""); [discriminate | assumption]. }
        set (final := if maxChars <? Z.of_nat (length (utf8_runes shown))
                      then (utf8_string (take (Z.to_nat maxChars) (utf8_runes shown)) +:+ "...")%string
                      else shown).
        assert (Hfinal : final <> "").
        { subst final. destruct (maxChars <? Z.of_nat (length (utf8_runes shown)));
            [apply append_nonempty; discriminate | exact Hshown]. }
        destruct (IH (out ++ [insight.sample m final]) Hsub' Hlimit) as (R1 & R2 & R3).
        -- rewrite length_app. cbn [length]. lia.
        -- apply Forall_app. split; [exact Hout|]. constructor; [|constructor].
           exists m, final. split; [apply Hsub; now left | now split].
        -- split; [exact R1|]. split; [|exact R3].
           rewrite length_app in R2. cbn [length] in *. lia.
Qed.

(** X19.  [sampleMessages] returns at most [limit] samples, or 60 when
    [limit] is not positive, and never more than there are messages; each
    sample is made from a message of the input and its text is not empty. *)
Theorem sampleMessages_bounds (msgs : list Message) (limit maxChars : Z) :
  let out := insight.sampleMessages msgs limit maxChars in
  Z.of_nat (length out) <= (if limit <=? 0 then 60 else limit)
  /\ (length out <= length msgs)%nat
  /\ Forall (fun s => exists m text, In m msgs /\ s = insight.sample m text /\ text <> "")
            out.
Proof.
  intros out. subst out. unfold insight.sampleMessages.
  destruct (sampleLoop_spec msgs msgs (if limit <=? 0 then 60 else limit)
              (if maxChars <=? 0 then 260 else maxChars) []) as (R1 & R2 & R3).
  - auto.
  - destruct (Z.leb_spec limit 0); lia.
  - cbn. destruct (Z.leb_spec limit 0); lia.
  - constructor.
  - split; [exact R1|]. split; [exact R2 | exact R3].
Qed.

(** X20.  The keyword views of the day page, built with the limit 20 that
    [DayHTML] passes, show every keyword of the summary with its count, in
    the order of the summary. *)
Theorem keywordViews_complete (ord : MapOrder) (msgs : list Message) :
  render.buildKeywordViews (Keywords (BuildSummary ord msgs)) 20
  = map (fun kv => {| KeywordView_Text := Key kv; KeywordView_Count := Count kv |})
        (Keywords (BuildSummary ord msgs)).
Proof.
  unfold render.buildKeywordViews.
  assert (Hlen : (length (Keywords (BuildSummary ord msgs)) <= 20)%nat).
  { unfold BuildSummary. cbn [Keywords]. unfold topK. rewrite length_take. lia. }
  destruct (Z.ltb_spec 20 (Z.of_nat (length (Keywords (BuildSummary ord msgs)))));
    [lia|]. reflexivity.
Qed.

End Views.

Section Envelope.
Context `{GoLib} `{Tables} `{Float64}.

Lemma float64_exact (n : Z) : Z.abs n < 2 ^ 53 -> (float64 n == inject_Z n)%Q.
Proof.
  intros Hn. unfold float64.
  rewrite (fl_proper (inject_Z n) (inject_Z n * 2 ^ 0)%Q) by (cbn; ring).
  rewrite (fl_exact n 0 Hn). cbn. ring.
Qed.

Lemma maxCount_fold (hist : list Z) (a : Z) :
  let M := fold_left (fun max v => if max <? v then v else max) hist a in
  a <= M /\ Forall (fun v => v <= M) hist /\ (M = a \/ In M hist).
Proof.
  revert a. induction hist as [|x hist IH]; intros a; cbn [fold_left].
  - split; [lia|]. split; [constructor | now left].
  - destruct (IH (if a <? x then x else a)) as (Hge & Hall & Hwho).
    destruct (Z.ltb_spec a x) as [Hlt|Hle].
    + split; [lia|]. split; [constructor; [lia | exact Hall]|].
      destruct Hwho as [->|Hin]; right; [now left | now right].
    + split; [lia|]. split; [constructor; [lia | exact Hall]|].
      destruct Hwho as [->|Hin]; [now left | right; now right].
Qed.

Lemma activitySeries_lookup (hist : list Z) (h : nat) (c : Z) :
  hist !! h = Some c ->
  render.buildActivitySeries hist !! h
  = Some {| Slot_Label := fmt_Sprintf "%02d" [ArgInt (Z.of_nat h)];
            Slot_Count := c;
            Slot_Percent :=
              if 0 <? render.maxCount hist
              then (float64 c ⊘ float64 (render.maxCount hist) ⊗ 100)%float else 0%Q |}.
Proof.
  intros Hc. unfold render.buildActivitySeries. now rewrite list_lookup_imap, Hc.
Qed.

(** X21.  The activity series of the day page has one slot for each bucket
    of the histogram, with the count of the bucket.  When no message is
    counted in the histogram every slot stands at 0 percent; otherwise the
    slot of the peak hour stands at exactly 100 percent. *)
Theorem activitySeries_peak (ord : MapOrder) (msgs : list Message) :
  Z.of_nat (length msgs) < 2 ^ 53 ->
  let s := BuildSummary ord msgs in
  let series := render.buildActivitySeries (HourlyHistogram s) in
  map Slot_Count series = HourlyHistogram s
  /\ exists c slot,
       HourlyHistogram s !! Z.to_nat (PeakHour s) = Some c
       /\ series !! Z.to_nat (PeakHour s) = Some slot
       /\ (c = 0 -> Forall (fun slot => Slot_Percent slot = 0%Q) series)
       /\ (0 < c -> (Slot_Percent slot == 100)%Q).
Proof.
  intros Hsize s series.
  assert (Hhist : HourlyHistogram s
                  = map (fun h => countIf (countedAt (Z.of_nat h)) msgs) (List.seq 0 24))
    by apply (histogram_table ord msgs).
  assert (Hbound : Forall (fun v => 0 <= v <= Z.of_nat (length msgs)) (HourlyHistogram s)).
  { rewrite Hhist. apply List.Forall_map, List.Forall_forall. intros h _.
    split; [unfold countIf; lia | apply countIf_le_length]. }
  destruct (peakLoop_spec (HourlyHistogram s) [] 0 0) as (c & _ & Hc & Hmax & _).
  { eapply List.Forall_impl; [|exact Hbound]. cbn. intros; lia. }
  { lia. }
  { constructor. }
  { intros n v Hn. discriminate Hn. }
  { now left. }
  { left. rewrite Hhist. discriminate. }
  change (Z.of_nat (length (@nil Z))) with 0 in Hc. cbn [app] in Hc, Hmax.
  change (peakLoop 0 (HourlyHistogram s) 0 0) with (PeakHour s) in Hc.
  destruct (maxCount_fold (HourlyHistogram s) 0) as (HM0 & HMall & HMwho).
  fold (render.maxCount (HourlyHistogram s)) in HM0, HMall, HMwho.
  assert (Hcin : In c (HourlyHistogram s))
    by (eapply list_elem_of_In, list_elem_of_lookup_2; eauto).
  assert (HcM : render.maxCount (HourlyHistogram s) = c).
  { pose proof (proj1 (List.Forall_forall _ _) HMall c Hcin) as HcM. cbn beta in HcM.
    pose proof (proj1 (List.Forall_forall _ _) Hbound c Hcin) as Hc0. cbn beta in Hc0.
    destruct HMwho as [HM|HM]; [lia|].
    pose proof (proj1 (List.Forall_forall _ _) Hmax _ HM) as HMc. cbn beta in HMc. lia. }
  split.
  - subst series. apply list_eq. intros h. rewrite lookup_map.
    destruct (HourlyHistogram s !! h) as [v|] eqn:Hv.
    + now rewrite (activitySeries_lookup _ h v Hv).
    + unfold render.buildActivitySeries. now rewrite list_lookup_imap, Hv.
  - exists c. eexists. split; [exact Hc|].
    split; [subst series; apply (activitySeries_lookup _ _ c Hc)|].
    cbn [Slot_Percent]. rewrite HcM. split.
    + intros Hzero. apply List.Forall_forall. intros slot Hslot.
      apply list_elem_of_In, list_elem_of_lookup in Hslot as [h Hslot].
      subst series. destruct (HourlyHistogram s !! h) as [v|] eqn:Hv.
      * rewrite (activitySeries_lookup _ h v Hv) in Hslot. injection Hslot as <-.
        cbn [Slot_Percent].
        change (histogram (rangeMsgs 0 msgs loopInit)) with (HourlyHistogram s).
        rewrite HcM, Hzero. reflexivity.
      * unfold render.buildActivitySeries in Hslot.
        rewrite list_lookup_imap, Hv in Hslot. discriminate Hslot.
    + intros Hpos. destruct (Z.ltb_spec 0 c) as [_|Hle]; [|lia].
      pose proof (proj1 (List.Forall_forall _ _) Hbound c Hcin) as Hcb. cbn beta in Hcb.
      assert (Hexact : (float64 c == inject_Z c)%Q) by (apply float64_exact; lia).
      assert (Hne : ~ (inject_Z c == 0)%Q).
      { change 0%Q with (inject_Z 0). rewrite inject_Z_injective. lia. }
      unfold fmul, fdiv.
      assert (Hone : (fl (float64 c / float64 c) == 1)%Q).
      { rewrite (fl_proper (float64 c / float64 c) (inject_Z 1 * 2 ^ 0)%Q).
        - rewrite (fl_exact 1 0) by (cbn; lia). reflexivity.
        - rewrite Hexact. cbn. field. exact Hne. }
      rewrite (fl_proper (fl (float64 c / float64 c) * 100) (inject_Z 100 * 2 ^ 0)%Q).
      * rewrite (fl_exact 100 0) by (cbn; lia). reflexivity.
      * rewrite Hone. reflexivity.
Qed.

Lemma metaFold_lookup (l : list (string * any)) (acc : gmap string any) (k j : string) :
  NoDup (map fst l) ->
  fold_left (fun meta e => if String.eqb (fst e) k then meta else <[fst e := snd e]> meta)
            l acc !! j
  = if String.eqb j k then acc !! j
    else match (list_to_map l : gmap string any) !! j with
         | Some v => Some v
         | None => acc !! j
         end.
Proof.
  revert acc. induction l as [|[a v] l IH]; intros acc Hnd; cbn [fold_left fst snd].
  - destruct (String.eqb j k); [reflexivity|]. now rewrite list_to_map_nil, lookup_empty.
  - cbn [map fst] in Hnd. apply NoDup_cons in Hnd as [Hnotin Hnd].
    rewrite IH by exact Hnd. cbn [list_to_map foldr uncurry].
    change (foldr _ ∅ l) with (list_to_map l : gmap string any).
    destruct (String.eqb_spec j k) as [Hjk|Hjk].
    + rewrite Hjk. destruct (String.eqb_spec a k) as [Hak|Hak]; [reflexivity|].
      now rewrite lookup_insert_ne.
    + destruct (decide (a = j)) as [->|Haj].
      * rewrite lookup_insert_eq.
        destruct (String.eqb_spec j k) as [|_]; [contradiction|].
        rewrite lookup_insert_eq.
        destruct ((list_to_map l : gmap string any) !! j) as [w|] eqn:Hw; [|reflexivity].
        exfalso. apply Hnotin. apply elem_of_list_to_map_2 in Hw.
        apply list_elem_of_In, in_map_iff. exists (j, w).
        split; [reflexivity | now apply list_elem_of_In].
      * rewrite (lookup_insert_ne (list_to_map l)) by exact Haj.
        destruct (String.eqb a k); [reflexivity|].
        now rewrite lookup_insert_ne.
Qed.

Lemma metaOf_delete (ord : MapOrder) (x : gmap string any) (k : string) :
  client.metaOf ord x k = delete k x.
Proof.
  apply map_eq. intros j. unfold client.metaOf.
  assert (Hnd : NoDup (map fst (rangeOrder ord (map_to_list x)))).
  { rewrite (Permutation_map fst (rangeOrder_perm ord _ _)). apply NoDup_fst_map_to_list. }
  rewrite metaFold_lookup by exact Hnd.
  assert (Hmap : (list_to_map (rangeOrder ord (map_to_list x)) : gmap string any) = x).
  { rewrite <- (list_to_map_to_list x) at 2.
    apply list_to_map_proper; [exact Hnd | apply rangeOrder_perm]. }
  rewrite Hmap, lookup_empty.
  destruct (String.eqb_spec j k) as [->|Hjk].
  - now rewrite lookup_delete_eq.
  - rewrite lookup_delete_ne by congruence. now destruct (x !! j).
Qed.

(** X22.  On an object, [normalizeResponse] returns the array found under
    the first of the keys [data], [list], [messages], [items], [result]
    that holds an array, together with the object without that entry, so
    that nothing of the response is lost; the order of the range over the
    object does not matter.  When none of the five keys holds an array it
    returns nothing. *)
Theorem normalizeResponse_envelope (ord : MapOrder) (x : gmap string any) :
  match client.normalizeResponse ord (AMap x) with
  | (Some arr, Some meta) =>
      exists pre k post,
        client.envelopeKeys = pre ++ k :: post
        /\ (forall k' a, In k' pre -> x !! k' <> Some (ASlice a))
        /\ x !! k = Some (ASlice arr)
        /\ meta = delete k x
        /\ <[k := ASlice arr]> meta = x
  | (None, None) => forall k a, In k client.envelopeKeys -> x !! k <> Some (ASlice a)
  | _ => False
  end.
Proof.
  cbn [client.normalizeResponse].
  assert (Hgen : forall keys,
    match client.envelopeLoop ord x keys with
    | (Some arr, Some meta) =>
        exists pre k post,
          keys = pre ++ k :: post
          /\ (forall k' a, In k' pre -> x !! k' <> Some (ASlice a))
          /\ x !! k = Some (ASlice arr)
          /\ meta = delete k x
          /\ <[k := ASlice arr]> meta = x
    | (None, None) => forall k a, In k keys -> x !! k <> Some (ASlice a)
    | _ => False
    end).
  { induction keys as [|k keys IH]; cbn [client.envelopeLoop]; [intros k a []|].
    assert (Hnext : (forall a, x !! k <> Some (ASlice a)) ->
      match client.envelopeLoop ord x keys with
      | (Some arr, Some meta) =>
          exists pre k0 post,
            k :: keys = pre ++ k0 :: post
            /\ (forall k' a, In k' pre -> x !! k' <> Some (ASlice a))
            /\ x !! k0 = Some (ASlice arr)
            /\ meta = delete k0 x
            /\ <[k0 := ASlice arr]> meta = x
      | (None, None) => forall k0 a, In k0 (k :: keys) -> x !! k0 <> Some (ASlice a)
      | _ => False
      end).
    { intros Hk. destruct (client.envelopeLoop ord x keys) as [[arr|] [meta|]];
        try exact IH.
      - destruct IH as (pre & k0 & post & Hkeys & Hpre & Hrest).
        exists (k :: pre), k0, post. split; [cbn; now f_equal|].
        split; [|exact Hrest]. intros k' a [<-|Hk']; [apply Hk | now apply Hpre].
      - intros k0 a [<-|Hk0]; [apply Hk | now apply IH]. }
    destruct (x !! k) as [v|] eqn:Hv; [|apply Hnext; discriminate].
    destruct v; try (apply Hnext; discriminate).
    exists [], k, keys. split; [reflexivity|]. split; [intros k' a []|].
    split; [exact Hv|]. split; [apply metaOf_delete|].
    rewrite metaOf_delete. now apply insert_delete_id. }
  apply Hgen.
Qed.

(** X23.  [firstNonEmpty] on values returns the first argument that is
    neither nil nor a string that is empty or white space, and nil when
    there is none. *)
Theorem firstNonEmpty_any (vals : list any) :
  let v := client.firstNonEmpty vals in
  (v = ANil /\ forallb client.passedOver vals = true)
  \/ (exists pre post,
        vals = pre ++ v :: post
        /\ forallb client.passedOver pre = true
        /\ client.passedOver v = false).
Proof.
  induction vals as [|x vals IH]; cbn [client.firstNonEmpty forallb].
  - left. now split.
  - assert (Hskip : client.passedOver x = true ->
      (client.firstNonEmpty vals = ANil
       /\ client.passedOver x && forallb client.passedOver vals = true)
      \/ (exists pre post,
            x :: vals = pre ++ client.firstNonEmpty vals :: post
            /\ forallb client.passedOver pre = true
            /\ client.passedOver (client.firstNonEmpty vals) = false)).
    { intros Hx. destruct IH as [[Hv Hall]|(pre & post & Hvals & Hpre & Hv)].
      - left. split; [exact Hv | now rewrite Hx, Hall].
      - right. exists (x :: pre), post. split; [cbn; now f_equal|].
        split; [cbn; now rewrite Hx, Hpre | exact Hv]. }
    assert (Htake : client.passedOver x = false ->
      (x = ANil /\ client.passedOver x && forallb client.passedOver vals = true)
      \/ (exists pre post,
            x :: vals = pre ++ x :: post
            /\ forallb client.passedOver pre = true
            /\ client.passedOver x = false)).
    { intros Hx. right. exists [], vals. now split. }
    destruct x; try (apply Htake; reflexivity); [apply Hskip; reflexivity|].
    destruct (String.eqb (strings_TrimSpace s) "") eqn:Hblank; cbn [negb];
      [apply Hskip | apply Htake]; exact Hblank.
Qed.

(** X24.  [Defaults] leaves no numeric setting at zero, and applying it a
    second time changes nothing. *)
Theorem Defaults_idempotent (c : config.Config) :
  let d := config.Defaults c in
  config.Defaults d = d
  /\ config.RecentDays (config.Report d) <> 0
  /\ config.MessagePreview (config.Report d) <> 0
  /\ ~ (config.Temperature (config.LLM d) == 0)%Q
  /\ config.TimeoutSeconds (config.LLM d) <> 0
  /\ config.MaxMessages (config.LLM d) <> 0
  /\ config.MaxChars (config.LLM d) <> 0.
Proof.
  intros d. subst d.
  assert (Hfl : ~ (fconst 0.4 == 0)%Q).
  { unfold fconst. pose proof (fl_error 0.4) as Herr.
    rewrite (Qabs_pos 0.4) in Herr by discriminate.
    apply Qabs_Qle_condition in Herr. intros Hzero. rewrite Hzero in Herr.
    destruct Herr as [Herr _]. revert Herr. apply Qlt_not_le. reflexivity. }
  assert (Htemp : Qeq_bool
                    (if Qeq_bool (config.Temperature (config.LLM c)) 0
                     then fconst 0.4 else config.Temperature (config.LLM c)) 0 = false).
  { destruct (Qeq_bool (config.Temperature (config.LLM c)) 0) eqn:Ht; [|exact Ht].
    destruct (Qeq_bool (fconst 0.4) 0) eqn:Hf; [|reflexivity].
    apply Qeq_bool_iff in Hf. contradiction. }
  split; [|repeat split].
  - unfold config.Defaults. cbn [config.Chatlog config.Report config.LLM config.DataDir
      config.SiteDir config.RecentDays config.MessagePreview config.Enabled
      config.LLM_BaseURL config.Model config.APIKey config.Temperature
      config.TimeoutSeconds config.MaxMessages config.MaxChars].
    rewrite Htemp.
    assert (Htwice : forall n d, d <> 0 ->
              (if (if n =? 0 then d else n) =? 0 then d else (if n =? 0 then d else n))
              = (if n =? 0 then d else n)).
    { intros n d Hd. destruct (Z.eqb_spec n 0) as [_|Hn].
      - destruct (Z.eqb_spec d 0); [contradiction | reflexivity].
      - destruct (Z.eqb_spec n 0); [contradiction | reflexivity]. }
    rewrite !Htwice by discriminate. reflexivity.
  - cbn. destruct (Z.eqb_spec (config.RecentDays (config.Report c)) 0); lia.
  - cbn. destruct (Z.eqb_spec (config.MessagePreview (config.Report c)) 0); lia.
  - cbn [config.Defaults config.LLM config.Temperature]. intros Hzero.
    apply Qeq_bool_iff in Hzero. congruence.
  - cbn. destruct (Z.eqb_spec (config.TimeoutSeconds (config.LLM c)) 0); lia.
  - cbn. destruct (Z.eqb_spec (config.MaxMessages (config.LLM c)) 0); lia.
  - cbn. destruct (Z.eqb_spec (config.MaxChars (config.LLM c)) 0); lia.
Qed.

End Envelope.

(** * Round-to-nearest-even is a rounding *)

Local Open Scope Q_scope.

Lemma two_pow_pos (z : Z) : 0 < 2 ^ z.
Proof. apply Qpower_0_lt. reflexivity. Qed.

Lemma two_pow_succ (z : Z) : 2 ^ (z + 1) == 2 * 2 ^ z.
Proof. rewrite Qpower_plus by discriminate. rewrite Qpower_1_r. ring. Qed.

Lemma Z_log2_Q (n : Z) : (0 < n)%Z ->
  2 ^ (Z.log2 n) <= inject_Z n /\ inject_Z n < 2 ^ (Z.log2 n + 1).
Proof.
  intros Hn. destruct (Z.log2_spec n Hn) as [Hlo Hhi].
  pose proof (Z.log2_nonneg n) as Hl.
  split.
  - rewrite <- (Zpower_Qpower 2 (Z.log2 n)) by assumption. now rewrite <- Zle_Qle.
  - rewrite <- (Zpower_Qpower 2 (Z.log2 n + 1)) by lia.
    rewrite <- Zlt_Qlt. now rewrite Z.add_1_r.
Qed.

Lemma ilog2_spec (q : Q) : 0 < q -> 2 ^ ilog2 q <= q /\ q < 2 ^ (ilog2 q + 1).
Proof.
  intros Hq. unfold ilog2.
  set (ln := Z.log2 (Qnum q)). set (ld := Z.log2 (Zpos (Qden q))).
  assert (Hn : (0 < Qnum q)%Z).
  { destruct q as [n d]. unfold Qlt in Hq. cbn in *. lia. }
  destruct (Z_log2_Q (Qnum q) Hn) as [Hn1 Hn2]. fold ln in Hn1, Hn2.
  destruct (Z_log2_Q (Zpos (Qden q)) eq_refl) as [Hd1 Hd2]. fold ld in Hd1, Hd2.
  assert (Hqd : q * inject_Z (Zpos (Qden q)) == inject_Z (Qnum q)).
  { destruct q as [n d]. unfold Qeq, inject_Z, Qmult. cbn. lia. }
  pose proof (two_pow_pos (ln - ld)) as Hk.
  assert (Hsplit : 2 ^ ln == 2 ^ (ln - ld) * 2 ^ ld).
  { rewrite <- Qpower_plus by discriminate. now replace (ln - ld + ld)%Z with ln by lia. }
  pose proof (two_pow_succ ln) as Hsn. pose proof (two_pow_succ ld) as Hsd.
  pose proof (two_pow_pos ld) as Hpd. pose proof (two_pow_pos ln) as Hpn.
  assert (Hup : q < 2 ^ (ln - ld + 1)).
  { rewrite two_pow_succ.
    (* q * 2^ld <= q * d = n < 2 * 2^ln = 2 * 2^(ln-ld) * 2^ld *)
    apply Qnot_le_lt. intros Hc.
    assert (2 * 2 ^ (ln - ld) * 2 ^ ld <= q * inject_Z (Zpos (Qden q))).
    { apply Qle_trans with (q * 2 ^ ld).
      - apply Qmult_le_compat_r; [assumption | lra].
      - apply Qmult_le_l; [assumption | assumption]. }
    nra. }
  assert (Hdown : 2 ^ (ln - ld - 1) < q).
  { assert (Hhalf : 2 * 2 ^ (ln - ld - 1) == 2 ^ (ln - ld)).
    { rewrite <- two_pow_succ. now replace (ln - ld - 1 + 1)%Z with (ln - ld)%Z by lia. }
    apply Qnot_le_lt. intros Hc.
    assert (q * inject_Z (Zpos (Qden q)) < 2 ^ (ln - ld - 1) * (2 * 2 ^ ld)).
    { apply Qle_lt_trans with (2 ^ (ln - ld - 1) * inject_Z (Zpos (Qden q))).
      - apply Qmult_le_compat_r; [assumption|]. lra.
      - apply Qmult_lt_l; [apply two_pow_pos | lra]. }
    nra. }
  destruct (Qle_bool (2 ^ (ln - ld)) q) eqn:Hcmp.
  - apply Qle_bool_iff in Hcmp. split; assumption.
  - assert (Hlt : q < 2 ^ (ln - ld)).
    { apply Qnot_le_lt. intros Hc. apply Qle_bool_iff in Hc. congruence. }
    replace (ln - ld - 1 + 1)%Z with (ln - ld)%Z by lia.
    split; [now apply Qlt_le_weak | assumption].
Qed.

Lemma ilog2_unique (q : Q) (e : Z) :
  2 ^ e <= q -> q < 2 ^ (e + 1) -> ilog2 q = e.
Proof.
  intros Hlo Hhi.
  assert (Hq : 0 < q) by (pose proof (two_pow_pos e); lra).
  destruct (ilog2_spec q Hq) as [Hlo' Hhi'].
  assert (H1 : (e < ilog2 q + 1)%Z).
  { apply (Qpower_lt_compat_l_inv 2); [lra | reflexivity]. }
  assert (H2 : (ilog2 q < e + 1)%Z).
  { apply (Qpower_lt_compat_l_inv 2); [lra | reflexivity]. }
  lia.
Qed.

Lemma ilog2_comp (x y : Q) : 0 < x -> x == y -> ilog2 x = ilog2 y.
Proof.
  intros Hx Hxy. destruct (ilog2_spec x Hx) as [Hlo Hhi].
  symmetry. apply ilog2_unique; rewrite <- Hxy; assumption.
Qed.

Lemma Qlt_bool_iff (a b : Q) : Qlt_bool a b = true <-> a < b.
Proof.
  unfold Qlt_bool. rewrite negb_true_iff. split.
  - intros Hf. apply Qnot_le_lt. intros Hle. apply Qle_bool_iff in Hle. congruence.
  - intros Hlt. destruct (Qle_bool b a) eqn:E; [|reflexivity].
    apply Qle_bool_iff in E. lra.
Qed.

Lemma Qlt_bool_comp (a a' b b' : Q) : a == a' -> b == b' -> Qlt_bool a b = Qlt_bool a' b'.
Proof. intros Ha Hb. unfold Qlt_bool. now rewrite Ha, Hb. Qed.

Lemma roundEven_comp (s s' : Q) : s == s' -> roundEven s = roundEven s'.
Proof.
  intros Hs. unfold roundEven. rewrite (Qfloor_comp s s' Hs).
  rewrite (Qlt_bool_comp (s - inject_Z (Qfloor s')) (s' - inject_Z (Qfloor s')) 0.5 0.5),
    (Qlt_bool_comp 0.5 0.5 (s - inject_Z (Qfloor s')) (s' - inject_Z (Qfloor s')));
    try reflexivity; now rewrite Hs.
Qed.

Lemma roundEven_error (s : Q) : Qabs (inject_Z (roundEven s) - s) <= 0.5.
Proof.
  unfold roundEven. pose proof (Qfloor_le s) as Hlo. pose proof (Qlt_floor s) as Hhi.
  rewrite inject_Z_plus in Hhi. change (inject_Z 1) with 1 in Hhi.
  apply Qabs_Qle_condition.
  destruct (Qlt_bool (s - inject_Z (Qfloor s)) 0.5) eqn:E1; cbv iota.
  - apply Qlt_bool_iff in E1. revert Hlo Hhi E1.
    generalize (inject_Z (Qfloor s)). intros f Hlo Hhi E1. split; lra.
  - assert (H1 : ~ s - inject_Z (Qfloor s) < 0.5).
    { intros Hc. apply Qlt_bool_iff in Hc. congruence. }
    destruct (Qlt_bool 0.5 (s - inject_Z (Qfloor s))) eqn:E2; cbv iota.
    + apply Qlt_bool_iff in E2. rewrite inject_Z_plus. change (inject_Z 1) with 1.
      revert Hlo Hhi H1 E2. generalize (inject_Z (Qfloor s)). intros f Hlo Hhi H1 E2.
      split; lra.
    + assert (H2 : ~ 0.5 < s - inject_Z (Qfloor s)).
      { intros Hc. apply Qlt_bool_iff in Hc. congruence. }
      clear E1 E2.
      destruct (Z.even (Qfloor s)); [|rewrite inject_Z_plus; change (inject_Z 1) with 1];
        revert Hlo Hhi H1 H2; generalize (inject_Z (Qfloor s));
        intros f Hlo Hhi H1 H2; split; lra.
Qed.

Lemma roundEven_int (n : Z) : roundEven (inject_Z n) = n.
Proof.
  unfold roundEven. rewrite Qfloor_Z.
  rewrite (Qlt_bool_comp (inject_Z n - inject_Z n) 0 0.5 0.5) by (try reflexivity; ring).
  reflexivity.
Qed.

Lemma Qabs_pos_lt (x : Q) : ~ x == 0 -> 0 < Qabs x.
Proof.
  intros Hx. apply Qabs_case; intros Hs.
  - destruct (Qle_lt_or_eq _ _ Hs) as [Hlt|Heq]; [exact Hlt|].
    exfalso. apply Hx. now symmetry.
  - destruct (Qle_lt_or_eq _ _ Hs) as [Hlt|Heq]; [lra|].
    exfalso. apply Hx. exact Heq.
Qed.

Lemma rne53_proper (x y : Q) : x == y -> rne53 x == rne53 y.
Proof.
  intros Hxy. unfold rne53.
  assert (Hz : Qeq_bool x 0 = Qeq_bool y 0).
  { destruct (Qeq_bool y 0) eqn:Ey.
    - apply Qeq_bool_iff in Ey. apply Qeq_bool_iff. now rewrite Hxy.
    - destruct (Qeq_bool x 0) eqn:Ex; [|reflexivity].
      apply Qeq_bool_iff in Ex. rewrite Hxy in Ex. apply Qeq_bool_iff in Ex. congruence. }
  rewrite Hz. destruct (Qeq_bool y 0) eqn:Ey; [reflexivity|].
  assert (Hy : ~ y == 0).
  { intros Hc. apply Qeq_bool_iff in Hc. congruence. }
  assert (Habs : Qabs x == Qabs y) by now rewrite Hxy.
  assert (Hpos : 0 < Qabs x).
  { apply Qabs_pos_lt. now rewrite Hxy. }
  rewrite (ilog2_comp _ _ Hpos Habs).
  rewrite (roundEven_comp (Qabs x / 2 ^ (ilog2 (Qabs y) - 52)) (Qabs y / 2 ^ (ilog2 (Qabs y) - 52)))
    by now rewrite Habs.
  rewrite (Qleb_comp 0 0 (Qeq_refl 0) x y Hxy). reflexivity.
Qed.

(** The scaled mantissa of a positive number lies in [2^52, 2^53). *)
Lemma mantissa_range (a : Q) : 0 < a ->
  let e := (ilog2 a - 52)%Z in
  2 ^ 52 * 2 ^ e <= a /\ a < 2 ^ 53 * 2 ^ e.
Proof.
  intros Ha e. destruct (ilog2_spec a Ha) as [Hlo Hhi].
  assert (H1 : 2 ^ ilog2 a == 2 ^ 52 * 2 ^ e).
  { rewrite <- Qpower_plus by discriminate. subst e.
    now replace (52 + (ilog2 a - 52))%Z with (ilog2 a) by lia. }
  assert (H2 : 2 ^ (ilog2 a + 1) == 2 ^ 53 * 2 ^ e).
  { rewrite <- Qpower_plus by discriminate. subst e.
    now replace (53 + (ilog2 a - 52))%Z with (ilog2 a + 1)%Z by lia. }
  rewrite <- H1, <- H2. split; assumption.
Qed.

Lemma rne53_error (x : Q) : Qabs (rne53 x - x) <= Qabs x * (1 # 9007199254740992).
Proof.
  unfold rne53. destruct (Qeq_bool x 0) eqn:Ez.
  - apply Qeq_bool_iff in Ez. rewrite Ez. discriminate.
  - assert (Hx : ~ x == 0) by (intros Hc; apply Qeq_bool_iff in Hc; congruence).
    pose proof (Qabs_pos_lt x Hx) as Ha.
    set (a := Qabs x) in *. set (e := (ilog2 a - 52)%Z).
    destruct (mantissa_range a Ha) as [Hlo Hhi]. fold e in Hlo, Hhi.
    pose proof (two_pow_pos e) as He.
    pose proof (roundEven_error (a / 2 ^ e)) as Herr.
    assert (Hs : a / 2 ^ e * 2 ^ e == a) by (field; lra).
    revert Herr Hs. generalize (a / 2 ^ e). intros s Herr Hs.
    set (m := inject_Z (roundEven s)) in *.
    apply Qabs_Qle_condition in Herr. destruct Herr as [Herr1 Herr2].
    assert (Hm1 : (m - s) * 2 ^ e <= 0.5 * 2 ^ e)
      by (apply Qmult_le_compat_r; lra).
    assert (Hm2 : - (0.5) * 2 ^ e <= (m - s) * 2 ^ e)
      by (apply Qmult_le_compat_r; lra).
    assert (Hm : - (0.5 * 2 ^ e) <= m * 2 ^ e - a <= 0.5 * 2 ^ e).
    { rewrite <- Hs. split; lra. }
    change (2 ^ 52) with 4503599627370496 in Hlo.
    assert (Hbound : 0.5 * 2 ^ e <= a * (1 # 9007199254740992)) by lra.
    apply Qabs_Qle_condition.
    destruct (Qle_bool 0 x) eqn:Es.
    + apply Qle_bool_iff in Es.
      assert (Hax : a == x) by (subst a; now apply Qabs_pos).
      rewrite <- Hax. split; lra.
    + assert (Hneg : x <= 0).
      { apply Qlt_le_weak, Qnot_le_lt. intros Hc. apply Qle_bool_iff in Hc. congruence. }
      assert (Hax : a == - x) by (subst a; now apply Qabs_neg).
      assert (Hxa : x == - a) by (rewrite Hax; ring).
      rewrite Hxa. split; lra.
Qed.

Lemma Qabs_inject_Z (m : Z) : Qabs (inject_Z m) == inject_Z (Z.abs m).
Proof. destruct m; reflexivity. Qed.

Lemma rne53_exact (m e : Z) :
  (Z.abs m < 2 ^ 53)%Z -> rne53 (inject_Z m * 2 ^ e) == inject_Z m * 2 ^ e.
Proof.
  intros Hm. destruct (Z.eq_dec m 0%Z) as [->|Hm0].
  - assert (Hz : inject_Z 0 * 2 ^ e == 0) by apply Qmult_0_l.
    rewrite (rne53_proper _ _ Hz), Hz. reflexivity.
  - pose proof (two_pow_pos e) as He.
    set (q := inject_Z m * 2 ^ e).
    set (l := Z.log2 (Z.abs m)).
    assert (Hl : (0 <= l <= 52)%Z).
    { split; [apply Z.log2_nonneg|].
      assert (l < 53)%Z; [|lia]. apply Z.log2_lt_pow2; lia. }
    destruct (Z_log2_Q (Z.abs m) ltac:(lia)) as [Hlo Hhi]. fold l in Hlo, Hhi.
    assert (Ha : Qabs q == inject_Z (Z.abs m) * 2 ^ e).
    { subst q. rewrite Qabs_Qmult, Qabs_inject_Z, (Qabs_pos (2 ^ e)) by lra. reflexivity. }
    assert (Hil : ilog2 (Qabs q) = (l + e)%Z).
    { apply ilog2_unique; rewrite Ha.
      - rewrite Qpower_plus by discriminate. apply Qmult_le_compat_r; lra.
      - replace (l + e + 1)%Z with (l + 1 + e)%Z by lia.
        rewrite Qpower_plus by discriminate. apply Qmult_lt_compat_r; lra. }
    assert (Hq0 : ~ q == 0).
    { intros Hc. assert (Hz : Qabs q == 0) by now rewrite Hc.
      rewrite Ha in Hz. 
      assert (0 < inject_Z (Z.abs m)).
      { change 0 with (inject_Z 0). rewrite <- Zlt_Qlt. lia. }
      nra. }
    unfold rne53. fold q.
    destruct (Qeq_bool q 0) eqn:Ez; [apply Qeq_bool_iff in Ez; contradiction|].
    rewrite Hil.
    set (N := (Z.abs m * 2 ^ (52 - l))%Z).
    assert (Hs : Qabs q / 2 ^ (l + e - 52) == inject_Z N).
    { subst N. rewrite inject_Z_mult, Zpower_Qpower by lia. rewrite Ha.
      change (inject_Z 2) with 2.
      replace (l + e - 52)%Z with (e - (52 - l))%Z by lia.
      rewrite (Qpower_minus 2 e (52 - l)) by discriminate.
      pose proof (two_pow_pos (52 - l)) as Hp. revert He Hp.
      generalize (2 ^ e), (2 ^ (52 - l)), (inject_Z (Z.abs m)).
      intros P R M HP HR. field. split; lra. }
    rewrite (roundEven_comp _ _ Hs), roundEven_int.
    subst N. rewrite inject_Z_mult, Zpower_Qpower by lia.
    change (inject_Z 2) with 2.
    assert (Hpow : 2 ^ (52 - l) * 2 ^ (l + e - 52) == 2 ^ e).
    { rewrite <- Qpower_plus by discriminate.
      now replace (52 - l + (l + e - 52))%Z with e by lia. }
    destruct (Qle_bool 0 q) eqn:Es.
    + apply Qle_bool_iff in Es.
      assert (Hmpos : (0 <= m)%Z).
      { destruct (Z.le_gt_cases 0%Z m) as [|Hneg]; [assumption|].
        exfalso. assert (inject_Z m < 0).
        { change 0 with (inject_Z 0). now rewrite <- Zlt_Qlt. }
        subst q. nra. }
      rewrite (Z.abs_eq m Hmpos). subst q.
      rewrite <- Hpow. ring.
    + assert (Hmneg : (m <= 0)%Z).
      { destruct (Z.le_gt_cases m 0%Z) as [|Hpos]; [assumption|].
        exfalso. assert (0 < inject_Z m).
        { change 0 with (inject_Z 0). now rewrite <- Zlt_Qlt. }
        assert (Hc : 0 <= q) by (subst q; nra).
        apply Qle_bool_iff in Hc. congruence. }
      rewrite (Z.abs_neq m Hmneg), inject_Z_opp. subst q.
      rewrite <- Hpow. ring.
Qed.

(** Binary64 arithmetic, the exponent range apart. *)
#[export] Instance binary64 : Float64 :=
  {| fl := rne53;
     fl_proper := rne53_proper;
     fl_error := rne53_error;
     fl_exact := rne53_exact |}.

Local Open Scope Z_scope.

(** * The properties on concrete inputs *)

Import AsciiLib Examples.

(** ** The question ledger *)

(** The scenario of the specification: Bob's reply resolves Alice's
    question after five minutes. *)
Lemma resolution_step_witness :
  ledger [alice] !! 0%nat = Some aliceQuestion
  /\ q_Resolved aliceQuestion = false
  /\ resolves bob aliceQuestion = true
  /\ ledger ([alice] ++ [bob]) !! 0%nat
     = Some (markResolved bob (messageTime bob) aliceQuestion)
  /\ q_ResponseMinutes (markResolved bob (messageTime bob) aliceQuestion) == 5
  /\ q_Responders (markResolved bob (messageTime bob) aliceQuestion)
     = {[ "bob" := "Bob" ]}.
Proof.
  assert (Hin : ledger [alice] !! 0%nat = Some aliceQuestion) by reflexivity.
  assert (Hopen : q_Resolved aliceQuestion = false) by reflexivity.
  assert (Hres : resolves bob aliceQuestion = true) by (vm_compute; reflexivity).
  destruct (resolution_step [alice] bob 0 aliceQuestion Hin Hopen)
    as (_ & Hstep & Hmark).
  destruct (Hmark Hres) as (_ & Hmin & _ & _ & Hresp).
  rewrite Hres in Hstep.
  split; [exact Hin|]. split; [exact Hopen|]. split; [exact Hres|].
  split; [exact Hstep|]. split; [rewrite Hmin; vm_compute; reflexivity|].
  rewrite Hresp. reflexivity.
Defined.

(** C1, the claim as stated, fails.  Neither message carries a time, so
    Bob's message is not earlier than the question; the two identities
    differ; Bob's message refers to Alice and the question mentions Bob.
    The condition of the claim holds, and the entry stays open. *)
Lemma resolution_needs_known_time :
  ledger [aliceNoTime] = [aliceNoTimeQuestion]
  /\ claimedResolves bobNoTime aliceNoTimeQuestion = true
  /\ ledger [aliceNoTime; bobNoTime] = [aliceNoTimeQuestion]
  /\ q_Resolved aliceNoTimeQuestion = false.
Proof. repeat split; vm_compute; reflexivity. Qed.

(** A question without a sender name, quoted by a later reply, stays
    open. *)
Lemma blank_sender_question_stays_open_witness :
  shouldTrackQuestion anonymous (messageText anonymous) = true
  /\ senderDisplay anonymous = ""
  /\ ledger ([alice] ++ anonymous :: [carol]) !! 1%nat
     = Some (newQuestion 1 anonymous (messageTime anonymous))
  /\ length (Outstanding (Summary_ReplyDebt
                            (BuildSummary asListed ([alice] ++ anonymous :: [carol]))))
     = 2%nat.
Proof.
  assert (Htrack : shouldTrackQuestion anonymous (messageText anonymous) = true)
    by reflexivity.
  assert (Hblank : senderDisplay anonymous = "") by reflexivity.
  destruct (blank_sender_question_stays_open asListed [alice] [carol] anonymous
              Htrack Hblank) as (_ & _ & Hin & _ & _).
  split; [exact Htrack|]. split; [exact Hblank|]. split; [exact Hin|].
  vm_compute. reflexivity.
Defined.

(** ** The hourly histogram *)

(** C3, the claim as stated, fails: the time of the message derives from
    its [Time] string, and the message is in no bucket. *)
Lemma histogram_misses_time_string :
  hasTime timeOnly = true
  /\ countIf hasTime [timeOnly] = 1
  /\ sumInts (HourlyHistogram (BuildSummary asListed [timeOnly])) = 0
  /\ sumInts (HourlyHistogram (BuildSummary asListed [timeOnly]))
     <> countIf hasTime [timeOnly].
Proof.
  split; [reflexivity|]. split; [reflexivity|]. split; [reflexivity|].
  vm_compute. discriminate.
Qed.

Example histogram_of_exchange :
  sumInts (HourlyHistogram (BuildSummary asListed [alice; bob])) = 2
  /\ PeakHour (BuildSummary asListed [alice; bob]) = 22.
Proof. split; reflexivity. Qed.

(** ** Links *)

(** C7, the claim as stated, fails: the message raises the frequency of the
    URL to 1, not to 2. *)
Lemma same_link_twice_counts_once :
  urlParts (messageText sameLinkTwice) = ["https://a.com/x"; "https://a.com/x"]
  /\ linkCount (rangeMsgs 0 [sameLinkTwice] loopInit) !! "https://a.com/x" = Some 1
  /\ linkCount (rangeMsgs 0 [sameLinkTwice] loopInit) !! "https://a.com/x" <> Some 2
  /\ TopLinks (BuildSummary asListed [sameLinkTwice]) = ["https://a.com/x"].
Proof.
  split; [reflexivity|]. split; [vm_compute; reflexivity|].
  split; [vm_compute; discriminate|]. vm_compute. reflexivity.
Qed.

(** C2.  Two runs on the same input, with two orders of the range over
    [linkCount], list the two links, which are equally frequent, in
    different orders. *)
Theorem topLinks_depend_on_range_order :
  TopLinks (BuildSummary asListed [twoLinks]) = ["https://a.com/x"; "https://b.org/y"]
  /\ TopLinks (BuildSummary reversed [twoLinks]) = ["https://b.org/y"; "https://a.com/x"]
  /\ BuildSummary asListed [twoLinks] <> BuildSummary reversed [twoLinks].
Proof.
  assert (Ha : TopLinks (BuildSummary asListed [twoLinks])
               = ["https://a.com/x"; "https://b.org/y"]) by (vm_compute; reflexivity).
  assert (Hr : TopLinks (BuildSummary reversed [twoLinks])
               = ["https://b.org/y"; "https://a.com/x"]) by (vm_compute; reflexivity).
  split; [exact Ha|]. split; [exact Hr|].
  intros Heq. rewrite Heq, Hr in Ha. discriminate Ha.
Qed.

(** ** The empty input *)

(** C8, the claim as stated, fails: the highlights of the empty input are
    not empty. *)
Lemma empty_summary_has_headline :
  Highlights (BuildSummary asListed []) = ["messages 0, senders 0; peak 00:00-00:59"]
  /\ Highlights (BuildSummary asListed []) <> [].
Proof. split; [vm_compute; reflexivity | vm_compute; discriminate]. Qed.

(** ** Topics and group vibes *)

Example topics_of_deployTalk :
  map Topic_Name (Topics (BuildSummary asListed deployTalk)) = ["deploy"]
  /\ map Topic_Count (Topics (BuildSummary asListed deployTalk)) = [3].
Proof. split; vm_compute; reflexivity. Qed.

Lemma groupVibes_bounds_witness :
  [alice; bob] <> []
  /\ Score (Summary_GroupVibes (BuildSummary asListed [alice; bob])) = 27
  /\ (0 <= Score (Summary_GroupVibes (BuildSummary asListed [alice; bob])) <= 100).
Proof.
  assert (Hne : [alice; bob] <> []) by discriminate.
  destruct (groupVibes_bounds asListed [alice; bob] Hne) as (_ & _ & _ & _ & Hscore).
  split; [exact Hne|]. split; [vm_compute; reflexivity | exact Hscore].
Defined.

(** ** Sentiment signals *)

(** Two positive terms count once; of the three emoji tokens two are in
    the positive set, one of them after trimming. *)
Lemma sentimentSignals_spec_witness :
  (Z.of_nat (length ["OK"; " OK "; "sad"]) < 2 ^ 52)%Z
  /\ lexiconHit positiveLexicons "nice, great work [OK] but one bug" = true
  /\ emojiCount positiveEmojiSet ["OK"; " OK "; "sad"] = 2
  /\ (fst (sentimentSignals "nice, great work [OK] but one bug" ["OK"; " OK "; "sad"])
      == 2)%Q
  /\ (snd (sentimentSignals "nice, great work [OK] but one bug" ["OK"; " OK "; "sad"])
      == 1)%Q.
Proof.
  assert (Hlen : (Z.of_nat (length ["OK"; " OK "; "sad"]) < 2 ^ 52)%Z) by (cbn; lia).
  destruct (sentimentSignals_spec "nice, great work [OK] but one bug"
              ["OK"; " OK "; "sad"] Hlen) as [Hpos Hneg].
  split; [exact Hlen|]. split; [reflexivity|]. split; [reflexivity|].
  split; [rewrite Hpos | rewrite Hneg]; reflexivity.
Defined.

(** In exact arithmetic the weighted sum below is 28.5 and rounds to 29; in
    binary64 it is 28.499999999999996, and the score is 28. *)
Example score_below_a_half_way_point :
  Score (buildGroupVibes halfWaySummary halfWayAnalytics) = 28.
Proof. vm_compute. reflexivity. Qed.

(** ** The activity series of the day page *)

(** The exchange of Alice and Bob: the two messages fall in hour 22, and
    the slots of the series carry the buckets of the histogram. *)
Lemma activitySeries_peak_witness :
  Z.of_nat (length [alice; bob]) < 2 ^ 53
  /\ PeakHour (BuildSummary asListed [alice; bob]) = 22
  /\ map Slot_Count
         (render.buildActivitySeries (HourlyHistogram (BuildSummary asListed [alice; bob])))
     = HourlyHistogram (BuildSummary asListed [alice; bob]).
Proof.
  assert (Hsize : Z.of_nat (length [alice; bob]) < 2 ^ 53) by (vm_compute; reflexivity).
  split; [exact Hsize|]. split; [vm_compute; reflexivity|].
  exact (proj1 (activitySeries_peak asListed [alice; bob] Hsize)).
Defined.

(** ** The envelope of a response and the first non-empty value *)

(** An object with an array under [list] and no array under [data]: the
    array is found, and the rest of the object is the meta data. *)
Example envelope_of_a_response :
  client.normalizeResponse reversed
    (AMap (<["data" := AString "none"]>
             (<["list" := ASlice [AString "m1"; AString "m2"]]>
                (<["total" := ANumber "2"]> ∅))))
  = (Some [AString "m1"; AString "m2"],
     Some (<["data" := AString "none"]> (<["total" := ANumber "2"]> ∅))).
Proof. vm_compute. reflexivity. Qed.

(** A nil value and a string of white space are passed over; a number is
    not. *)
Example first_value_that_is_not_empty :
  client.firstNonEmpty [ANil; AString "  "; ANumber "0"; AString "x"] = ANumber "0"
  /\ insight.firstNonEmpty ["  "; " a "; "b"] = " a ".
Proof. split; vm_compute; reflexivity. Qed.

(** Hours 9 and 14 have two responses each, hour 23 has three, and an
    unknown hour is left out. *)
Example best_hours_of_a_day :
  bestHours reversed (<[14 := 2]> (<[9 := 2]> (<[23 := 3]> (<[-1 := 5]> ∅)))) 3
  = [23; 9; 14].
Proof. vm_compute. reflexivity. Qed.
